(** * Release-notes builder: [DefaultChangelogNotes.buildNotes]

    A shallow embedding of [src/changelog-notes/default.ts] and of the
    variants of that file kept in the repository.

    - JavaScript strings are modelled as [string]; a character is a code
      unit below 256, so the character classes of the regular expressions
      ([\d], [\s], [\b], [.], [[A-Z0-9]]) are given on [ascii].
    - Every regular expression of the source is translated by hand into a
      matcher that follows the backtracking order of the JavaScript
      engine (alternatives left to right, greedy quantifiers longest
      first).
    - Notes are objects that [replaceIssueLink] updates in place: they live
      in a store [gmap loc Note], commits hold references to them.
    - The changelog writer ([conventional-changelog-writer] with the preset
      of [conventional-changelog-conventionalcommits]) is an external
      collaborator: [buildNotes] takes it as a parameter. *)

From Stdlib Require Import Ascii String Arith Bool Lia.
From stdpp Require Import base option list gmap strings.

(** ** Characters *)

Module Char.

Definition code (c : ascii) : nat := nat_of_ascii c.

Definition between (lo hi : nat) (c : ascii) : bool :=
  (lo <=? code c) && (code c <=? hi).

(** [\d] *)
Definition is_digit (c : ascii) : bool := between 48 57 c.
(** [[A-Z]] *)
Definition is_upper (c : ascii) : bool := between 65 90 c.
(** [[a-z]] *)
Definition is_lower (c : ascii) : bool := between 97 122 c.
(** [[A-Za-z]] *)
Definition is_letter (c : ascii) : bool := is_upper c || is_lower c.
(** [[A-Z0-9]] *)
Definition is_upper_digit (c : ascii) : bool := is_upper c || is_digit c.
(** [[A-Za-z0-9]] *)
Definition is_alnum (c : ascii) : bool := is_letter c || is_digit c.
(** [\w] *)
Definition is_word (c : ascii) : bool := is_alnum c || (code c =? 95).

(** Line terminators, the characters [.] does not match.  Among the code
    units below 256 these are [\n] and [\r]; U+2028 and U+2029, which [.]
    does not match either, are no values of [ascii]. *)
Definition is_line_terminator (c : ascii) : bool :=
  (code c =? 10) || (code c =? 13).

(** [\s], and the characters [trim] removes: white space and line
    terminators. *)
Definition is_space (c : ascii) : bool :=
  between 9 13 c || (code c =? 32) || (code c =? 160).

Definition eqb (a b : ascii) : bool := Ascii.eqb a b.

Definition backtick : ascii := ascii_of_nat 96.
Definition newline : ascii := ascii_of_nat 10.

End Char.

(** ** Strings *)

Module Str.

Fixpoint all (p : ascii -> bool) (s : string) : bool :=
  match s with
  | EmptyString => true
  | String c s' => p c && all p s'
  end.

Fixpoint any (p : ascii -> bool) (s : string) : bool :=
  match s with
  | EmptyString => false
  | String c s' => p c || any p s'
  end.

(** The longest prefix of characters satisfying [p], and what follows. *)
Fixpoint span (p : ascii -> bool) (s : string) : string * string :=
  match s with
  | EmptyString => (EmptyString, EmptyString)
  | String c s' =>
      if p c then let '(a, b) := span p s' in (String c a, b)
      else (EmptyString, s)
  end.

Fixpoint take (n : nat) (s : string) : string :=
  match n, s with
  | S k, String c s' => String c (take k s')
  | _, _ => EmptyString
  end.

Fixpoint drop (n : nat) (s : string) : string :=
  match n, s with
  | S k, String c s' => drop k s'
  | _, _ => s
  end.

(** [s.startsWith(p)], returning the rest of [s]. *)
Fixpoint strip_prefix (p s : string) : option string :=
  match p, s with
  | EmptyString, _ => Some s
  | String a p', String b s' =>
      if Char.eqb a b then strip_prefix p' s' else None
  | String _ _, EmptyString => None
  end.

Definition starts_with (p s : string) : bool :=
  match strip_prefix p s with Some _ => true | None => false end.

(** [s.indexOf(p)]: the first position where [p] occurs, if any. *)
Fixpoint index_of (p s : string) : option nat :=
  if starts_with p s then Some 0
  else match s with
       | EmptyString => None
       | String _ s' => S <$> index_of p s'
       end.

(** The number of positions of [s] where [p] occurs. *)
Fixpoint count (p s : string) : nat :=
  (if starts_with p s then 1 else 0) +
  match s with
  | EmptyString => 0
  | String _ s' => count p s'
  end.

Definition rev (s : string) : string :=
  string_of_list_ascii (List.rev (list_ascii_of_string s)).

Fixpoint trim_start (s : string) : string :=
  match s with
  | String c s' => if Char.is_space c then trim_start s' else s
  | EmptyString => EmptyString
  end.

Definition trim_end (s : string) : string := rev (trim_start (rev s)).

(** [s.trim()] *)
Definition trim (s : string) : string := trim_end (trim_start s).

(** [parts.join(sep)] *)
Fixpoint join (sep : string) (parts : list string) : string :=
  match parts with
  | [] => EmptyString
  | [p] => p
  | p :: rest => p +:+ sep +:+ join sep rest
  end.

(** [s.split(sep)[0]] for a one-character separator. *)
Fixpoint first_field (sep : ascii) (s : string) : string :=
  match s with
  | EmptyString => EmptyString
  | String c s' =>
      if Char.eqb c sep then EmptyString else String c (first_field sep s')
  end.

Definition is_empty (s : string) : bool :=
  match s with EmptyString => true | _ => false end.

Definition nl : string := String Char.newline EmptyString.

End Str.

(** ** [String.prototype.replace] with a global regular expression

    The engine tries the expression at every position from left to right;
    after a match it resumes behind the matched text.  A matcher is given
    whether the position is the start of the text (for [^]) and the text
    from the position on; it returns the matched text and its replacement.
    None of the expressions of the source matches the empty string. *)

Inductive segment : Type :=
| Keep (c : ascii)
| Repl (matched replacement : string).

Definition matcher : Type := bool -> string -> option (string * string).

Fixpoint scan (m : matcher) (start : bool) (skip : nat) (s : string)
  : list segment :=
  match s with
  | EmptyString => []
  | String c s' =>
      match skip with
      | S k => scan m false k s'
      | O =>
          match m start s with
          | Some (matched, r) =>
              Repl matched r :: scan m false (String.length matched - 1) s'
          | None => Keep c :: scan m false 0 s'
          end
      end
  end.

Definition seg_in (g : segment) : string :=
  match g with Keep c => String c EmptyString | Repl matched _ => matched end.

Definition seg_out (g : segment) : string :=
  match g with Keep c => String c EmptyString | Repl _ r => r end.

Fixpoint concat_map (f : segment -> string) (l : list segment) : string :=
  match l with
  | [] => EmptyString
  | g :: l' => f g +:+ concat_map f l'
  end.

Definition replace_all (m : matcher) (s : string) : string :=
  concat_map seg_out (scan m true 0 s).

(** ** The text sanitizer: [htmlEscape] *)

(** [.*[^`]``] after the first character of a two-backtick span: the
    length taken by [.*], longest first. *)
Fixpoint close_double (r : string) : option nat :=
  match r with
  | EmptyString => None
  | String c r' =>
      match (if Char.is_line_terminator c then None else close_double r') with
      | Some n => Some (S n)
      | None =>
          if negb (Char.eqb c Char.backtick)
             && Str.starts_with "``" r'
          then Some 0 else None
      end
  end.

(** [``[^`].*[^`]``] at the start of [s]: the length of the match. *)
Definition match_double (s : string) : option nat :=
  match s with
  | String a (String b (String x r)) =>
      if Char.eqb a Char.backtick && Char.eqb b Char.backtick
         && negb (Char.eqb x Char.backtick)
      then (fun n => n + 6) <$> close_double r
      else None
  | _ => None
  end.

(** [`[^`]*`] at the start of [s]: the length of the match. *)
Definition match_single (s : string) : option nat :=
  match s with
  | String a r =>
      if Char.eqb a Char.backtick then
        let '(body, rest) := Str.span (fun c => negb (Char.eqb c Char.backtick)) r in
        match rest with
        | String _ _ => Some (String.length body + 2)
        | EmptyString => None
        end
      else None
  | EmptyString => None
  end.

(** [/``[^`].*[^`]``|`[^`]*`|<|>/g] with the replacer
    [match => match.length > 1 ? match : match === '<' ? '&lt;' : '&gt;']. *)
Definition escape_matcher : matcher := fun _ s =>
  let found :=
    match match_double s with
    | Some n => Some n
    | None =>
        match match_single s with
        | Some n => Some n
        | None =>
            match s with
            | String c _ =>
                if Char.eqb c "<"%char || Char.eqb c ">"%char then Some 1 else None
            | EmptyString => None
            end
        end
    end in
  match found with
  | Some n =>
      let matched := Str.take n s in
      Some (matched,
            if 1 <? String.length matched then matched
            else if String.eqb matched "<" then "&lt;" else "&gt;")
  | None => None
  end.

Definition htmlEscape (message : string) : string :=
  replace_all escape_matcher message.

(** ** The issue-link rewriter: [issueKeyRegex] and its replacer *)

(** [[A-Z][A-Z0-9]+-\d+] at the start of [s]: the key. *)
Definition key_generic (s : string) : option string :=
  match s with
  | String u r =>
      if Char.is_upper u then
        let '(run, r1) := Str.span Char.is_upper_digit r in
        if Str.is_empty run then None
        else match r1 with
             | String d r2 =>
                 if Char.eqb d "-"%char then
                   let '(ds, _) := Str.span Char.is_digit r2 in
                   if Str.is_empty ds then None
                   else Some (String u (run +:+ "-" +:+ ds))
                 else None
             | EmptyString => None
             end
      else None
  | EmptyString => None
  end.

(** [p-\d+] at the start of [s] for one prefix [p], which is escaped by
    [p.replace(/[-/\\^$*+?.()|[\]{}]/g, '\\$&')] and so matched literally. *)
Definition key_with_prefix (p s : string) : option string :=
  match Str.strip_prefix p s with
  | Some (String d r2) =>
      if Char.eqb d "-"%char then
        let '(ds, _) := Str.span Char.is_digit r2 in
        if Str.is_empty ds then None else Some (p +:+ "-" +:+ ds)
      else None
  | _ => None
  end.

(** [(?:p1|p2|...)-\d+] at the start of [s]: the alternatives are tried in
    the order of the list. *)
Fixpoint key_prefixed (prefixes : list string) (s : string) : option string :=
  match prefixes with
  | [] => None
  | p :: rest =>
      match key_with_prefix p s with
      | Some k => Some k
      | None => key_prefixed rest s
      end
  end.

(** [options.trackerList && options.trackerList.length > 0
      ? options.trackerList : undefined] *)
Definition trackerPrefixes (trackerList : option (list string))
  : option (list string) :=
  match trackerList with
  | Some (p :: ps) => Some (p :: ps)
  | _ => None
  end.

Definition key_at (prefixes : option (list string)) (s : string)
  : option string :=
  match prefixes with
  | Some ps => key_prefixed ps s
  | None => key_generic s
  end.

(** [(?:^|[^A-Z0-9])(KEY)] at a position: the matched text [m] and the
    captured [key]. *)
Definition issueKeyRegex (prefixes : option (list string))
    (start : bool) (s : string) : option (string * string) :=
  match (if start then key_at prefixes s else None) with
  | Some key => Some (key, key)
  | None =>
      match s with
      | String c s' =>
          if negb (Char.is_upper_digit c) then
            match key_at prefixes s' with
            | Some key => Some (String c key, key)
            | None => None
            end
          else None
      | EmptyString => None
      end
  end.

(** The replacer
    [(m, key) => m.slice(0, m.indexOf(key)) + `[${key}](${trackerUrl}${key})`]. *)
Definition link_replacer (trackerUrl m key : string) : string :=
  Str.take (default 0 (Str.index_of key m)) m
  +:+ "[" +:+ key +:+ "](" +:+ trackerUrl +:+ key +:+ ")".

Definition link_matcher (prefixes : option (list string)) (trackerUrl : string)
  : matcher := fun start s =>
  match issueKeyRegex prefixes start s with
  | Some (m, key) => Some (m, link_replacer trackerUrl m key)
  | None => None
  end.

(** [subject.replace(issueKeyRegex, replacer)] *)
Definition linkify (prefixes : option (list string)) (trackerUrl : string)
    (subject : string) : string :=
  replace_all (link_matcher prefixes trackerUrl) subject.

(** [if (trackerUrl) subject = subject.replace(...)] *)
Definition rewriteSubject (prefixes : option (list string))
    (trackerUrl : option string) (subject : string) : string :=
  match trackerUrl with
  | Some url => if Str.is_empty url then subject else linkify prefixes url subject
  | None => subject
  end.

(** ** [replaceIssueLink]: the first [(#N)] of a note text *)

(** [\(#(\d+)\)] at the start of [s]: the digits and the text behind the
    match. *)
Definition issue_ref_at (s : string) : option (string * string) :=
  match s with
  | String a (String b r) =>
      if Char.eqb a "("%char && Char.eqb b "#"%char then
        let '(ds, r') := Str.span Char.is_digit r in
        if Str.is_empty ds then None
        else match r' with
             | String c r'' =>
                 if Char.eqb c ")"%char then Some (ds, r'') else None
             | EmptyString => None
             end
      else None
  | _ => None
  end.

(** The leftmost match: the text before it, the digits, the text behind. *)
Fixpoint find_issue_ref (s : string) : option (string * string * string) :=
  match issue_ref_at s with
  | Some (n, after) => Some (EmptyString, n, after)
  | None =>
      match s with
      | String c s' =>
          match find_issue_ref s' with
          | Some (b, n, a) => Some (String c b, n, a)
          | None => None
          end
      | EmptyString => None
      end
  end.

(** The replacement text is a string, so [replace] expands its [$]
    patterns (GetSubstitution, for an expression with one capture group
    and no named group): [$$], [$&], [$`], [$'], [$1], [$01]; any other
    [$] stands for itself. *)
Fixpoint substitute (template matched cap before after : string) : string :=
  match template with
  | EmptyString => EmptyString
  | String c t1 =>
      if negb (Char.eqb c "$"%char) then
        String c (substitute t1 matched cap before after)
      else
        match t1 with
        | EmptyString => "$"
        | String d1 t2 =>
            if Char.eqb d1 "$"%char then
              "$" +:+ substitute t2 matched cap before after
            else if Char.eqb d1 "&"%char then
              matched +:+ substitute t2 matched cap before after
            else if Char.eqb d1 Char.backtick then
              before +:+ substitute t2 matched cap before after
            else if Char.eqb d1 "'"%char then
              after +:+ substitute t2 matched cap before after
            else if Char.eqb d1 "1"%char then
              cap +:+ substitute t2 matched cap before after
            else if Char.eqb d1 "0"%char then
              match t2 with
              | String d2 t3 =>
                  if Char.eqb d2 "1"%char then
                    cap +:+ substitute t3 matched cap before after
                  else "$" +:+ substitute t1 matched cap before after
              | EmptyString => "$" +:+ substitute t1 matched cap before after
              end
            else "$" +:+ substitute t1 matched cap before after
        end
  end.

(** [`([#$1](${host}/${owner}/${repo}/issues/$1))`] *)
Definition issue_template (host owner repo : string) : string :=
  "([#$1](" +:+ host +:+ "/" +:+ owner +:+ "/" +:+ repo +:+ "/issues/$1))".

(** [text.replace(/\(#(\d+)\)/, template)]: only the leftmost match is
    replaced, the expression has no [g] flag. *)
Definition rewrite_issue_ref (host owner repo text : string) : string :=
  match find_issue_ref text with
  | Some (before, n, after) =>
      before
      +:+ substitute (issue_template host owner repo)
            ("(#" +:+ n +:+ ")") n before after
      +:+ after
  | None => text
  end.

(** ** Header patterns of the classifier and of the raw-commit pass *)

Definition eat (c : ascii) (s : string) : option string :=
  match s with
  | String a r => if Char.eqb a c then Some r else None
  | EmptyString => None
  end.

(** [KEY:\s] resp. [\[KEY\]:\s] where [key] recognises [KEY]. *)
Definition colon_space (s : string) : bool :=
  match s with
  | String a (String b _) => Char.eqb a ":"%char && Char.is_space b
  | _ => false
  end.

Definition bare_key_header (key : string -> option string) (s : string)
  : bool :=
  match key s with
  | Some k => colon_space (Str.drop (String.length k) s)
  | None => false
  end.

Definition bracket_key_header (key : string -> option string) (s : string)
  : bool :=
  match eat "["%char s with
  | Some r =>
      match key r with
      | Some k =>
          match eat "]"%char (Str.drop (String.length k) r) with
          | Some r' => colon_space r'
          | None => false
          end
      | None => false
      end
  | None => false
  end.

(** [/^(\[[A-Z][A-Z0-9]+-\d+\]|[A-Z][A-Z0-9]+-\d+):\s/.test(s)] *)
Definition jiraHeader (s : string) : bool :=
  bracket_key_header key_generic s || bare_key_header key_generic s.

(** [\b] behind a word character resp. behind a character that is none. *)
Definition boundary_after_word (s : string) : bool :=
  match s with
  | String c _ => negb (Char.is_word c)
  | EmptyString => true
  end.

Definition boundary_after_nonword (s : string) : bool :=
  match s with
  | String c _ => Char.is_word c
  | EmptyString => false
  end.

(** [/^(\[[A-Z][A-Z0-9]+-\d+\]|[A-Z][A-Z0-9]+-\d+)\b/.test(s)] *)
Definition rawIssueHeader (s : string) : bool :=
  match eat "["%char s with
  | Some r =>
      match key_generic r with
      | Some k =>
          match eat "]"%char (Str.drop (String.length k) r) with
          | Some r' => boundary_after_nonword r'
          | None => false
          end
      | None => false
      end
  | None =>
      match key_generic s with
      | Some k => boundary_after_word (Str.drop (String.length k) s)
      | None => false
      end
  end.

(** [\(.*?\):\s] resp. [\(.*\)!?:\s] behind the opening parenthesis: is
    there a closing parenthesis on the line that [tail] accepts? *)
Fixpoint scope_close (tail : string -> bool) (s : string) : bool :=
  match s with
  | EmptyString => false
  | String c r =>
      (Char.eqb c ")"%char && tail r)
      || (negb (Char.is_line_terminator c) && scope_close tail r)
  end.

Definition conventional_types : list string :=
  ["feat"; "fix"; "docs"; "style"; "refactor"; "perf"; "test"; "build";
   "ci"; "chore"; "revert"].

(** [/^(feat|fix|docs|style|refactor|perf|test|build|ci|chore|revert)(\(.*?\))?:\s/.test(s)] *)
Definition conventionalHeader (s : string) : bool :=
  existsb
    (fun ty =>
       match Str.strip_prefix ty s with
       | Some r =>
           match eat "("%char r with
           | Some r' => scope_close colon_space r'
           | None => colon_space r
           end
       | None => false
       end)
    conventional_types.

(** [/^Merge\b/.test(s)] *)
Definition mergeHeader (s : string) : bool :=
  match Str.strip_prefix "Merge" s with
  | Some r => boundary_after_word r
  | None => false
  end.

(** Case folding of the [i] flag. *)
Definition fold_case (c : ascii) : ascii :=
  if Char.is_upper c then ascii_of_nat (Char.code c + 32) else c.

Fixpoint lower (s : string) : string :=
  match s with
  | EmptyString => EmptyString
  | String c r => String (fold_case c) (lower r)
  end.

Fixpoint contains (p : string -> bool) (s : string) : bool :=
  p s || match s with
         | EmptyString => false
         | String _ r => contains p r
         end.

(** [/release[- ]please|^chore\(main\): release/i.test(s)] *)
Definition skipRelease (s : string) : bool :=
  let l := lower s in
  contains
    (fun t => Str.starts_with "release-please" t
              || Str.starts_with "release please" t) l
  || Str.starts_with "chore(main): release" l.

(** ** Data model *)

(** Notes are objects; [replaceIssueLink] assigns to [note.text]. *)
Definition loc : Type := nat.

Record Note : Type := mkNote { title : string; text : string }.

(** [ConventionalCommit]; [references] holds the text of the issue
    references, which [buildNotes] only passes on. *)
Record ConventionalCommit : Type := mkCommit {
  sha : string;
  message : string;
  bareMessage : string;
  type : string;
  scope : option string;
  notes : list loc;
  references : list string;
  breaking : bool
}.

(** The raw commits of [options.commits]. *)
Record RawCommit : Type := mkRaw {
  raw_sha : string;
  raw_message : string
}.

Record ChangelogSection : Type := mkSection {
  section_type : string;
  section : string;
  hidden : bool
}.

Record BuildNotesOptions : Type := mkOptions {
  host : option string;
  owner : string;
  repository : string;
  version : string;
  previousTag : option string;
  currentTag : string;
  changelogSections : option (list ChangelogSection);
  commits : option (list RawCommit);
  trackerList : option (list string);
  trackerUrl : option string
}.

Record Context : Type := mkContext {
  ctx_host : string;
  ctx_owner : string;
  ctx_repository : string;
  ctx_version : string;
  ctx_previousTag : option string;
  ctx_currentTag : string;
  linkCompare : bool
}.

(** The objects handed to the changelog writer. *)
Record ChangelogCommit : Type := mkEntry {
  body : string;
  subject : string;
  entry_type : string;
  entry_scope : option string;
  entry_notes : list loc;
  entry_references : list string;
  mentions : list string;
  merge : option string;
  revert : option string;
  header : string;
  footer : string;
  hash : string
}.

(** The changelog writer with its preset:
    [conventionalChangelogWriter.parseArray(entries, context,
    (await presetFactory(config)).writerOpts)], the partials of the
    constructor included.  It reads the notes of the entries in the
    store. *)
Definition Writer : Type :=
  list ChangelogCommit -> gmap loc Note -> Context
  -> option (list ChangelogSection) -> string.

(** JavaScript truthiness of an optional string. *)
Definition truthy (o : option string) : bool :=
  match o with
  | Some s => negb (Str.is_empty s)
  | None => false
  end.

Definition DEFAULT_HOST : string := "https://github.com".

(** [host: options.host || DEFAULT_HOST, ..., linkCompare: !!options.previousTag] *)
Definition buildContext (options : BuildNotesOptions) : Context :=
  {| ctx_host := if truthy (host options) then default "" (host options)
                 else DEFAULT_HOST;
     ctx_owner := owner options;
     ctx_repository := repository options;
     ctx_version := version options;
     ctx_previousTag := previousTag options;
     ctx_currentTag := currentTag options;
     linkCompare := truthy (previousTag options) |}.

(** ** The classifier *)

(** The state the callbacks of [buildNotes] work on: the set [seenShas]
    and the store of the note objects. *)
Record State : Type := mkState {
  seen : gset string;
  store : gmap loc Note
}.

(** [replaceIssueLink(note, host, owner, repo)]: assigns the rewritten
    text to [note.text] and returns the same object. *)
Definition replaceIssueLink (note : loc) (host owner repo : string)
    (σ : gmap loc Note) : gmap loc Note :=
  alter (fun n => {| title := title n;
                     text := rewrite_issue_ref host owner repo (text n) |})
        note σ.

(** [note => note.title === t] on a reference. *)
Definition has_title (σ : gmap loc Note) (t : string) (l : loc) : bool :=
  match σ !! l with
  | Some n => String.eqb (title n) t
  | None => false
  end.

Definition note_text (σ : gmap loc Note) (l : loc) : string :=
  match σ !! l with
  | Some n => text n
  | None => EmptyString
  end.

(** [commit.notes.filter(BREAKING CHANGE).map(replaceIssueLink)]: the
    kept references, and the store after the assignments. *)
Definition breaking_notes (ctx : Context) (ls : list loc) (σ : gmap loc Note)
  : list loc * gmap loc Note :=
  let kept := List.filter (has_title σ "BREAKING CHANGE") ls in
  (kept,
   foldl (fun s l =>
            replaceIssueLink l (ctx_host ctx) (ctx_owner ctx)
              (ctx_repository ctx) s)
         σ kept).

(** [commit.notes.filter(RELEASE AS).map(note => `Release-As: ${note.text}`).join('\n')] *)
Definition release_as_footer (ls : list loc) (σ : gmap loc Note) : string :=
  Str.join Str.nl
    (List.map (fun l => "Release-As: " +:+ note_text σ l)
       (List.filter (has_title σ "RELEASE AS") ls)).

(** The callback of [commits.map]. *)
Definition classifyCommit (ctx : Context) (prefixes : option (list string))
    (url : option string) (commit : ConventionalCommit) (st : State)
  : ChangelogCommit * State :=
  let seen' :=
    if Str.is_empty (sha commit) then seen st else {[ sha commit ]} ∪ seen st in
  let '(kept, σ') := breaking_notes ctx (notes commit) (store st) in
  let headerLine := message commit in
  let isJiraHeader := jiraHeader headerLine in
  let subject :=
    rewriteSubject prefixes url
      (if isJiraHeader then htmlEscape headerLine
       else htmlEscape (bareMessage commit)) in
  ({| body := "";
      subject := subject;
      entry_type := if isJiraHeader then "others" else type commit;
      entry_scope := scope commit;
      entry_notes := kept;
      entry_references := references commit;
      mentions := [];
      merge := None;
      revert := None;
      header := message commit;
      footer := release_as_footer (notes commit) σ';
      hash := sha commit |},
   {| seen := seen'; store := σ' |}).

Fixpoint classifyCommits (ctx : Context) (prefixes : option (list string))
    (url : option string) (cs : list ConventionalCommit) (st : State)
  : list ChangelogCommit * State :=
  match cs with
  | [] => ([], st)
  | c :: cs' =>
      let '(e, st1) := classifyCommit ctx prefixes url c st in
      let '(es, st2) := classifyCommits ctx prefixes url cs' st1 in
      (e :: es, st2)
  end.

(** One round of the loop over [options.commits]: [None] stands for
    [continue]. *)
Definition recoverRaw (prefixes : option (list string)) (url : option string)
    (seenShas : gset string) (raw : RawCommit) : option ChangelogCommit :=
  if decide (raw_sha raw ∈ seenShas) then None
  else
    let msg := Str.first_field Char.newline (raw_message raw) in
    if negb (rawIssueHeader msg)
       && (conventionalHeader msg || mergeHeader msg || skipRelease msg)
    then None
    else
      Some {| body := "";
              subject := rewriteSubject prefixes url (htmlEscape msg);
              entry_type := "others";
              entry_scope := None;
              entry_notes := [];
              entry_references := [];
              mentions := [];
              merge := None;
              revert := None;
              header := msg;
              footer := "";
              hash := raw_sha raw |}.

Definition recoverRaws (prefixes : option (list string)) (url : option string)
    (seenShas : gset string) (raws : option (list RawCommit))
  : list ChangelogCommit :=
  match raws with
  | Some rs => omap (recoverRaw prefixes url seenShas) rs
  | None => []
  end.

(** ** The fallback assembler *)

Definition is_others (c : ChangelogCommit) : bool :=
  String.eqb (entry_type c) "others".

(** One line of the Others block. *)
Definition others_bullet (ctx : Context) (c : ChangelogCommit) : string :=
  let shortSha := hash c in
  let sha7 := if Str.is_empty shortSha then "" else Str.take 7 shortSha in
  let link :=
    if Str.is_empty sha7 then ""
    else "([" +:+ sha7 +:+ "](" +:+ ctx_host ctx +:+ "/" +:+ ctx_owner ctx
         +:+ "/" +:+ ctx_repository ctx +:+ "/commit/" +:+ shortSha +:+ "))" in
  Str.trim ("* " +:+ subject c +:+ " " +:+ link).

Definition appendOthers (ctx : Context) (rendered : string)
    (changelogCommits : list ChangelogCommit) : string :=
  let others := List.filter is_others changelogCommits in
  match others with
  | [] => rendered
  | _ :: _ =>
      let lines := if Str.is_empty rendered then [] else [rendered; ""] in
      Str.join Str.nl
        (lines ++ ["### Others"; ""] ++ List.map (others_bullet ctx) others)
  end.

(** ** [buildNotes] *)

Definition classify (options : BuildNotesOptions)
    (cs : list ConventionalCommit) (σ : gmap loc Note)
  : list ChangelogCommit * gmap loc Note :=
  let context := buildContext options in
  let prefixes := trackerPrefixes (trackerList options) in
  let url := trackerUrl options in
  let '(entries, st) :=
    classifyCommits context prefixes url cs {| seen := ∅; store := σ |} in
  (entries ++ recoverRaws prefixes url (seen st) (commits options), store st).

Definition buildNotes (writer : Writer) (cs : list ConventionalCommit)
    (options : BuildNotesOptions) (σ : gmap loc Note)
  : string * gmap loc Note :=
  let context := buildContext options in
  let '(changelogCommits, σ') := classify options cs σ in
  let rendered :=
    Str.trim (writer changelogCommits σ' context (changelogSections options)) in
  (appendOthers context rendered changelogCommits, σ').

(** ** The variants of [default.ts] kept in the repository *)

(** The variant that builds [jiraHeader] from the configured prefixes
    ([prefixClass]); there [trackerList] is one comma-separated string. *)
Module PrefixVariant.

(** [s.split(',')] *)
Fixpoint split_on (sep : ascii) (s : string) : list string :=
  match s with
  | EmptyString => [EmptyString]
  | String c r =>
      if Char.eqb c sep then EmptyString :: split_on sep r
      else match split_on sep r with
           | f :: fs => String c f :: fs
           | [] => [String c EmptyString]
           end
  end.

(** [trackerList ? trackerList.split(',').map(s => s.trim()).filter(Boolean)
     : undefined] *)
Definition trackerPrefixes (trackerList : option string)
  : option (list string) :=
  if truthy trackerList then
    Some (List.filter (fun p => negb (Str.is_empty p))
            (List.map Str.trim (split_on ","%char (default "" trackerList))))
  else None.

(** [prefixClass]: the alternation of the escaped prefixes when there is
    at least one, [[A-Z][A-Z0-9]+] otherwise; [prefixClass-\d+] at the
    start of a text. *)
Definition class_key (prefixes : option (list string)) (s : string)
  : list string :=
  match prefixes with
  | Some (p :: ps) =>
      omap (fun q => key_with_prefix q s) (p :: ps)
  | _ => match key_generic s with Some k => [k] | None => [] end
  end.

(** [new RegExp(`^(\\[${prefixClass}-\\d+\\]|${prefixClass}-\\d+):\\s`).test(s)]:
    some alternative of the class has to be followed by [:\s]. *)
Definition jiraHeader (prefixes : option (list string)) (s : string) : bool :=
  match eat "["%char s with
  | Some r =>
      existsb
        (fun k =>
           match eat "]"%char (Str.drop (String.length k) r) with
           | Some r' => colon_space r'
           | None => false
           end)
        (class_key prefixes r)
  | None => false
  end
  || existsb (fun k => colon_space (Str.drop (String.length k) s))
       (class_key prefixes s).

(** [const type = isJiraHeader ? 'others' : commit.type] *)
Definition entryType (trackerList : option string)
    (commit : ConventionalCommit) : string :=
  if jiraHeader (trackerPrefixes trackerList) (message commit)
  then "others" else type commit.

End PrefixVariant.

(** The variant that turns raw commits into extra commits of type
    [others] before the classification ([augmentedCommits]). *)
Module AugmentVariant.

(** [raw.message.split(/\r?\n/)[0]] *)
Fixpoint first_line (s : string) : string :=
  match s with
  | EmptyString => EmptyString
  | String c r =>
      if Char.eqb c Char.newline then EmptyString
      else if (Char.code c =? 13) && Str.starts_with Str.nl r
           then EmptyString
           else String c (first_line r)
  end.

(** [/^[a-z]+(\(.*\))?!?:\s/.test(s)] *)
Definition bang_colon_space (s : string) : bool :=
  colon_space s
  || match eat "!"%char s with Some r => colon_space r | None => false end.

Definition isConventionalHeader (s : string) : bool :=
  let '(run, r) := Str.span Char.is_lower s in
  negb (Str.is_empty run)
  && match eat "("%char r with
     | Some r' => scope_close bang_colon_space r'
     | None => bang_colon_space r
     end.

(** [/^[A-Z][A-Z0-9]+-\d+:\s/.test(s)] *)
Definition isJiraHeader (s : string) : bool :=
  bare_key_header key_generic s.

(** [/[A-Za-z]/.test(s)] *)
Definition hasLetters (s : string) : bool := Str.any Char.is_letter s.

(** One round of the loop over [options.commits]. *)
Definition extra (includedShas : gset string) (raw : RawCommit)
  : option ConventionalCommit :=
  if decide (raw_sha raw ∈ includedShas) then None
  else
    let firstLine := Str.trim (first_line (raw_message raw)) in
    if Str.is_empty firstLine then None
    else if negb (hasLetters firstLine) then None
    else if isConventionalHeader firstLine then None
    else if isJiraHeader firstLine then None
    else Some {| sha := raw_sha raw;
                 message := firstLine;
                 bareMessage := firstLine;
                 type := "others";
                 scope := None;
                 notes := [];
                 references := [];
                 breaking := false |}.

(** [augmentedCommits] *)
Definition augmentedCommits (cs : list ConventionalCommit)
    (raws : option (list RawCommit)) : list ConventionalCommit :=
  match raws with
  | Some (r :: rs) =>
      let includedShas : gset string := list_to_set (List.map sha cs) in
      cs ++ omap (extra includedShas) (r :: rs)
  | _ => cs
  end.

End AugmentVariant.

(** ** A section renderer *)

(** Modelled from the spec: the Section Renderer is the external changelog
    writer, which is no part of the repository.  Section 4.4 of the
    specification: the entries are grouped under the heading of the section
    of their type, in the order of the section map; a hidden section gives
    no output; entries whose type has no section are dropped.  Without a
    configured section map the sections are those of [defaultTypes]. *)
Module Renderer.

Definition defaultTypes : list ChangelogSection :=
  [ mkSection "feat" "Features" false;
    mkSection "fix" "Bug Fixes" false;
    mkSection "perf" "Performance Improvements" false;
    mkSection "deps" "Dependencies" false;
    mkSection "revert" "Reverts" false;
    mkSection "docs" "Documentation" false;
    mkSection "style" "Styles" true;
    mkSection "chore" "Miscellaneous Chores" true;
    mkSection "refactor" "Code Refactoring" true;
    mkSection "test" "Tests" true;
    mkSection "build" "Build System" true;
    mkSection "ci" "Continuous Integration" true ].

Definition render_section (ctx : Context) (entries : list ChangelogCommit)
    (sec : ChangelogSection) : list string :=
  let mine :=
    List.filter (fun e => String.eqb (entry_type e) (section_type sec))
      entries in
  match mine with
  | [] => []
  | _ :: _ =>
      if hidden sec then []
      else ["### " +:+ section sec; ""]
           ++ List.map (others_bullet ctx) mine ++ [""]
  end.

Definition render : Writer := fun entries _ ctx config =>
  Str.join Str.nl
    (List.flat_map (render_section ctx entries)
       (default defaultTypes config)).

End Renderer.

(** ** Notions used in the statements *)

(** [s] starts with [(#N)], [N] a non-empty run of digits. *)
Definition starts_issue_ref (s : string) : Prop :=
  exists N rest,
    N <> "" /\ Str.all Char.is_digit N = true
    /\ s = "(#" +:+ N +:+ ")" +:+ rest.

(** [t'] is [t] with its leftmost [(#N)] turned into
    [([#N](host/owner/repo/issues/N))] and the rest of the text, later
    [(#N)] included, as it was; a text without any [(#N)] is unchanged. *)
Definition first_issue_linked (host owner repo t t' : string) : Prop :=
  (exists before N after,
      t = before +:+ "(#" +:+ N +:+ ")" +:+ after
      /\ N <> "" /\ Str.all Char.is_digit N = true
      /\ (forall i, i < String.length before ->
            ~ starts_issue_ref (Str.drop i t))
      /\ t' = before +:+ "([#" +:+ N +:+ "](" +:+ host +:+ "/" +:+ owner
              +:+ "/" +:+ repo +:+ "/issues/" +:+ N +:+ "))" +:+ after)
  \/ ((forall i, ~ starts_issue_ref (Str.drop i t)) /\ t' = t).

(** A text without [$], the character the replacement patterns start
    with. *)
Definition no_dollar (s : string) : Prop :=
  Str.any (Char.eqb "$"%char) s = false.

(** The Others block the fallback assembler appends. *)
Definition others_block (ctx : Context) (others : list ChangelogCommit)
  : string :=
  "### Others" +:+ Str.nl +:+ Str.nl
  +:+ Str.join Str.nl (List.map (others_bullet ctx) others).

Definition has_hash (s : string) (e : ChangelogCommit) : bool :=
  String.eqb (hash e) s.

Definition has_sha (s : string) (c : ConventionalCommit) : bool :=
  String.eqb (sha c) s.

(** A key prefix of the generic shape [[A-Z][A-Z0-9]+]. *)
Definition upper_prefix (p : string) : Prop :=
  exists u run,
    p = String u run /\ Char.is_upper u = true
    /\ run <> "" /\ Str.all Char.is_upper_digit run = true.

(** [k] is [p-ds] for a non-empty run of digits [ds]. *)
Definition key_of (p k : string) : Prop :=
  exists ds,
    k = p +:+ "-" +:+ ds /\ ds <> "" /\ Str.all Char.is_digit ds = true.

(** [s] starts with the key [k], bare or in brackets, followed by a colon
    and a white-space character. *)
Definition key_colon_space (k s : string) : Prop :=
  exists w rest,
    Char.is_space w = true
    /\ (s = k +:+ ":" +:+ String w rest
        \/ s = "[" +:+ k +:+ "]:" +:+ String w rest).

(** [s] starts with some key of the generic shape, followed by a colon and
    white space. *)
Definition generic_key_header (s : string) : Prop :=
  exists p k, upper_prefix p /\ key_of p k /\ key_colon_space k s.

(** The link the rewriter puts for a key. *)
Definition key_link (url key : string) : string :=
  "[" +:+ key +:+ "](" +:+ url +:+ key +:+ ")".

(** [key] is a key for the configured prefixes: [p-digits] for a prefix
    [p] of the list, or for any prefix of the generic shape when no list is
    configured. *)
Definition is_key (prefixes : option (list string)) (key : string) : Prop :=
  exists p,
    key_of p key
    /\ match prefixes with
       | Some ps => p ∈ ps
       | None => upper_prefix p
       end.

(** [Linkified prefixes url start s t]: [t] is [s] with some occurrences
    of keys replaced by their links.  A replaced key stands at the start of
    the text ([start]) or behind a character that is no upper-case letter
    and no digit, and that character is kept. *)
Inductive Linkified (prefixes : option (list string)) (url : string)
  : bool -> string -> string -> Prop :=
| Linkified_end start : Linkified prefixes url start "" ""
| Linkified_keep start c s t :
    Linkified prefixes url false s t ->
    Linkified prefixes url start (String c s) (String c t)
| Linkified_first key s t :
    is_key prefixes key ->
    Linkified prefixes url false s t ->
    Linkified prefixes url true (key +:+ s) (key_link url key +:+ t)
| Linkified_sep start c key s t :
    Char.is_upper_digit c = false ->
    is_key prefixes key ->
    Linkified prefixes url false s t ->
    Linkified prefixes url start
      (String c (key +:+ s)) (String c (key_link url key +:+ t)).

(** A text without line terminator. *)
Definition single_line (s : string) : Prop :=
  Str.any Char.is_line_terminator s = false.

(** A text without backtick. *)
Definition no_backtick (s : string) : Prop :=
  Str.any (fun c => Char.eqb c Char.backtick) s = false.

(** [s] holds a character that is no backtick and is followed by two
    backticks: the end of a two-backtick code span. *)
Fixpoint has_closer (s : string) : bool :=
  match s with
  | EmptyString => false
  | String c r =>
      (negb (Char.eqb c Char.backtick) && Str.starts_with "``" r)
      || has_closer r
  end.

(** The entity [htmlEscape] puts for [<] and for any other one-character
    match, which is [>]. *)
Definition entity (c : ascii) : string :=
  if Char.eqb c "<"%char then "&lt;" else "&gt;".

Definition is_angle (c : ascii) : bool :=
  Char.eqb c "<"%char || Char.eqb c ">"%char.

(** [t] is [s] with some of its [<] and [>] replaced by their entities. *)
Inductive Escaped : string -> string -> Prop :=
| Escaped_end : Escaped "" ""
| Escaped_keep c s t : Escaped s t -> Escaped (String c s) (String c t)
| Escaped_angle c s t :
    is_angle c = true -> Escaped s t ->
    Escaped (String c s) (entity c +:+ t).

(** The replacement from a position on, [st] telling whether the position
    is the start of the text. *)
Definition replace_from (m : matcher) (st : bool) (s : string) : string :=
  concat_map seg_out (scan m st 0 s).

(** A matcher returns a non-empty prefix of the text it is given. *)
Definition prefix_matcher (m : matcher) : Prop :=
  forall st s mt r, m st s = Some (mt, r) ->
    mt <> "" /\ exists rest, s = mt +:+ rest.

(** What [replaceIssueLink] does to one note, and to the notes of a list of
    references in turn. *)
Definition rewrite_note (host0 owner0 repo0 : string) (n : Note) : Note :=
  {| title := title n;
     text := rewrite_issue_ref host0 owner0 repo0 (text n) |}.

Definition rewrite_all (host0 owner0 repo0 : string) (ls : list loc)
    (σ : gmap loc Note) : gmap loc Note :=
  foldl (fun s l => replaceIssueLink l host0 owner0 repo0 s) σ ls.

(** Does the text start with a backtick? *)
Definition head_backtick (s : string) : bool :=
  match s with
  | String c _ => Char.eqb c Char.backtick
  | EmptyString => false
  end.

(** Does the text start with a letter? *)
Definition head_letter (s : string) : bool :=
  match s with String c _ => Char.is_letter c | EmptyString => false end.

(** ** Examples *)

Definition version_only_options : BuildNotesOptions :=
  {| host := None; owner := "o"; repository := "r"; version := "1.2.3";
     previousTag := None; currentTag := "v1.2.3";
     changelogSections := None;
     commits := Some [mkRaw "abcdef1234" "1.2.3"];
     trackerList := None; trackerUrl := None |}.

Definition breaking_note_store : gmap loc Note :=
  <[ 1 := mkNote "BREAKING CHANGE" "old API removed (#42), see (#43)" ]>
    (<[ 2 := mkNote "RELEASE AS" "2.0.0" ]> ∅).

Definition breaking_commit : ConventionalCommit :=
  mkCommit "abc1234def" "feat!: drop the old API" "drop the old API" "feat"
    None [1; 2] [] true.

Definition plain_context : Context :=
  mkContext "https://github.com" "o" "r" "2.0.0" None "v2.0.0" false.

Definition breaking_options : BuildNotesOptions :=
  {| host := None; owner := "o"; repository := "r"; version := "2.0.0";
     previousTag := None; currentTag := "v2.0.0";
     changelogSections := None; commits := None;
     trackerList := None; trackerUrl := None |}.

Definition tracker_commit : ConventionalCommit :=
  mkCommit "abc1234def" "ABC-1: fix parser" "fix parser" "ABC-1" None [] []
    false.

Definition others_section_options : BuildNotesOptions :=
  {| host := None; owner := "o"; repository := "r"; version := "1.0.0";
     previousTag := None; currentTag := "v1.0.0";
     changelogSections :=
       Some [mkSection "feat" "Features" false;
             mkSection "others" "Others" false];
     commits := Some [mkRaw "abc1234def" "ABC-1: fix parser"];
     trackerList := None; trackerUrl := None |}.

Definition feature_commit : ConventionalCommit :=
  mkCommit "1234567890" "feat: add widget" "add widget" "feat" None [] []
    false.

Definition unlisted_key_commit : ConventionalCommit :=
  mkCommit "fedcba9876" "XYZ-1: fix parser" "fix parser" "XYZ-1" None [] []
    false.

Definition no_space_commit : ConventionalCommit :=
  mkCommit "0123abcdef" "ABC-1:fix parser" "fix parser" "ABC-1" None [] []
    false.

(** ** The variant with a fixed Others section

    [buildNotes] of the variant that always adds an Others section to the
    section list and has no tracker options and no fallback. *)
Module SectionsVariant.

Definition defaultTypes : list ChangelogSection :=
  [ mkSection "feat" "Features" false;
    mkSection "fix" "Bug Fixes" false;
    mkSection "perf" "Performance Improvements" false;
    mkSection "deps" "Dependencies" false;
    mkSection "revert" "Reverts" false;
    mkSection "docs" "Documentation" false;
    mkSection "style" "Styles" true;
    mkSection "chore" "Miscellaneous Chores" true;
    mkSection "refactor" "Code Refactoring" true;
    mkSection "test" "Tests" true;
    mkSection "build" "Build System" true;
    mkSection "ci" "Continuous Integration" true ].

(** [t => t.type === 'others'] *)
Definition is_others_section (t : ChangelogSection) : bool :=
  String.eqb (section_type t) "others".

(** [const types = options.changelogSections
       ? [...options.changelogSections] : defaultTypes;
     if (!types.find(t => t.type === 'others'))
       types.push({type: 'others', section: 'Others'});] *)
Definition configTypes (defaults : list ChangelogSection)
    (sections : option (list ChangelogSection)) : list ChangelogSection :=
  let types := default defaults sections in
  if existsb is_others_section types then types
  else types ++ [mkSection "others" "Others" false].

(** The callback of [commits.map]. *)
Definition entryOf (ctx : Context) (commit : ConventionalCommit)
    (σ : gmap loc Note) : ChangelogCommit * gmap loc Note :=
  let '(kept, σ') := breaking_notes ctx (notes commit) σ in
  ({| body := "";
      subject := htmlEscape (bareMessage commit);
      entry_type := type commit;
      entry_scope := scope commit;
      entry_notes := kept;
      entry_references := references commit;
      mentions := [];
      merge := None;
      revert := None;
      header := message commit;
      footer := release_as_footer (notes commit) σ';
      hash := sha commit |},
   σ').

Fixpoint entriesOf (ctx : Context) (cs : list ConventionalCommit)
    (σ : gmap loc Note) : list ChangelogCommit * gmap loc Note :=
  match cs with
  | [] => ([], σ)
  | c :: cs' =>
      let '(e, σ1) := entryOf ctx c σ in
      let '(es, σ2) := entriesOf ctx cs' σ1 in
      (e :: es, σ2)
  end.

Definition buildNotes (writer : Writer) (cs : list ConventionalCommit)
    (options : BuildNotesOptions) (σ : gmap loc Note)
  : string * gmap loc Note :=
  let context := buildContext options in
  let types := configTypes defaultTypes (changelogSections options) in
  let '(changelogCommits, σ') := entriesOf context cs σ in
  (Str.trim (writer changelogCommits σ' context (Some types)), σ').

End SectionsVariant.

(** ** The variant with [augmentedCommits]: sections and types *)
Module AugmentBuild.

Definition defaultTypes : list ChangelogSection :=
  [ mkSection "feat" "Features" false;
    mkSection "fix" "Bug Fixes" false;
    mkSection "perf" "Performance Improvements" false;
    mkSection "revert" "Reverts" false;
    mkSection "chore" "Miscellaneous Chores" true;
    mkSection "docs" "Documentation" true;
    mkSection "style" "Styles" true;
    mkSection "refactor" "Code Refactoring" true;
    mkSection "test" "Tests" true;
    mkSection "build" "Build System" true;
    mkSection "ci" "Continuous Integration" true ].

(** [config.types], built by the same lines as in the variant above. *)
Definition configTypes (sections : option (list ChangelogSection))
  : list ChangelogSection :=
  SectionsVariant.configTypes defaultTypes sections.

(** [(config.types || []).map(t => t.type)] *)
Definition sectionTypes (sections : option (list ChangelogSection))
  : list string :=
  List.map section_type (configTypes sections).

(** [/^[A-Z][A-Z0-9]+-\d+$/.test(s)] *)
Definition jiraLike (s : string) : bool :=
  match key_generic s with
  | Some k => Str.is_empty (Str.drop (String.length k) s)
  | None => false
  end.

(** [sectionTypes.includes(commit.type) || !jiraLike.test(commit.type)
       ? commit.type : 'others'] *)
Definition normalizedType (types : list string) (ty : string) : string :=
  if existsb (String.eqb ty) types || negb (jiraLike ty) then ty
  else "others".

(** The callback of [augmentedCommits.map]. *)
Definition entryOf (ctx : Context) (types : list string)
    (commit : ConventionalCommit) (σ : gmap loc Note)
  : ChangelogCommit * gmap loc Note :=
  let normalized := normalizedType types (type commit) in
  let '(kept, σ') := breaking_notes ctx (notes commit) σ in
  ({| body := "";
      subject := htmlEscape (bareMessage commit);
      entry_type := normalized;
      entry_scope := scope commit;
      entry_notes := kept;
      entry_references := references commit;
      mentions := [];
      merge := None;
      revert := None;
      header := message commit;
      footer := release_as_footer (notes commit) σ';
      hash := sha commit |},
   σ').

Fixpoint entriesOf (ctx : Context) (types : list string)
    (cs : list ConventionalCommit) (σ : gmap loc Note)
  : list ChangelogCommit * gmap loc Note :=
  match cs with
  | [] => ([], σ)
  | c :: cs' =>
      let '(e, σ1) := entryOf ctx types c σ in
      let '(es, σ2) := entriesOf ctx types cs' σ1 in
      (e :: es, σ2)
  end.

(** The entries handed to the writer. *)
Definition changelogCommits (cs : list ConventionalCommit)
    (options : BuildNotesOptions) (σ : gmap loc Note)
  : list ChangelogCommit * gmap loc Note :=
  entriesOf (buildContext options)
    (sectionTypes (changelogSections options))
    (AugmentVariant.augmentedCommits cs (commits options)) σ.

Definition buildNotes (writer : Writer) (cs : list ConventionalCommit)
    (options : BuildNotesOptions) (σ : gmap loc Note)
  : string * gmap loc Note :=
  let '(entries, σ') := changelogCommits cs options σ in
  (Str.trim (writer entries σ' (buildContext options)
               (Some (configTypes (changelogSections options)))),
   σ').

End AugmentBuild.

(** ** The variant with [prefixClass]: subject and fallback *)
Module PrefixBuild.

(** [tracker.replace(/\/?$/, '/')]: the expression matches a final slash,
    or else the empty text at the end. *)
Fixpoint ensureSlash (tracker : string) : string :=
  match tracker with
  | EmptyString => "/"
  | String c r =>
      if Char.eqb c "/"%char && Str.is_empty r then "/"
      else String c (ensureSlash r)
  end.

(** [(?:\])?:\s(.* )$] behind the key: the text captured by the last
    group. *)
Definition extract_rest (s : string) : option string :=
  match s with
  | String a (String b r) =>
      if Char.eqb a ":"%char && Char.is_space b
         && negb (Str.any Char.is_line_terminator r)
      then Some r else None
  | _ => None
  end.

Definition extract_tail (after : string) : option string :=
  match eat "]"%char after with
  | Some t =>
      match extract_rest t with
      | Some r => Some r
      | None => extract_rest after
      end
  | None => extract_rest after
  end.

(** The first alternative of the class whose key is followed by a
    matching tail. *)
Fixpoint extract_first (keys : list string) (r : string)
  : option (string * string) :=
  match keys with
  | [] => None
  | k :: ks =>
      match extract_tail (Str.drop (String.length k) r) with
      | Some rest => Some (k, rest)
      | None => extract_first ks r
      end
  end.

(** [headerLine.match(new RegExp(
      `^(?:\\[)?(${prefixClass}-\\d+)(?:\\])?:\\s(.* )$`))]: the key [m[1]]
    and the rest [m[2]]. *)
Definition jiraKeyExtract (prefixes : option (list string)) (s : string)
  : option (string * string) :=
  match eat "["%char s with
  | Some r =>
      match extract_first (PrefixVariant.class_key prefixes r) r with
      | Some x => Some x
      | None => extract_first (PrefixVariant.class_key prefixes s) s
      end
  | None => extract_first (PrefixVariant.class_key prefixes s) s
  end.

(** The subject of an entry. *)
Definition subjectOf (prefixes : option (list string))
    (trackerUrl : option string) (commit : ConventionalCommit) : string :=
  let headerLine := message commit in
  if PrefixVariant.jiraHeader prefixes headerLine then
    match jiraKeyExtract prefixes headerLine with
    | Some (key, rest) =>
        if truthy trackerUrl then
          "[" +:+ key +:+ "](" +:+ ensureSlash (default "" trackerUrl)
          +:+ key +:+ "): " +:+ htmlEscape rest
        else htmlEscape headerLine
    | None => htmlEscape headerLine
    end
  else htmlEscape (bareMessage commit).

(** [/\n###\s|\n\*\s/.test(rendered)] *)
Definition hasSectionsOrBullets (rendered : string) : bool :=
  contains
    (fun t =>
       match Str.strip_prefix (Str.nl +:+ "###") t with
       | Some (String c _) => Char.is_space c
       | _ => false
       end
       || match Str.strip_prefix (Str.nl +:+ "*") t with
          | Some (String c _) => Char.is_space c
          | _ => false
          end)
    rendered.

(** What [buildNotes] returns for the trimmed output of the writer. *)
Definition fallback (ctx : Context) (rendered : string)
    (changelogCommits : list ChangelogCommit) : string :=
  if negb (Str.is_empty rendered) && hasSectionsOrBullets rendered
  then rendered
  else
    let others := List.filter is_others changelogCommits in
    match others with
    | [] => rendered
    | _ :: _ =>
        let lines :=
          if negb (Str.is_empty rendered)
             && negb (hasSectionsOrBullets rendered)
          then [rendered; ""] else [] in
        Str.join Str.nl
          (lines ++ ["### Others"; ""]
           ++ List.map (others_bullet ctx) others)
    end.

End PrefixBuild.

(** ** Further notions used in the statements *)

(** The text does not start with white space. *)
Definition no_lead (s : string) : Prop :=
  match s with
  | String c _ => Char.is_space c = false
  | EmptyString => True
  end.

(** The text does not end with white space. *)
Definition no_trail (s : string) : Prop := no_lead (Str.rev s).

(** Every [<] and [>] replaced by its entity. *)
Fixpoint escape_all (s : string) : string :=
  match s with
  | EmptyString => EmptyString
  | String c r =>
      if is_angle c then entity c +:+ escape_all r
      else String c (escape_all r)
  end.

(** What the entry of a parsed commit takes over from the commit. *)
Definition entry_of_commit (c : ConventionalCommit) (e : ChangelogCommit)
  : Prop :=
  hash e = sha c /\ header e = message c /\ entry_scope e = scope c
  /\ entry_references e = references c /\ body e = ""
  /\ (entry_type e = type c \/ entry_type e = "others").

(** What the entry of a recovered raw commit looks like. *)
Definition entry_of_raw (seenShas : gset string) (raws : list RawCommit)
    (e : ChangelogCommit) : Prop :=
  entry_type e = "others" /\ entry_notes e = [] /\ entry_references e = []
  /\ entry_scope e = None /\ footer e = "" /\ body e = ""
  /\ Str.any (fun c => Char.eqb c Char.newline) (header e) = false
  /\ exists raw,
       raw ∈ raws /\ hash e = raw_sha raw /\ (raw_sha raw ∉ seenShas)
       /\ header e = Str.first_field Char.newline (raw_message raw).

(** The first line of a raw commit passes the header tests of the raw
    pass. *)
Definition passes_raw_filter (msg : string) : Prop :=
  rawIssueHeader msg = true
  \/ (conventionalHeader msg = false /\ mergeHeader msg = false
      /\ skipRelease msg = false).

(** [ty] is shaped like a tracker key: a prefix of the generic shape, a
    dash and digits, and nothing else. *)
Definition tracker_key_shaped (ty : string) : Prop :=
  exists p, upper_prefix p /\ key_of p ty.

(** What a commit added by [augmentedCommits] looks like. *)
Definition extra_commit (cs : list ConventionalCommit) (raws : list RawCommit)
    (c : ConventionalCommit) : Prop :=
  type c = "others" /\ scope c = None /\ notes c = [] /\ references c = []
  /\ breaking c = false /\ bareMessage c = message c
  /\ message c <> "" /\ Str.trim (message c) = message c
  /\ AugmentVariant.hasLetters (message c) = true
  /\ AugmentVariant.isConventionalHeader (message c) = false
  /\ AugmentVariant.isJiraHeader (message c) = false
  /\ (sha c ∉ List.map sha cs)
  /\ exists raw,
       raw ∈ raws /\ sha c = raw_sha raw
       /\ message c =
            Str.trim (AugmentVariant.first_line (raw_message raw)).

(** [k] is a key of the prefix class: [p-digits] for a configured prefix
    [p], or for a prefix of the generic shape when none is configured. *)
Definition class_key_of (prefixes : option (list string)) (k : string)
  : Prop :=
  exists p,
    key_of p k
    /\ match prefixes with
       | Some (q :: ps) => p ∈ q :: ps
       | _ => upper_prefix p
       end.

(** ** Further examples *)

Definition shaless_options : BuildNotesOptions :=
  {| host := None; owner := "o"; repository := "r"; version := "1.0.0";
     previousTag := None; currentTag := "v1.0.0";
     changelogSections := None;
     commits := Some [mkRaw "" "update the docs"];
     trackerList := None; trackerUrl := None |}.


(** ** Notions for notes that are rewritten in place *)

(** A note whose text has gone through [replaceIssueLink] [k] times. *)
Definition rewrite_note_times (host0 owner0 repo0 : string) (k : nat)
    (n : Note) : Note :=
  {| title := title n;
     text := Nat.iter k (rewrite_issue_ref host0 owner0 repo0) (text n) |}.

(** How often a call hands the note object [l] to [replaceIssueLink]: once
    per occurrence of [l] among the notes of the parsed commits when the
    note is titled [BREAKING CHANGE], and never otherwise. *)
Definition rewritings (cs : list ConventionalCommit) (σ : gmap loc Note)
    (l : loc) : nat :=
  if has_title σ "BREAKING CHANGE" l
  then count_occ Nat.eq_dec (List.flat_map notes cs) l
  else 0.

(** The text [t] with its leftmost [(#N)] turned into
    [([#N](host/owner/repo/issues/N))] and nothing else changed. *)
Definition issue_linked (host0 owner0 repo0 t : string) : string :=
  match find_issue_ref t with
  | Some (before, N, after) =>
      before +:+ "([#" +:+ N +:+ "](" +:+ host0 +:+ "/" +:+ owner0 +:+ "/"
      +:+ repo0 +:+ "/issues/" +:+ N +:+ "))" +:+ after
  | None => t
  end.

(** A commit that lists one note object twice, and a host with a
    replacement pattern. *)
Definition shared_note_store : gmap loc Note :=
  <[ 1 := mkNote "BREAKING CHANGE" "both (#1) and (#2)" ]> ∅.

Definition shared_note_commit : ConventionalCommit :=
  mkCommit "abc1234def" "feat!: drop both" "drop both" "feat" None [1; 1] []
    true.

Definition pattern_host_context : Context :=
  mkContext "https://h$&" "o" "r" "2.0.0" None "v2.0.0" false.
(** * Properties *)

(** ** Strings *)

Section StringFacts.

Implicit Types (s t u : string) (c : ascii) (p : ascii -> bool).

Lemma sapp_cons c s t : String c s +:+ t = String c (s +:+ t).
Proof. reflexivity. Qed.

Lemma sapp_empty_l s : "" +:+ s = s.
Proof. reflexivity. Qed.

Lemma sapp_empty_r s : s +:+ "" = s.
Proof. induction s as [|c s IH]; [done|]. by rewrite sapp_cons, IH. Qed.

Lemma sapp_assoc s t u : (s +:+ t) +:+ u = s +:+ (t +:+ u).
Proof. induction s as [|c s IH]; [done|]. by rewrite !sapp_cons, IH. Qed.

Lemma slength_app s t :
  String.length (s +:+ t) = String.length s + String.length t.
Proof. induction s as [|c s IH]; [done|]. rewrite sapp_cons. simpl. lia. Qed.

Lemma char_eqb_eq a b : Char.eqb a b = true <-> a = b.
Proof. apply Ascii.eqb_eq. Qed.

Lemma char_eqb_sym a b : Char.eqb a b = Char.eqb b a.
Proof. apply Ascii.eqb_sym. Qed.

Lemma char_eqb_refl a : Char.eqb a a = true.
Proof. by apply char_eqb_eq. Qed.

Lemma char_eqb_neq a b : Char.eqb a b = false <-> a <> b.
Proof. apply Ascii.eqb_neq. Qed.

Lemma take_app_length s t : Str.take (String.length s) (s +:+ t) = s.
Proof. induction s as [|c s IH]; [by destruct t|]. simpl. by rewrite IH. Qed.

Lemma drop_app_length s t : Str.drop (String.length s) (s +:+ t) = t.
Proof. induction s as [|c s IH]; [by destruct t|]. done. Qed.

Lemma take_drop n s : Str.take n s +:+ Str.drop n s = s.
Proof.
  revert s; induction n as [|n IH]; intros [|c s]; try done.
  simpl. by rewrite sapp_cons, IH.
Qed.

Lemma length_take_le n s :
  n <= String.length s -> String.length (Str.take n s) = n.
Proof.
  revert s; induction n as [|n IH]; intros [|c s]; simpl; try lia.
  intros H. rewrite IH; lia.
Qed.

Lemma strip_prefix_app s t : Str.strip_prefix s (s +:+ t) = Some t.
Proof.
  induction s as [|c s IH]; [done|].
  rewrite sapp_cons. simpl. by rewrite char_eqb_refl.
Qed.

Lemma strip_prefix_Some s t u :
  Str.strip_prefix s t = Some u -> t = s +:+ u.
Proof.
  revert t; induction s as [|c s IH]; intros t.
  - simpl. intros [= ->]. by rewrite sapp_empty_l.
  - destruct t as [|d t]; simpl; [done|].
    destruct (Char.eqb c d) eqn:E; [|done].
    apply char_eqb_eq in E as ->. intros H. by rewrite sapp_cons, (IH _ H).
Qed.

Lemma starts_with_app s t : Str.starts_with s (s +:+ t) = true.
Proof. unfold Str.starts_with. by rewrite strip_prefix_app. Qed.

Lemma span_app p s t :
  Str.all p s = true ->
  match t with String c _ => p c = false | EmptyString => True end ->
  Str.span p (s +:+ t) = (s, t).
Proof.
  intros Hs Ht. induction s as [|c s IH].
  - rewrite sapp_empty_l. destruct t as [|c t]; [done|]. simpl. by rewrite Ht.
  - simpl in Hs. apply andb_true_iff in Hs as [Hc Hs].
    rewrite sapp_cons. simpl. by rewrite Hc, IH.
Qed.

Lemma span_spec p s :
  s = (Str.span p s).1 +:+ (Str.span p s).2
  /\ Str.all p (Str.span p s).1 = true
  /\ match (Str.span p s).2 with
     | String c _ => p c = false
     | EmptyString => True
     end.
Proof.
  induction s as [|c s (IH1 & IH2 & IH3)]; [done|].
  simpl. destruct (p c) eqn:Hc.
  - destruct (Str.span p s) as [a b]. simpl in *.
    rewrite sapp_cons, Hc. by rewrite <- IH1.
  - simpl. by rewrite Hc.
Qed.

Lemma all_app p s t :
  Str.all p (s +:+ t) = Str.all p s && Str.all p t.
Proof.
  induction s as [|c s IH]; [done|].
  rewrite sapp_cons. simpl. by rewrite IH, andb_assoc.
Qed.

Lemma any_app p s t :
  Str.any p (s +:+ t) = Str.any p s || Str.any p t.
Proof.
  induction s as [|c s IH]; [done|].
  rewrite sapp_cons. simpl. by rewrite IH, orb_assoc.
Qed.

Lemma string_length_ind (P : string -> Prop) :
  (forall s, (forall t, String.length t < String.length s -> P t) -> P s) ->
  forall s, P s.
Proof.
  intros H s. remember (String.length s) as n eqn:Hn.
  revert s Hn. induction n as [n IH] using lt_wf_ind.
  intros s ->. apply H. intros t Ht. by apply (IH _ Ht).
Qed.

End StringFacts.

(** Normal form of concatenations: literals consed, nested to the right. *)
Ltac snorm :=
  repeat (progress (rewrite ?sapp_assoc, ?sapp_cons, ?sapp_empty_l)).

Ltac snorm_in H :=
  repeat (progress (rewrite ?sapp_assoc, ?sapp_cons, ?sapp_empty_l in H)).

(** ** The replacement engine *)

Section ScanFacts.

Variable m : matcher.

Lemma scan_skip (k : nat) (s : string) (st : bool) :
  1 <= k -> scan m st k s = scan m false 0 (Str.drop k s).
Proof.
  revert s st; induction k as [|k IH]; intros s st Hk; [lia|].
  destruct s as [|c s]; [done|]. simpl.
  destruct k as [|k]; [by destruct s|].
  rewrite IH by lia. done.
Qed.

Lemma scan_match (st : bool) (mt r rest : string) :
  mt <> "" -> m st (mt +:+ rest) = Some (mt, r) ->
  scan m st 0 (mt +:+ rest) = Repl mt r :: scan m false 0 rest.
Proof.
  intros Hne Hm. destruct mt as [|c mt]; [done|].
  rewrite sapp_cons in *. simpl. rewrite Hm. f_equal.
  simpl. rewrite Nat.sub_0_r.
  destruct mt as [|d mt]; [by rewrite sapp_empty_l|].
  rewrite scan_skip by (simpl; lia).
  by rewrite drop_app_length.
Qed.

Lemma replace_from_match (st : bool) (mt r rest : string) :
  mt <> "" -> m st (mt +:+ rest) = Some (mt, r) ->
  replace_from m st (mt +:+ rest) = r +:+ replace_from m false rest.
Proof.
  intros Hne Hm. unfold replace_from. by rewrite (scan_match st mt r rest).
Qed.

Lemma replace_from_keep (st : bool) (c : ascii) (s : string) :
  m st (String c s) = None ->
  replace_from m st (String c s) = String c (replace_from m false s).
Proof. intros Hm. unfold replace_from. simpl. by rewrite Hm. Qed.

(** The segments of a scan decompose the text. *)
Lemma scan_decomposes (s : string) :
  prefix_matcher m ->
  forall st, concat_map seg_in (scan m st 0 s) = s.
Proof.
  intros Hp. induction s as [s IH] using string_length_ind. intros st.
  destruct s as [|c s]; [done|].
  destruct (m st (String c s)) as [[mt r]|] eqn:Hm.
  - destruct (Hp _ _ _ _ Hm) as [Hne [rest Hs]].
    rewrite Hs in Hm |- *. rewrite (scan_match st mt r rest) by done.
    simpl. rewrite IH; [done|].
    apply (f_equal String.length) in Hs. rewrite slength_app in Hs.
    destruct mt; [done|]. simpl in *. lia.
  - simpl. rewrite Hm. simpl. rewrite IH by (simpl; lia). done.
Qed.

End ScanFacts.

(** ** The build context *)

(** C10: the host of the built context is [options.host] when that is a
    non-empty string, and ["https://github.com"] otherwise, also for the
    empty string. *)
Theorem buildContext_host (options : BuildNotesOptions) :
  ctx_host (buildContext options) =
    match host options with
    | Some h => if String.eqb h "" then "https://github.com" else h
    | None => "https://github.com"
    end.
Proof.
  unfold buildContext, truthy. simpl.
  destruct (host options) as [[|c h]|]; reflexivity.
Qed.

(** [buildNotes] hands that context to the writer and uses it for the
    links of the Others block. *)
Lemma buildNotes_uses_context (writer : Writer) (cs : list ConventionalCommit)
    (options : BuildNotesOptions) (σ : gmap loc Note) :
  (buildNotes writer cs options σ).1 =
    let ctx := buildContext options in
    let entries := (classify options cs σ).1 in
    let σ' := (classify options cs σ).2 in
    appendOthers ctx
      (Str.trim (writer entries σ' ctx (changelogSections options))) entries.
Proof.
  unfold buildNotes. by destruct (classify options cs σ) as [entries σ'].
Qed.

(** ** The sanitizer on code spans *)

(** C6: a bare [<] or [>] between two double-backtick code spans of one
    line is left as it is, the first span runs up to the closing backticks
    of the last one; and a [<] that is the whole content of a
    double-backtick span is escaped. *)
Theorem htmlEscape_greedy_span :
  htmlEscape "``a`` <b> ``c``" = "``a`` <b> ``c``"
  /\ htmlEscape "``<``" = "``&lt;``".
Proof. split; vm_compute; reflexivity. Qed.

(** ** The raw-commit pass *)

Lemma eat_elim (c : ascii) (s r : string) :
  eat c s = Some r -> s = String c r.
Proof.
  destruct s as [|a s]; [done|]. simpl.
  destruct (Char.eqb a c) eqn:E; [|done].
  apply char_eqb_eq in E as ->. by intros [= ->].
Qed.

(** C5: a raw commit whose first line is ["1.2.3"] passes the raw-commit
    pass of [default.ts] and gets a bullet in the Others block, whatever the
    writer returns. *)
Theorem buildNotes_keeps_version_only_commit (writer : Writer) :
  List.map subject (classify version_only_options [] ∅).1 = ["1.2.3"]
  /\ exists before,
       (buildNotes writer [] version_only_options ∅).1 =
         before +:+ "### Others" +:+ Str.nl +:+ Str.nl
         +:+ "* 1.2.3 ([abcdef1](https://github.com/o/r/commit/abcdef1234))".
Proof.
  split; [by vm_compute|].
  rewrite buildNotes_uses_context.
  set (entries := (classify version_only_options [] ∅).1).
  set (σ' := (classify version_only_options [] ∅).2).
  cbv zeta.
  generalize (Str.trim (writer entries σ' (buildContext version_only_options)
                          (changelogSections version_only_options))).
  intros rendered. subst entries.
  destruct rendered as [|c rendered].
  - exists "". by vm_compute.
  - exists (String c rendered +:+ Str.nl +:+ Str.nl).
    change (classify version_only_options [] ∅).1 with
      [ {| body := ""; subject := "1.2.3"; entry_type := "others";
           entry_scope := None; entry_notes := []; entry_references := [];
           mentions := []; merge := None; revert := None; header := "1.2.3";
           footer := ""; hash := "abcdef1234" |} ].
    unfold appendOthers. simpl List.filter. cbv iota.
    change (Str.is_empty (String c rendered)) with false. cbv iota.
    change (others_bullet _ _) with
      "* 1.2.3 ([abcdef1](https://github.com/o/r/commit/abcdef1234))".
    simpl Str.join. by rewrite !sapp_assoc.
Qed.

(** In [default.ts] every unseen raw commit whose first line has no
    letter is recovered: none of the four header tests can match a text
    without letters. *)
Lemma strip_prefix_letter (p s r : string) :
  head_letter p = true -> Str.strip_prefix p s = Some r ->
  Str.any Char.is_letter s = true.
Proof.
  destruct p as [|a p]; [done|]. cbn [head_letter]. intros Ha Hs.
  apply strip_prefix_Some in Hs as ->. rewrite sapp_cons. cbn [Str.any].
  by rewrite Ha.
Qed.

Lemma no_letter_strip_prefix (p s : string) :
  head_letter p = true -> Str.any Char.is_letter s = false ->
  Str.strip_prefix p s = None.
Proof.
  intros Hp Hs. destruct (Str.strip_prefix p s) as [r|] eqn:Hr; [|done].
  apply (strip_prefix_letter p s r Hp) in Hr. congruence.
Qed.

Lemma no_letter_key_generic (s : string) :
  Str.any Char.is_letter s = false -> key_generic s = None.
Proof.
  destruct s as [|u r]; [done|]. cbn [Str.any key_generic].
  intros [Hu _]%orb_false_iff. unfold Char.is_letter in Hu.
  apply orb_false_iff in Hu as [Hu _]. by rewrite Hu.
Qed.

Lemma no_letter_rawIssueHeader (s : string) :
  Str.any Char.is_letter s = false -> rawIssueHeader s = false.
Proof.
  intros Hs. unfold rawIssueHeader.
  destruct (eat "[" s) as [r|] eqn:He.
  - apply eat_elim in He as ->. cbn [Str.any] in Hs.
    apply orb_false_iff in Hs as [_ Hr]. by rewrite no_letter_key_generic.
  - by rewrite no_letter_key_generic.
Qed.

Lemma no_letter_conventionalHeader (s : string) :
  Str.any Char.is_letter s = false -> conventionalHeader s = false.
Proof.
  intros Hs. unfold conventionalHeader, conventional_types. cbn [existsb].
  by rewrite !(no_letter_strip_prefix _ s) by done.
Qed.

Lemma no_letter_mergeHeader (s : string) :
  Str.any Char.is_letter s = false -> mergeHeader s = false.
Proof.
  intros Hs. unfold mergeHeader. by rewrite no_letter_strip_prefix.
Qed.

Lemma no_letter_lower (s : string) :
  Str.any Char.is_letter s = false -> Str.any Char.is_letter (lower s) = false.
Proof.
  induction s as [|c s IH]; [done|]. cbn [Str.any lower].
  intros [Hc Hs]%orb_false_iff. rewrite IH by done.
  unfold fold_case. unfold Char.is_letter in Hc.
  apply orb_false_iff in Hc as [Hu Hl]. rewrite Hu.
  unfold Char.is_letter. by rewrite Hu, Hl.
Qed.

Lemma no_letter_starts_with (p s : string) :
  head_letter p = true -> Str.any Char.is_letter s = false ->
  Str.starts_with p s = false.
Proof.
  intros Hp Hs. unfold Str.starts_with. by rewrite no_letter_strip_prefix.
Qed.

Lemma no_letter_contains (p : string -> bool) (s : string) :
  (forall t, Str.any Char.is_letter t = false -> p t = false) ->
  Str.any Char.is_letter s = false -> contains p s = false.
Proof.
  intros Hp. induction s as [|c s IH]; intros Hs; cbn [contains].
  - by rewrite Hp.
  - rewrite Hp by done. cbn [Str.any] in Hs.
    apply orb_false_iff in Hs as [_ Hs]. by rewrite IH.
Qed.

Lemma no_letter_skipRelease (s : string) :
  Str.any Char.is_letter s = false -> skipRelease s = false.
Proof.
  intros Hs%no_letter_lower. unfold skipRelease.
  rewrite no_letter_contains; [|
    by intros t Ht; rewrite !no_letter_starts_with|done].
  by rewrite no_letter_starts_with.
Qed.

Lemma recoverRaw_without_letters
    (prefixes : option (list string)) (url : option string)
    (seenShas : gset string) (raw : RawCommit) :
  raw_sha raw ∉ seenShas ->
  Str.any Char.is_letter (Str.first_field Char.newline (raw_message raw))
    = false ->
  exists e,
    recoverRaw prefixes url seenShas raw = Some e
    /\ entry_type e = "others"
    /\ header e = Str.first_field Char.newline (raw_message raw)
    /\ hash e = raw_sha raw.
Proof.
  intros Hsha Hs. unfold recoverRaw.
  destruct (decide (raw_sha raw ∈ seenShas)); [done|].
  rewrite no_letter_conventionalHeader, no_letter_mergeHeader,
    no_letter_skipRelease by done.
  rewrite andb_false_r. by eexists.
Qed.

(** The variant with [hasLetters] lets no such commit through. *)
Lemma extra_has_letters (includedShas : gset string) (raw : RawCommit)
    (c : ConventionalCommit) :
  AugmentVariant.extra includedShas raw = Some c ->
  AugmentVariant.hasLetters (message c) = true
  /\ message c = Str.trim (AugmentVariant.first_line (raw_message raw)).
Proof.
  unfold AugmentVariant.extra. intros H.
  repeat match type of H with
         | (if ?b then _ else _) = _ => destruct b eqn:?; [done|]
         end.
  destruct (AugmentVariant.hasLetters _) eqn:E; [|done].
  simpl in H. injection H as <-. by simpl.
Qed.

(** ** The notes of a commit and the store *)

Section StoreFacts.

Implicit Types (σ : gmap loc Note) (l : loc) (ls : list loc).

Variables host0 owner0 repo0 : string.

Lemma rewrite_all_notin ls σ l :
  l ∉ ls -> rewrite_all host0 owner0 repo0 ls σ !! l = σ !! l.
Proof.
  revert σ; induction ls as [|k ls IH]; intros σ Hl; [done|].
  apply not_elem_of_cons in Hl as [Hne Hl]. simpl.
  fold (rewrite_all host0 owner0 repo0 ls (replaceIssueLink k host0 owner0 repo0 σ)).
  rewrite IH by done. unfold replaceIssueLink. by rewrite lookup_alter_ne.
Qed.

Lemma rewrite_all_once ls σ l :
  NoDup ls -> l ∈ ls -> rewrite_all host0 owner0 repo0 ls σ !! l = rewrite_note host0 owner0 repo0 <$> σ !! l.
Proof.
  revert σ; induction ls as [|k ls IH]; intros σ Hnd Hl.
  - by apply elem_of_nil in Hl.
  - apply NoDup_cons in Hnd as [Hk Hnd]. simpl.
    fold (rewrite_all host0 owner0 repo0 ls (replaceIssueLink k host0 owner0 repo0 σ)).
    destruct (decide (l = k)) as [->|Hne].
    + rewrite rewrite_all_notin by done.
      unfold replaceIssueLink. by rewrite lookup_alter_eq.
    + apply elem_of_cons in Hl as [?|Hl]; [done|].
      rewrite IH by done. unfold replaceIssueLink.
      by rewrite lookup_alter_ne.
Qed.

Lemma rewrite_all_title ls σ l :
  title <$> rewrite_all host0 owner0 repo0 ls σ !! l = title <$> σ !! l.
Proof.
  revert σ; induction ls as [|k ls IH]; intros σ; [done|]. simpl.
  fold (rewrite_all host0 owner0 repo0 ls (replaceIssueLink k host0 owner0 repo0 σ)).
  rewrite IH. unfold replaceIssueLink.
  destruct (decide (k = l)) as [->|Hne].
  - rewrite lookup_alter_eq. by destruct (σ !! l).
  - by rewrite lookup_alter_ne.
Qed.

End StoreFacts.

Lemma has_title_elem σ t l :
  has_title σ t l = true <-> exists n, σ !! l = Some n /\ title n = t.
Proof.
  unfold has_title. destruct (σ !! l) as [n|]; split.
  - intros H%String.eqb_eq. eauto.
  - intros (n' & [= <-] & H). by apply String.eqb_eq.
  - done.
  - by intros (n' & ? & _).
Qed.

Lemma has_title_ext σ σ' t l :
  title <$> σ' !! l = title <$> σ !! l -> has_title σ' t l = has_title σ t l.
Proof.
  unfold has_title. destruct (σ' !! l), (σ !! l); simpl; congruence.
Qed.

Lemma breaking_notes_fst ctx ls σ :
  (breaking_notes ctx ls σ).1 = List.filter (has_title σ "BREAKING CHANGE") ls.
Proof. done. Qed.

Lemma breaking_notes_snd ctx ls σ :
  (breaking_notes ctx ls σ).2 =
    rewrite_all (ctx_host ctx) (ctx_owner ctx) (ctx_repository ctx)
      (List.filter (has_title σ "BREAKING CHANGE") ls) σ.
Proof. done. Qed.

Lemma classifyCommit_store ctx prefixes url commit st :
  store (classifyCommit ctx prefixes url commit st).2 =
    (breaking_notes ctx (notes commit) (store st)).2.
Proof. done. Qed.

Lemma classifyCommit_notes ctx prefixes url commit st :
  entry_notes (classifyCommit ctx prefixes url commit st).1 =
    (breaking_notes ctx (notes commit) (store st)).1.
Proof. done. Qed.

(** ** The first issue reference of a note text *)

Lemma issue_ref_at_intro (N rest : string) :
  N <> "" -> Str.all Char.is_digit N = true ->
  issue_ref_at ("(#" +:+ N +:+ ")" +:+ rest) = Some (N, rest).
Proof.
  intros Hne Hd. rewrite ?sapp_cons, ?sapp_empty_l.
  unfold issue_ref_at. simpl.
  rewrite (span_app Char.is_digit N (String ")" rest)) by done.
  by destruct N.
Qed.

Lemma issue_ref_at_elim (s N rest : string) :
  issue_ref_at s = Some (N, rest) ->
  N <> "" /\ Str.all Char.is_digit N = true
  /\ s = "(#" +:+ N +:+ ")" +:+ rest.
Proof.
  unfold issue_ref_at. destruct s as [|a [|b r]]; try done.
  destruct (Char.eqb a "(" && Char.eqb b "#") eqn:Hab; [|done].
  apply andb_true_iff in Hab as [->%char_eqb_eq ->%char_eqb_eq].
  destruct (span_spec Char.is_digit r) as (Hr & Hall & _).
  destruct (Str.span Char.is_digit r) as [ds r'] eqn:Hsp. simpl in *.
  destruct ds as [|d ds]; [done|]. simpl Str.is_empty. cbv iota.
  destruct r' as [|c r'']; [done|].
  destruct (Char.eqb c ")") eqn:Hc; [|done].
  apply char_eqb_eq in Hc as ->. intros [= <- <-].
  repeat split; [done|done|].
  rewrite ?sapp_cons, ?sapp_empty_l. by rewrite Hr.
Qed.

Lemma issue_ref_at_None (s : string) :
  issue_ref_at s = None -> ~ starts_issue_ref s.
Proof.
  intros Hn (N & rest & Hne & Hd & ->).
  by rewrite issue_ref_at_intro in Hn.
Qed.

Lemma find_issue_ref_Some (s before N after : string) :
  find_issue_ref s = Some (before, N, after) ->
  s = before +:+ "(#" +:+ N +:+ ")" +:+ after
  /\ N <> "" /\ Str.all Char.is_digit N = true
  /\ forall i, i < String.length before -> ~ starts_issue_ref (Str.drop i s).
Proof.
  revert before; induction s as [|c s IH]; intros before.
  - done.
  - cbn [find_issue_ref].
    destruct (issue_ref_at (String c s)) as [[n a]|] eqn:Hat.
    + intros [= <- <- <-].
      apply issue_ref_at_elim in Hat as (? & ? & ->).
      repeat split; try done. simpl. lia.
    + destruct (find_issue_ref s) as [[[b n] a]|]; [|done].
      intros [= <- <- <-].
      destruct (IH b eq_refl) as (Hs & ? & ? & Hno).
      repeat split; try done.
      * by rewrite sapp_cons, <- Hs.
      * intros [|i] Hi; simpl.
        -- by apply issue_ref_at_None.
        -- apply Hno. simpl in Hi. lia.
Qed.

Lemma find_issue_ref_None (s : string) :
  find_issue_ref s = None -> forall i, ~ starts_issue_ref (Str.drop i s).
Proof.
  induction s as [|c s IH]; cbn [find_issue_ref].
  - intros _ [|i]; simpl; by apply issue_ref_at_None.
  - destruct (issue_ref_at (String c s)) as [[n a]|] eqn:Hat; [done|].
    destruct (find_issue_ref s) as [[[b n] a]|]; [done|].
    intros _ [|i]; simpl.
    + by apply issue_ref_at_None.
    + by apply IH.
Qed.

(** The replacement patterns of the template. *)
Lemma substitute_plain (s t matched cap before after : string) :
  no_dollar s ->
  substitute (s +:+ t) matched cap before after =
    s +:+ substitute t matched cap before after.
Proof.
  unfold no_dollar. induction s as [|c s IH]; intros Hs; [done|].
  cbn [Str.any] in Hs. apply orb_false_iff in Hs as [Hc Hs].
  assert (Hc' : Char.eqb c "$" = false).
  { apply char_eqb_neq. apply char_eqb_neq in Hc. congruence. }
  rewrite !sapp_cons. cbn [substitute]. rewrite Hc'. simpl.
  by rewrite IH.
Qed.

Lemma substitute_capture (t matched cap before after : string) :
  substitute ("$1" +:+ t) matched cap before after =
    cap +:+ substitute t matched cap before after.
Proof. reflexivity. Qed.

Lemma substitute_issue_template (host owner repo matched cap before after : string) :
  no_dollar host -> no_dollar owner -> no_dollar repo ->
  substitute (issue_template host owner repo) matched cap before after =
    "([#" +:+ cap +:+ "](" +:+ host +:+ "/" +:+ owner +:+ "/" +:+ repo
    +:+ "/issues/" +:+ cap +:+ "))".
Proof.
  intros Hh Ho Hr. unfold issue_template.
  change "([#$1](" with ("([#" +:+ "$1" +:+ "](").
  change "/issues/$1))" with ("/issues/" +:+ "$1" +:+ "))").
  rewrite !sapp_assoc.
  rewrite (substitute_plain "([#") by done.
  rewrite substitute_capture.
  rewrite (substitute_plain "](") by done.
  rewrite (substitute_plain host) by done.
  rewrite (substitute_plain "/") by done.
  rewrite (substitute_plain owner) by done.
  rewrite (substitute_plain "/") by done.
  rewrite (substitute_plain repo) by done.
  rewrite (substitute_plain "/issues/") by done.
  rewrite substitute_capture.
  rewrite <- (sapp_empty_r "))") at 1.
  rewrite (substitute_plain "))") by done.
  by rewrite sapp_empty_r.
Qed.

Lemma rewrite_issue_ref_linked (host owner repo t : string) :
  no_dollar host -> no_dollar owner -> no_dollar repo ->
  first_issue_linked host owner repo t (rewrite_issue_ref host owner repo t).
Proof.
  intros Hh Ho Hr. unfold rewrite_issue_ref.
  destruct (find_issue_ref t) as [[[before N] after]|] eqn:Hf.
  - left. exists before, N, after.
    destruct (find_issue_ref_Some _ _ _ _ Hf) as (Ht & Hne & Hd & Hno).
    repeat split; try done.
    rewrite substitute_issue_template by done.
    by rewrite !sapp_assoc.
  - right. split; [|done]. by apply find_issue_ref_None.
Qed.

(** ** Breaking-change notes *)

(** C8, as the code has it: when host, owner and repository contain no
    [$] and no note object occurs twice among the notes of the commit, the
    notes of a classified entry are exactly the notes of the commit titled
    [BREAKING CHANGE], in their order, and the text of each one has its
    first [(#N)] rewritten to [([#N](host/owner/repo/issues/N))] while
    everything behind it, later [(#N)] included, is unchanged. *)
Theorem classifyCommit_breaking_change_notes
    (ctx : Context) (prefixes : option (list string)) (url : option string)
    (commit : ConventionalCommit) (st : State) :
  no_dollar (ctx_host ctx) -> no_dollar (ctx_owner ctx) ->
  no_dollar (ctx_repository ctx) ->
  NoDup (notes commit) ->
  let e := (classifyCommit ctx prefixes url commit st).1 in
  let st' := (classifyCommit ctx prefixes url commit st).2 in
  entry_notes e =
    List.filter (has_title (store st) "BREAKING CHANGE") (notes commit)
  /\ (forall l, l ∈ entry_notes e <->
        l ∈ notes commit
        /\ exists n, store st !! l = Some n /\ title n = "BREAKING CHANGE")
  /\ forall l n, l ∈ entry_notes e -> store st !! l = Some n ->
       exists n', store st' !! l = Some n'
         /\ title n' = "BREAKING CHANGE"
         /\ first_issue_linked (ctx_host ctx) (ctx_owner ctx)
              (ctx_repository ctx) (text n) (text n').
Proof.
  intros Hh Ho Hr Hnd e st'. subst e st'.
  rewrite classifyCommit_notes, classifyCommit_store.
  rewrite breaking_notes_fst, breaking_notes_snd.
  assert (Hmem : forall l,
    l ∈ List.filter (has_title (store st) "BREAKING CHANGE") (notes commit) <->
    l ∈ notes commit
    /\ exists n, store st !! l = Some n /\ title n = "BREAKING CHANGE").
  { intros l. rewrite list_elem_of_In, filter_In, <- list_elem_of_In.
    by rewrite has_title_elem. }
  split; [done|]. split; [done|].
  intros l n Hl Hn.
  rewrite rewrite_all_once; [| |done].
  - rewrite Hn. simpl. eexists. split; [done|]. simpl.
    apply Hmem in Hl as (_ & n0 & Hn0 & Ht). rewrite Hn in Hn0.
    injection Hn0 as <-. split; [done|].
    by apply rewrite_issue_ref_linked.
  - apply NoDup_ListNoDup, List.NoDup_filter. by apply NoDup_ListNoDup.
Qed.

Lemma classifyCommit_breaking_change_notes_witness :
  let ce := classifyCommit plain_context None None breaking_commit
              (mkState ∅ breaking_note_store) in
  entry_notes ce.1 = [1]
  /\ (text <$> store ce.2 !! 1) =
       Some "old API removed ([#42](https://github.com/o/r/issues/42)), see (#43)"
  /\ exists n', store ce.2 !! 1 = Some n'
       /\ title n' = "BREAKING CHANGE"
       /\ first_issue_linked "https://github.com" "o" "r"
            "old API removed (#42), see (#43)" (text n').
Proof.
  intros ce.
  assert (H1 : no_dollar (ctx_host plain_context)) by reflexivity.
  assert (H2 : no_dollar (ctx_owner plain_context)) by reflexivity.
  assert (H3 : no_dollar (ctx_repository plain_context)) by reflexivity.
  assert (H4 : NoDup (notes breaking_commit)).
  { apply NoDup_ListNoDup. repeat constructor; simpl; intuition lia. }
  destruct (classifyCommit_breaking_change_notes plain_context None None
              breaking_commit (mkState ∅ breaking_note_store) H1 H2 H3 H4)
    as (Hk & Hm & Ht).
  split; [reflexivity|]. split; [reflexivity|].
  apply (Ht 1 (mkNote "BREAKING CHANGE" "old API removed (#42), see (#43)")).
  - rewrite Hk. vm_compute. apply list_elem_of_here.
  - reflexivity.
Defined.

(** ** What [buildNotes] does to the store *)

Lemma classify_snd options cs σ :
  (classify options cs σ).2 =
    store (classifyCommits (buildContext options)
             (trackerPrefixes (trackerList options)) (trackerUrl options)
             cs {| seen := ∅; store := σ |}).2.
Proof.
  unfold classify. by destruct (classifyCommits _ _ _ _ _) as [es st].
Qed.

Lemma buildNotes_snd writer cs options σ :
  (buildNotes writer cs options σ).2 = (classify options cs σ).2.
Proof.
  unfold buildNotes. by destruct (classify options cs σ) as [es σ'].
Qed.

(** C9 fails: after the call the text of the input note is another one. *)
Lemma buildNotes_mutates_note_text :
  let σ' := (buildNotes Renderer.render [breaking_commit] breaking_options
               breaking_note_store).2 in
  breaking_note_store !! 1 =
    Some (mkNote "BREAKING CHANGE" "old API removed (#42), see (#43)")
  /\ σ' !! 1 =
       Some (mkNote "BREAKING CHANGE"
               "old API removed ([#42](https://github.com/o/r/issues/42)), see (#43)")
  /\ σ' <> breaking_note_store.
Proof.
  intros σ'. split; [reflexivity|]. split; [reflexivity|].
  intros H. apply (f_equal (fun s => text <$> s !! 1)) in H.
  vm_compute in H. discriminate H.
Qed.

(** ** One entry per sha, one appended bullet per Others entry *)

Lemma classifyCommits_seen ctx prefixes url cs st s :
  s ∈ seen (classifyCommits ctx prefixes url cs st).2 <->
  s ∈ seen st \/ (s <> "" /\ s ∈ List.map sha cs).
Proof.
  revert st; induction cs as [|c cs IH]; intros st.
  - simpl. split; [by left|]. intros [?|[_ H]]; [done|by apply elem_of_nil in H].
  - cbn [classifyCommits].
    destruct (classifyCommit ctx prefixes url c st) as [e st1] eqn:Hc.
    destruct (classifyCommits ctx prefixes url cs st1) as [es st2] eqn:Hcs.
    simpl. change st2 with (es, st2).2. rewrite <- Hcs, IH.
    assert (Hs1 : seen st1 =
              if Str.is_empty (sha c) then seen st else {[ sha c ]} ∪ seen st).
    { change st1 with (e, st1).2. by rewrite <- Hc. }
    rewrite Hs1. rewrite elem_of_cons.
    destruct (sha c) as [|a r] eqn:Hsha; simpl.
    + split; [tauto|]. intros [?|[Hne [->|?]]]; tauto.
    + rewrite elem_of_union, elem_of_singleton.
      split; [|intros [?|[Hne [->|?]]]; tauto].
      intros [[->|?]|?]; [|tauto|tauto]. right. split; [done|by left].
Qed.

Lemma classifyCommits_hashes ctx prefixes url cs st s :
  length (List.filter (has_hash s) (classifyCommits ctx prefixes url cs st).1)
  = length (List.filter (has_sha s) cs).
Proof.
  revert st; induction cs as [|c cs IH]; intros st; [done|].
  cbn [classifyCommits].
  destruct (classifyCommit ctx prefixes url c st) as [e st1] eqn:Hc.
  destruct (classifyCommits ctx prefixes url cs st1) as [es st2] eqn:Hcs.
  assert (He : hash e = sha c).
  { change e with (e, st1).1. by rewrite <- Hc. }
  cbn [fst List.filter]. unfold has_hash at 1, has_sha at 1. rewrite He.
  specialize (IH st1). rewrite Hcs in IH. cbn [fst] in IH.
  destruct (String.eqb (sha c) s); cbn [length]; by rewrite IH.
Qed.

Lemma recoverRaw_unseen prefixes url seenShas raw e :
  recoverRaw prefixes url seenShas raw = Some e ->
  hash e = raw_sha raw /\ (raw_sha raw ∉ seenShas) /\ entry_type e = "others".
Proof.
  unfold recoverRaw. destruct (decide (raw_sha raw ∈ seenShas)); [done|].
  destruct (andb _ _); [done|]. by intros [= <-].
Qed.

Lemma recoverRaws_unseen prefixes url seenShas raws s :
  s ∈ seenShas ->
  List.filter (has_hash s) (recoverRaws prefixes url seenShas raws) = [].
Proof.
  intros Hs. destruct raws as [rs|]; [|done]. simpl.
  induction rs as [|r rs IH]; [done|]. simpl.
  destruct (recoverRaw prefixes url seenShas r) as [e|] eqn:Hr; [|done].
  apply recoverRaw_unseen in Hr as (Hh & Hn & _). cbn [List.filter].
  unfold has_hash at 1. rewrite Hh.
  destruct (String.eqb_spec (raw_sha r) s) as [Heq|]; [|apply IH].
  by rewrite Heq in Hn.
Qed.

Lemma classify_fst options cs σ :
  (classify options cs σ).1 =
    let ctx := buildContext options in
    let prefixes := trackerPrefixes (trackerList options) in
    let r := classifyCommits ctx prefixes (trackerUrl options) cs
               {| seen := ∅; store := σ |} in
    r.1 ++ recoverRaws prefixes (trackerUrl options) (seen r.2) (commits options).
Proof.
  unfold classify. by destruct (classifyCommits _ _ _ _ _) as [es st].
Qed.

Lemma appendOthers_block ctx rendered entries :
  appendOthers ctx rendered entries =
    match List.filter is_others entries with
    | [] => rendered
    | o :: os =>
        (if Str.is_empty rendered then ""
         else rendered +:+ Str.nl +:+ Str.nl)
        +:+ others_block ctx (o :: os)
    end.
Proof.
  unfold appendOthers, others_block.
  destruct (List.filter is_others entries) as [|o os]; [done|].
  destruct rendered as [|c rendered]; simpl Str.is_empty; cbv iota.
  - by rewrite sapp_empty_l.
  - simpl. by rewrite !sapp_assoc.
Qed.

(** The document is what the writer returned, trimmed, followed by one
    Others block with one bullet for every entry of type [others], whether
    or not the writer has rendered that entry; and a non-empty sha of a
    parsed commit has as many entries as there are parsed commits with it,
    a raw commit with that sha adds none. *)
Theorem buildNotes_appends_every_others_entry
    (writer : Writer) (cs : list ConventionalCommit)
    (options : BuildNotesOptions) (σ : gmap loc Note) :
  let ctx := buildContext options in
  let entries := (classify options cs σ).1 in
  let rendered :=
    Str.trim (writer entries (classify options cs σ).2 ctx
                (changelogSections options)) in
  (buildNotes writer cs options σ).1 =
    match List.filter is_others entries with
    | [] => rendered
    | o :: os =>
        (if Str.is_empty rendered then ""
         else rendered +:+ Str.nl +:+ Str.nl)
        +:+ others_block ctx (o :: os)
    end
  /\ forall s, s <> "" -> s ∈ List.map sha cs ->
       length (List.filter (has_hash s) entries)
       = length (List.filter (has_sha s) cs).
Proof.
  intros ctx entries rendered. split.
  - rewrite buildNotes_uses_context. cbv zeta. apply appendOthers_block.
  - intros s Hne Hs. subst entries. rewrite classify_fst. cbv zeta.
    rewrite List.filter_app, List.length_app.
    rewrite recoverRaws_unseen.
    + rewrite classifyCommits_hashes. simpl. lia.
    + apply classifyCommits_seen. right. done.
Qed.

Lemma buildNotes_appends_every_others_entry_witness :
  length (List.filter (has_hash "abc1234def")
            (classify others_section_options [tracker_commit] ∅).1)
  = length (List.filter (has_sha "abc1234def") [tracker_commit]).
Proof.
  pose proof (buildNotes_appends_every_others_entry Renderer.render
                [tracker_commit] others_section_options ∅) as H.
  cbv zeta in H. destruct H as [_ H].
  apply H.
  - discriminate.
  - simpl. apply list_elem_of_here.
Defined.

(** ** Tracker-issue headers *)

Lemma key_generic_intro (p k rest : string) :
  upper_prefix p -> key_of p k ->
  match rest with String c _ => Char.is_digit c = false | EmptyString => True end ->
  key_generic (k +:+ rest) = Some k.
Proof.
  intros (u & run & -> & Hu & Hrun & Hall) (ds & -> & Hds & Hdig) Hrest.
  rewrite ?sapp_cons, ?sapp_assoc, ?sapp_cons, ?sapp_empty_l.
  unfold key_generic. rewrite Hu.
  rewrite (span_app Char.is_upper_digit run (String "-" (ds +:+ rest)))
    by done.
  destruct run as [|r0 run]; [done|]. cbn [Str.is_empty].
  change (Char.eqb "-" "-") with true. cbv iota.
  rewrite (span_app Char.is_digit ds rest) by done.
  destruct ds as [|d0 ds]; [done|]. cbn [Str.is_empty].
  by rewrite ?sapp_cons, ?sapp_empty_l.
Qed.

Lemma key_generic_elim (s k : string) :
  key_generic s = Some k ->
  exists p rest, upper_prefix p /\ key_of p k /\ s = k +:+ rest.
Proof.
  unfold key_generic. destruct s as [|u r]; [done|].
  destruct (Char.is_upper u) eqn:Hu; [|done].
  destruct (span_spec Char.is_upper_digit r) as (Hr & Hall & _).
  destruct (Str.span Char.is_upper_digit r) as [run r1]. simpl in Hr, Hall.
  destruct run as [|r0 run]; [done|]. cbn [Str.is_empty].
  destruct r1 as [|d r2]; [done|].
  destruct (Char.eqb d "-") eqn:Hd; [|done].
  apply char_eqb_eq in Hd as ->.
  destruct (span_spec Char.is_digit r2) as (Hr2 & Hdig & _).
  destruct (Str.span Char.is_digit r2) as [ds r3]. simpl in Hr2, Hdig.
  destruct ds as [|d0 ds]; [done|]. cbn [Str.is_empty].
  intros [= <-].
  exists (String u (String r0 run)), r3. repeat split.
  - by exists u, (String r0 run).
  - exists (String d0 ds). by rewrite ?sapp_cons, ?sapp_assoc.
  - rewrite Hr, Hr2. by rewrite ?sapp_cons, ?sapp_assoc, ?sapp_cons, ?sapp_empty_l.
Qed.

Lemma colon_space_elim (s : string) :
  colon_space s = true ->
  exists w rest, Char.is_space w = true /\ s = ":" +:+ String w rest.
Proof.
  destruct s as [|a [|b r]]; try done. simpl.
  intros [->%char_eqb_eq Hb]%andb_true_iff. by exists b, r.
Qed.

(** [jiraHeader] recognises exactly the headers that start with a key of
    the generic shape, bare or in brackets, followed by a colon and white
    space. *)
Lemma jiraHeader_spec (s : string) :
  jiraHeader s = true <-> generic_key_header s.
Proof.
  unfold jiraHeader. rewrite orb_true_iff. split.
  - intros [H|H].
    + unfold bracket_key_header in H.
      destruct (eat "[" s) as [r|] eqn:He; [|done].
      apply eat_elim in He as ->.
      destruct (key_generic r) as [k|] eqn:Hk; [|done].
      apply key_generic_elim in Hk as (p & rest & Hp & Hkey & ->).
      rewrite drop_app_length in H.
      destruct (eat "]" rest) as [r'|] eqn:He; [|done].
      apply eat_elim in He as ->.
      apply colon_space_elim in H as (w & rest' & Hw & ->).
      exists p, k. repeat split; try done. exists w, rest'.
      split; [done|]. right.
      by rewrite ?sapp_cons, ?sapp_assoc, ?sapp_cons, ?sapp_empty_l.
    + unfold bare_key_header in H.
      destruct (key_generic s) as [k|] eqn:Hk; [|done].
      apply key_generic_elim in Hk as (p & rest & Hp & Hkey & ->).
      rewrite drop_app_length in H.
      apply colon_space_elim in H as (w & rest' & Hw & ->).
      exists p, k. repeat split; try done. exists w, rest'.
      split; [done|]. by left.
  - intros (p & k & Hp & Hkey & w & rest & Hw & [->| ->]).
    + right. unfold bare_key_header.
      rewrite (key_generic_intro p) by done.
      rewrite drop_app_length. simpl. by rewrite Hw.
    + left. unfold bracket_key_header.
      rewrite ?sapp_cons, ?sapp_empty_l. simpl.
      change (String "]" (String ":" (String w rest))) with
        ("]" +:+ ":" +:+ String w rest).
      replace (k +:+ "]:" +:+ String w rest)
        with (k +:+ "]" +:+ ":" +:+ String w rest)
        by (by rewrite ?sapp_cons, ?sapp_empty_l).
      rewrite (key_generic_intro p) by done.
      rewrite drop_app_length. simpl. by rewrite Hw.
Qed.

(** C2, as the code has it: a commit whose header starts with a key built
    from a configured prefix of the shape [[A-Z][A-Z0-9]+], bare or in
    brackets, followed by a colon and a white-space character, gets the type
    [others] and the sanitized header line as subject; a commit whose header
    does not start with any key of that shape followed by a colon and white
    space keeps its type and gets the sanitized [bareMessage]. *)
Theorem classifyCommit_tracker_header
    (ctx : Context) (prefixList : list string) (url : option string)
    (commit : ConventionalCommit) (st : State) :
  let prefixes := trackerPrefixes (Some prefixList) in
  let e := (classifyCommit ctx prefixes url commit st).1 in
  ((exists p k, p ∈ prefixList /\ upper_prefix p /\ key_of p k
                /\ key_colon_space k (message commit)) ->
   entry_type e = "others"
   /\ subject e = rewriteSubject prefixes url (htmlEscape (message commit)))
  /\ (~ generic_key_header (message commit) ->
      entry_type e = type commit
      /\ subject e =
           rewriteSubject prefixes url (htmlEscape (bareMessage commit))).
Proof.
  intros prefixes e. subst e. unfold classifyCommit.
  destruct (breaking_notes ctx (notes commit) (store st)) as [kept σ'].
  cbn [fst entry_type subject]. split.
  - intros (p & k & _ & Hp & Hk & Hs).
    assert (H : jiraHeader (message commit) = true).
    { apply jiraHeader_spec. by exists p, k. }
    by rewrite H.
  - intros Hn. destruct (jiraHeader (message commit)) eqn:H; [|done].
    apply jiraHeader_spec in H. by destruct Hn.
Qed.

Lemma classifyCommit_tracker_header_witness :
  let prefixes := trackerPrefixes (Some ["ABC"]) in
  let st := mkState ∅ ∅ in
  (entry_type (classifyCommit plain_context prefixes None tracker_commit st).1
     = "others"
   /\ subject (classifyCommit plain_context prefixes None tracker_commit st).1
     = "ABC-1: fix parser")
  /\ (entry_type (classifyCommit plain_context prefixes None feature_commit st).1
        = "feat"
      /\ subject (classifyCommit plain_context prefixes None feature_commit st).1
        = "add widget").
Proof.
  intros prefixes st. split.
  - destruct (classifyCommit_tracker_header plain_context ["ABC"] None
                tracker_commit st) as [H _].
    apply H. exists "ABC", "ABC-1". split; [apply list_elem_of_here|].
    split; [by exists "A"%char, "BC"|].
    split; [by exists "1"|].
    exists " "%char, "fix parser". split; [reflexivity|]. by left.
  - destruct (classifyCommit_tracker_header plain_context ["ABC"] None
                feature_commit st) as [_ H].
    apply H. intros Hk%jiraHeader_spec. vm_compute in Hk. discriminate Hk.
Defined.

(** C2 fails: with the allow-list [["ABC"]] a header that starts with
    [ABC-1:] but has no white space behind the colon is not treated as a
    tracker-issue header, and a header with the unlisted key [XYZ-1] is. *)
Lemma tracker_header_not_by_allow_list :
  let prefixes := trackerPrefixes (Some ["ABC"]) in
  let st := mkState ∅ ∅ in
  let e1 := (classifyCommit plain_context prefixes None no_space_commit st).1 in
  let e2 :=
    (classifyCommit plain_context prefixes None unlisted_key_commit st).1 in
  (Str.starts_with "ABC-1:" (message no_space_commit) = true
   /\ entry_type e1 = "ABC-1" /\ subject e1 = "fix parser")
  /\ (entry_type e2 = "others" /\ subject e2 = "XYZ-1: fix parser").
Proof. repeat split; vm_compute; reflexivity. Qed.

(** The variant that builds the header pattern from the configured
    prefixes does not take the unlisted key for a tracker-issue header. *)
Lemma prefix_variant_rejects_unlisted_key :
  PrefixVariant.entryType (Some "ABC") unlisted_key_commit = "XYZ-1"
  /\ PrefixVariant.entryType (Some "ABC") tracker_commit = "others".
Proof. split; vm_compute; reflexivity. Qed.

(** ** The issue-link rewriter *)

Section LinkFacts.

Variables (prefixes : option (list string)) (url : string).

Local Abbreviation m := (link_matcher prefixes url).

Lemma key_with_prefix_elim (p s key : string) :
  key_with_prefix p s = Some key ->
  key_of p key /\ exists rest, s = key +:+ rest.
Proof.
  unfold key_with_prefix.
  destruct (Str.strip_prefix p s) as [[|d r2]|] eqn:Hp; try done.
  apply strip_prefix_Some in Hp as ->.
  destruct (Char.eqb d "-") eqn:Hd; [|done].
  apply char_eqb_eq in Hd as ->.
  destruct (span_spec Char.is_digit r2) as (Hr2 & Hdig & _).
  destruct (Str.span Char.is_digit r2) as [ds r3]. simpl in Hr2, Hdig.
  destruct ds as [|d0 ds]; [done|]. cbn [Str.is_empty].
  intros [= <-]. split.
  - by exists (String d0 ds).
  - exists r3. rewrite Hr2.
    by rewrite ?sapp_assoc, ?sapp_cons, ?sapp_empty_l.
Qed.


Lemma key_prefixed_elim (ps : list string) (s key : string) :
  key_prefixed ps s = Some key ->
  (exists p, p ∈ ps /\ key_of p key) /\ exists rest, s = key +:+ rest.
Proof.
  induction ps as [|q ps IH]; [done|]. cbn [key_prefixed].
  destruct (key_with_prefix q s) as [k|] eqn:Hq.
  - intros [= ->]. apply key_with_prefix_elim in Hq as [Hk Hs].
    split; [|done]. exists q. split; [by left|done].
  - intros H. destruct (IH H) as [(p & Hp & Hk) Hs].
    split; [|done]. exists p. split; [by right|done].
Qed.


Lemma key_at_elim (s key : string) :
  key_at prefixes s = Some key ->
  is_key prefixes key /\ exists rest, s = key +:+ rest.
Proof.
  unfold key_at, is_key. destruct prefixes as [ps|].
  - intros [(p & Hp & Hk) Hs]%key_prefixed_elim. split; [|done].
    by exists p.
  - intros (p & rest & Hp & Hk & ->)%key_generic_elim. split; [|by exists rest].
    by exists p.
Qed.


Lemma key_nonempty (key : string) : is_key prefixes key -> key <> "".
Proof.
  intros (p & (ds & -> & Hne & _) & _) H.
  apply (f_equal String.length) in H.
  rewrite !slength_app in H. simpl in H. lia.
Qed.

Lemma key_has_digit (key : string) :
  is_key prefixes key -> Str.any Char.is_digit key = true.
Proof.
  intros (p & (ds & -> & Hne & Hd) & _).
  rewrite !any_app. destruct ds as [|d ds]; [done|].
  cbn [Str.all] in Hd. apply andb_true_iff in Hd as [Hd _].
  cbn [Str.any]. rewrite Hd. by rewrite !orb_true_r.
Qed.

Lemma starts_with_self (s : string) : Str.starts_with s s = true.
Proof. rewrite <- (sapp_empty_r s) at 2. apply starts_with_app. Qed.

Lemma starts_with_shifted (key : string) (c : ascii) :
  Str.starts_with key (String c key) = true ->
  Str.all (Char.eqb c) key = true.
Proof.
  revert c; induction key as [|k key IH]; intros c; [done|].
  unfold Str.starts_with. cbn [Str.strip_prefix].
  destruct (Char.eqb k c) eqn:Hk; [|done].
  apply char_eqb_eq in Hk as ->. intros H.
  cbn [Str.all]. rewrite char_eqb_refl. by apply IH.
Qed.

Lemma all_eq_any (p : ascii -> bool) (c : ascii) (s : string) :
  Str.all (Char.eqb c) s = true -> Str.any p s = true -> p c = true.
Proof.
  induction s as [|a s IH]; [done|]. cbn [Str.all Str.any].
  intros [->%char_eqb_eq Hall]%andb_true_iff [Ha|Hs]%orb_true_iff;
    [done|by apply IH].
Qed.

(** The replacer keeps the separator and puts the link behind it. *)
Lemma link_replacer_start (key : string) :
  link_replacer url key key = key_link url key.
Proof.
  unfold link_replacer, key_link.
  assert (H : Str.index_of key key = Some 0).
  { destruct key; cbn [Str.index_of]; [done|]. by rewrite starts_with_self. }
  rewrite H. simpl. by destruct key.
Qed.

Lemma link_replacer_sep (c : ascii) (key : string) :
  Char.is_upper_digit c = false -> is_key prefixes key ->
  link_replacer url (String c key) key = String c (key_link url key).
Proof.
  intros Hc Hk. unfold link_replacer, key_link.
  assert (H : Str.index_of key (String c key) = Some 1).
  { cbn [Str.index_of].
    destruct (Str.starts_with key (String c key)) eqn:Hs.
    - apply starts_with_shifted in Hs.
      pose proof (all_eq_any Char.is_digit c key Hs (key_has_digit _ Hk)) as Hd.
      unfold Char.is_upper_digit in Hc. rewrite Hd in Hc.
      by rewrite orb_true_r in Hc.
    - assert (H0 : Str.index_of key key = Some 0).
      { destruct key; cbn [Str.index_of]; [done|].
        by rewrite starts_with_self. }
      by rewrite H0. }
  rewrite H. simpl. by destruct key.
Qed.

(** What a match of [issueKeyRegex] looks like. *)
Lemma issueKeyRegex_elim (st : bool) (s mt key : string) :
  issueKeyRegex prefixes st s = Some (mt, key) ->
  is_key prefixes key
  /\ ((st = true /\ mt = key /\ exists rest, s = key +:+ rest)
      \/ exists c rest, Char.is_upper_digit c = false
           /\ mt = String c key /\ s = String c (key +:+ rest)).
Proof.
  unfold issueKeyRegex.
  destruct (if st then key_at prefixes s else None) as [k|] eqn:Hst.
  - intros [= <- <-]. destruct st; [|done].
    apply key_at_elim in Hst as [Hk Hs]. split; [done|]. by left.
  - destruct s as [|c s']; [done|].
    destruct (Char.is_upper_digit c) eqn:Hc; [done|]. simpl.
    destruct (key_at prefixes s') as [k|] eqn:Hk; [|done].
    intros [= <- <-]. apply key_at_elim in Hk as [Hk [rest ->]].
    split; [done|]. right. by exists c, rest.
Qed.

Lemma link_matcher_elim (st : bool) (s mt r : string) :
  m st s = Some (mt, r) ->
  exists key, issueKeyRegex prefixes st s = Some (mt, key)
              /\ r = link_replacer url mt key.
Proof.
  unfold link_matcher.
  destruct (issueKeyRegex prefixes st s) as [[mt' key]|]; [|done].
  intros [= <- <-]. by exists key.
Qed.

End LinkFacts.

Section Linkify.

Variables (prefixes : option (list string)) (url : string).

Local Abbreviation m := (link_matcher prefixes url).

Lemma link_matcher_prefix : prefix_matcher m.
Proof.
  intros st s mt r (key & Hm & _)%link_matcher_elim.
  apply issueKeyRegex_elim in Hm
    as [Hk [(_ & -> & rest & ->)|(c & rest & _ & -> & ->)]].
  - split; [by apply (key_nonempty prefixes)|by exists rest].
  - split; [done|]. exists rest. by rewrite sapp_cons.
Qed.

Lemma replace_from_linkified (st : bool) (s : string) :
  Linkified prefixes url st s (replace_from m st s).
Proof.
  revert st. induction s as [s IH] using string_length_ind. intros st.
  destruct s as [|c s]; [constructor|].
  destruct (m st (String c s)) as [[mt r]|] eqn:Hm.
  - destruct (link_matcher_elim _ _ _ _ _ _ Hm) as (key & Hre & ->).
    destruct (issueKeyRegex_elim _ _ _ _ _ Hre)
      as [Hk [(-> & -> & rest & Hs)|(c' & rest & Hc & -> & Hs)]].
    + rewrite Hs in Hm |- *.
      rewrite replace_from_match with (r := link_replacer url key key);
        [|by apply (key_nonempty prefixes)|done].
      rewrite link_replacer_start. apply Linkified_first; [done|].
      apply IH. apply (f_equal String.length) in Hs.
      rewrite slength_app in Hs. pose proof (key_nonempty _ _ Hk).
      destruct key; [done|]. simpl in *. lia.
    + injection Hs as <- ->.
      change (String c (key +:+ rest)) with (String c key +:+ rest) in Hm |- *.
      rewrite replace_from_match
        with (r := link_replacer url (String c key) key); [|done|done].
      rewrite (link_replacer_sep prefixes) by done.
      rewrite sapp_cons. apply Linkified_sep; [done|done|].
      apply IH. simpl. rewrite slength_app. lia.
  - rewrite replace_from_keep by done. apply Linkified_keep.
    apply IH. simpl. lia.
Qed.

(** C3, as the code has it: the rewriter replaces a key only at the start
    of the text or directly behind a character that is no upper-case letter
    and no digit (a lower-case letter in front of a key does not prevent
    the replacement); that character is kept as it is and followed by
    [[KEY](trackerUrl + KEY)]. *)
Theorem linkify_linkified (subject : string) :
  Linkified prefixes url true subject (linkify prefixes url subject).
Proof. apply replace_from_linkified. Qed.








End Linkify.


(** C3 fails: a key directly behind a lower-case letter is replaced. *)
Lemma linkify_after_lowercase :
  linkify (Some ["ABC"]) "https://t/" "xABC-123: fix thing"
  = "x[ABC-123](https://t/ABC-123): fix thing"
  /\ linkify None "https://t/" "xABC-123: fix thing"
     = "x[ABC-123](https://t/ABC-123): fix thing".
Proof. split; vm_compute; reflexivity. Qed.


(** ** The sanitizer *)

Section Sanitizer.

Implicit Types (s t u r : string) (c : ascii) (n : nat).

Local Abbreviation E := (replace_from escape_matcher false).
Local Abbreviation bt := (fun c => Char.eqb c Char.backtick).

Lemma htmlEscape_unfold s : htmlEscape s = E s.
Proof.
  unfold htmlEscape, replace_all, replace_from. by destruct s.
Qed.

Lemma close_double_bound r n :
  close_double r = Some n -> n + 3 <= String.length r.
Proof.
  revert n; induction r as [|c r IH]; intros n; [done|]. cbn [close_double].
  destruct (if Char.is_line_terminator c then None else close_double r)
    as [k|] eqn:Hk.
  - intros [= <-]. destruct (Char.is_line_terminator c); [done|].
    specialize (IH k Hk). simpl. lia.
  - destruct (negb (bt c) && Str.starts_with "``" r) eqn:Hc; [|done].
    intros [= <-]. apply andb_true_iff in Hc as [_ Hc].
    destruct r as [|a [|b r]]; try (by vm_compute in Hc).
    + unfold Str.starts_with in Hc. cbn [Str.strip_prefix] in Hc.
      by destruct (Char.eqb _ a).
    + simpl. lia.
Qed.

Lemma match_double_bound s n :
  match_double s = Some n -> 2 <= n <= String.length s.
Proof.
  unfold match_double. destruct s as [|a [|b [|x r]]]; try done.
  destruct (_ && _); [|done].
  destruct (close_double r) as [k|] eqn:Hk; [|done].
  intros [= <-]. apply close_double_bound in Hk. simpl. lia.
Qed.

Lemma match_single_bound s n :
  match_single s = Some n -> 2 <= n <= String.length s.
Proof.
  unfold match_single. destruct s as [|a r]; [done|].
  destruct (bt a); [|done].
  destruct (span_spec (fun c => negb (bt c)) r) as (Hr & _ & _).
  destruct (Str.span _ r) as [body rest]. simpl in Hr.
  destruct rest as [|c rest]; [done|]. intros [= <-].
  rewrite Hr. simpl. rewrite slength_app. simpl. lia.
Qed.

(** The cases of one step of the sanitizer. *)
Lemma escape_matcher_span st s n :
  (match_double s = Some n
   \/ (match_double s = None /\ match_single s = Some n)) ->
  escape_matcher st s = Some (Str.take n s, Str.take n s).
Proof.
  intros H. unfold escape_matcher.
  assert (Hn : 2 <= n <= String.length s).
  { destruct H as [H|[_ H]];
      [by apply match_double_bound|by apply match_single_bound]. }
  assert (Hf : match match_double s with
               | Some k => Some k
               | None => match match_single s with
                         | Some k => Some k
                         | None =>
                             match s with
                             | String c _ =>
                                 if Char.eqb c "<" || Char.eqb c ">"
                                 then Some 1 else None
                             | "" => None
                             end
                         end
               end = Some n).
  { destruct H as [->|[-> ->]]; done. }
  rewrite Hf. rewrite length_take_le by lia.
  destruct (Nat.ltb_spec 1 n); [done|lia].
Qed.

Lemma E_span s n :
  (match_double s = Some n
   \/ (match_double s = None /\ match_single s = Some n)) ->
  E s = Str.take n s +:+ E (Str.drop n s).
Proof.
  intros H. pose proof (escape_matcher_span false s n H) as Hm.
  assert (Hn : 2 <= n <= String.length s).
  { destruct H as [H|[_ H]];
      [by apply match_double_bound|by apply match_single_bound]. }
  rewrite <- (take_drop n s) at 1.
  apply replace_from_match.
  - intros H0. apply (f_equal String.length) in H0.
    rewrite length_take_le in H0 by lia. simpl in H0. lia.
  - by rewrite take_drop.
Qed.

Lemma match_double_not_backtick c r :
  bt c = false -> match_double (String c r) = None.
Proof.
  intros Hc. unfold match_double. destruct r as [|b [|x r]]; try done.
  by rewrite Hc.
Qed.

Lemma match_single_not_backtick c r :
  bt c = false -> match_single (String c r) = None.
Proof. intros Hc. unfold match_single. by rewrite Hc. Qed.

Lemma is_angle_not_backtick c : is_angle c = true -> bt c = false.
Proof.
  unfold is_angle. intros [H|H]%orb_true_iff;
    apply char_eqb_eq in H as ->; reflexivity.
Qed.

Lemma E_angle c r :
  is_angle c = true -> E (String c r) = entity c +:+ E r.
Proof.
  intros Hc. pose proof (is_angle_not_backtick c Hc) as Hb.
  change (String c r) with (String c "" +:+ r).
  apply replace_from_match; [done|].
  rewrite sapp_cons, sapp_empty_l. unfold escape_matcher.
  rewrite match_double_not_backtick, match_single_not_backtick by done.
  fold (is_angle c). rewrite Hc. cbn [Str.take String.length].
  change (1 <? 1) with false. cbv iota. unfold entity.
  f_equal. f_equal.
  destruct (Char.eqb c "<") eqn:Hlt.
  - apply char_eqb_eq in Hlt as ->. reflexivity.
  - assert (H : String.eqb (String c "") "<" = false).
    { apply String.eqb_neq. intros [= ->]. by rewrite char_eqb_refl in Hlt. }
    by rewrite H.
Qed.

Lemma E_keep c r :
  match_double (String c r) = None -> match_single (String c r) = None ->
  is_angle c = false ->
  E (String c r) = String c (E r).
Proof.
  intros Hd Hs Hc. apply replace_from_keep.
  unfold escape_matcher. rewrite Hd, Hs. fold (is_angle c). by rewrite Hc.
Qed.

Lemma E_plain c r :
  bt c = false -> is_angle c = false -> E (String c r) = String c (E r).
Proof.
  intros Hb Hc. apply E_keep; [|
    |done]; [by apply match_double_not_backtick
            |by apply match_single_not_backtick].
Qed.

Lemma Escaped_app_keep a s t : Escaped s t -> Escaped (a +:+ s) (a +:+ t).
Proof.
  intros H. induction a as [|c a IH]; [done|].
  rewrite !sapp_cons. by constructor.
Qed.

Lemma E_escaped s : Escaped s (E s).
Proof.
  induction s as [s IH] using string_length_ind.
  destruct s as [|c r]; [constructor|].
  assert (Hspan : forall n,
    (match_double (String c r) = Some n
     \/ (match_double (String c r) = None
         /\ match_single (String c r) = Some n)) ->
    Escaped (String c r) (E (String c r))).
  { intros n H. rewrite (E_span _ n H).
    assert (Hn : 2 <= n <= String.length (String c r)).
    { destruct H as [H|[_ H]];
        [by apply match_double_bound|by apply match_single_bound]. }
    rewrite <- (take_drop n (String c r)) at 1.
    apply Escaped_app_keep, IH.
    pose proof (take_drop n (String c r)) as Htd.
    apply (f_equal String.length) in Htd.
    rewrite slength_app, length_take_le in Htd by lia. lia. }
  destruct (match_double (String c r)) as [n|] eqn:Hd; [by apply (Hspan n); left|].
  destruct (match_single (String c r)) as [n|] eqn:Hs;
    [by apply (Hspan n); right|].
  destruct (is_angle c) eqn:Hc.
  - rewrite E_angle by done. apply Escaped_angle; [done|].
    apply IH. simpl. lia.
  - rewrite E_keep by done. apply Escaped_keep, IH. simpl. lia.
Qed.

Lemma starts_with_two_backticks s :
  Str.starts_with "``" s =
    match s with
    | String a r => bt a && head_backtick r
    | EmptyString => false
    end.
Proof.
  unfold Str.starts_with. destruct s as [|a [|b r]]; cbn [Str.strip_prefix].
  - done.
  - rewrite (char_eqb_sym "`"%char a). cbn [head_backtick].
    rewrite andb_false_r. destruct (Char.eqb a "`"); reflexivity.
  - rewrite (char_eqb_sym "`"%char a), (char_eqb_sym "`"%char b).
    cbn [head_backtick]. change Char.backtick with "`"%char.
    destruct (Char.eqb a "`"), (Char.eqb b "`"); reflexivity.
Qed.

Lemma entity_head c t : exists t', entity c +:+ t = String "&" t'.
Proof. unfold entity. destruct (Char.eqb c "<"); by eexists. Qed.

Lemma Escaped_head s t : Escaped s t -> head_backtick t = head_backtick s.
Proof.
  intros [|c s' t' H|c s' t' Hc H]; try done.
  destruct (entity_head c t') as [t'' ->]. simpl.
  by rewrite (is_angle_not_backtick c Hc).
Qed.

Lemma Escaped_starts_two s t :
  Escaped s t -> Str.starts_with "``" t = Str.starts_with "``" s.
Proof.
  rewrite !starts_with_two_backticks.
  intros [|c s' t' H|c s' t' Hc H]; try done.
  - by rewrite (Escaped_head _ _ H).
  - rewrite (is_angle_not_backtick c Hc).
    by destruct (entity_head c t') as [t'' ->].
Qed.

Lemma has_closer_entity c t :
  has_closer (entity c +:+ t) = Str.starts_with "``" t || has_closer t.
Proof.
  unfold entity. destruct (Char.eqb c "<");
    rewrite ?sapp_cons, ?sapp_empty_l; cbn [has_closer];
    rewrite !starts_with_two_backticks; by simpl.
Qed.

Lemma Escaped_has_closer s t : Escaped s t -> has_closer t = has_closer s.
Proof.
  induction 1 as [|c s t H IH|c s t Hc H IH]; [done| |].
  - cbn [has_closer]. by rewrite IH, (Escaped_starts_two _ _ H).
  - rewrite has_closer_entity. cbn [has_closer].
    rewrite (is_angle_not_backtick c Hc), IH, (Escaped_starts_two _ _ H).
    done.
Qed.

Lemma no_backtick_entity c : no_backtick (entity c).
Proof. unfold entity. by destruct (Char.eqb c "<"). Qed.

Lemma Escaped_no_backtick s t : Escaped s t -> no_backtick s -> no_backtick t.
Proof.
  unfold no_backtick.
  induction 1 as [|c s t H IH|c s t Hc H IH]; [done| |]; cbn [Str.any].
  - intros [-> Hs]%orb_false_iff. by rewrite IH.
  - intros [_ Hs]%orb_false_iff. rewrite any_app, IH by done.
    by rewrite no_backtick_entity.
Qed.

(** Closing a two-backtick span. *)
Lemma close_double_has_closer r n :
  close_double r = Some n -> has_closer r = true.
Proof.
  revert n; induction r as [|c r IH]; intros n; [done|].
  cbn [close_double has_closer].
  destruct (if Char.is_line_terminator c then None else close_double r)
    as [k|] eqn:Hk.
  - destruct (Char.is_line_terminator c); [done|].
    rewrite (IH _ Hk). by rewrite orb_true_r.
  - destruct (negb (bt c) && Str.starts_with "``" r); [done|done].
Qed.

Lemma no_closer_close_double r : has_closer r = false -> close_double r = None.
Proof.
  intros H. destruct (close_double r) as [n|] eqn:Hn; [|done].
  apply close_double_has_closer in Hn. congruence.
Qed.

Lemma single_line_cons c s :
  single_line (String c s) <->
  Char.is_line_terminator c = false /\ single_line s.
Proof. unfold single_line. cbn [Str.any]. by rewrite orb_false_iff. Qed.

Lemma single_line_app s t :
  single_line (s +:+ t) <-> single_line s /\ single_line t.
Proof. unfold single_line. by rewrite any_app, orb_false_iff. Qed.

Lemma close_double_None_single_line r :
  single_line r -> close_double r = None -> has_closer r = false.
Proof.
  induction r as [|c r IH]; [done|].
  intros [Hc Hr]%single_line_cons. cbn [close_double has_closer].
  rewrite Hc. destruct (close_double r) as [k|]; [done|].
  rewrite IH by done.
  by destruct (negb (bt c) && Str.starts_with "``" r).
Qed.

Lemma close_double_elim r n :
  close_double r = Some n ->
  exists a y w,
    r = a +:+ String y ("``" +:+ w) /\ String.length a = n
    /\ bt y = false /\ single_line a
    /\ (single_line r -> has_closer w = false).
Proof.
  revert n; induction r as [|c r IH]; intros n; [done|]. cbn [close_double].
  destruct (Char.is_line_terminator c) eqn:Hlt.
  - destruct (negb (bt c) && Str.starts_with "``" r) eqn:Hc; [|done].
    intros [= <-]. apply andb_true_iff in Hc as [Hc Hr].
    apply negb_true_iff in Hc.
    unfold Str.starts_with in Hr.
    destruct (Str.strip_prefix "``" r) as [w|] eqn:Hw; [|done].
    apply strip_prefix_Some in Hw as ->.
    exists "", c, w. repeat split; try done.
    intros [? ?]%single_line_cons. congruence.
  - destruct (close_double r) as [k|] eqn:Hk.
    + intros [= <-]. destruct (IH k eq_refl) as (a & y & w & -> & Ha & Hy & Hsl & Hw).
      exists (String c a), y, w. repeat split; try done.
      * simpl. by rewrite Ha.
      * by apply single_line_cons.
      * intros [_ ?]%single_line_cons. by apply Hw.
    + destruct (negb (bt c) && Str.starts_with "``" r) eqn:Hc; [|done].
      intros [= <-]. apply andb_true_iff in Hc as [Hc Hr].
      apply negb_true_iff in Hc.
      unfold Str.starts_with in Hr.
      destruct (Str.strip_prefix "``" r) as [w|] eqn:Hw; [|done].
      apply strip_prefix_Some in Hw as ->.
      exists "", c, w. repeat split; try done.
      intros [_ Hsl]%single_line_cons.
      apply close_double_None_single_line in Hk; [|done].
      rewrite ?sapp_cons, ?sapp_empty_l in Hk. cbn [has_closer] in Hk.
      apply orb_false_iff in Hk as [_ Hk].
      by apply orb_false_iff in Hk as [_ Hk].
Qed.

Lemma close_double_intro a y v :
  single_line a -> bt y = false -> has_closer v = false ->
  close_double (a +:+ String y ("``" +:+ v)) = Some (String.length a).
Proof.
  intros Ha Hy Hv. induction a as [|c a IH].
  - rewrite sapp_empty_l. cbn [close_double].
    assert (Hn : close_double ("``" +:+ v) = None).
    { apply no_closer_close_double.
      rewrite ?sapp_cons, ?sapp_empty_l. cbn [has_closer].
      rewrite Hv. by rewrite !andb_false_l. }
    rewrite Hn, Hy, starts_with_app.
    by destruct (Char.is_line_terminator y).
  - apply single_line_cons in Ha as [Hc Ha].
    rewrite sapp_cons. cbn [close_double]. by rewrite Hc, IH.
Qed.

Lemma bt_eq c : bt c = true -> c = "`"%char.
Proof. by intros ->%char_eqb_eq. Qed.

Lemma match_double_elim s n :
  match_double s = Some n ->
  exists x a y w,
    s = "``" +:+ String x (a +:+ String y ("``" +:+ w))
    /\ n = String.length a + 6
    /\ bt x = false /\ bt y = false /\ single_line a
    /\ (single_line s -> has_closer w = false).
Proof.
  unfold match_double. destruct s as [|c1 [|c2 [|x r]]]; try done.
  destruct (bt c1) eqn:H1; [|done]. destruct (bt c2) eqn:H2; [|done].
  destruct (bt x) eqn:Hx; [done|]. simpl.
  apply bt_eq in H1 as ->. apply bt_eq in H2 as ->.
  destruct (close_double r) as [k|] eqn:Hk; [|done]. intros [= <-].
  destruct (close_double_elim r k Hk) as (a & y & w & -> & Ha & Hy & Hsl & Hw).
  exists x, a, y, w. repeat split; try done.
  - by rewrite Ha.
  - intros Hs. apply Hw.
    apply single_line_cons in Hs as [_ Hs].
    apply single_line_cons in Hs as [_ Hs].
    by apply single_line_cons in Hs as [_ Hs].
Qed.

Lemma match_double_intro x a y v :
  bt x = false -> single_line a -> bt y = false -> has_closer v = false ->
  match_double ("``" +:+ String x (a +:+ String y ("``" +:+ v)))
  = Some (String.length a + 6).
Proof.
  intros Hx Ha Hy Hv. rewrite (sapp_cons "`"), (sapp_cons "`" ""), sapp_empty_l.
  unfold match_double. change (Char.eqb "`" Char.backtick) with true.
  rewrite Hx. cbn [andb negb]. by rewrite close_double_intro.
Qed.

Lemma E_double_span x a y v :
  bt x = false -> single_line a -> bt y = false -> has_closer v = false ->
  E ("``" +:+ String x (a +:+ String y ("``" +:+ v)))
  = "``" +:+ String x (a +:+ String y ("``" +:+ E v)).
Proof.
  intros Hx Ha Hy Hv.
  rewrite (E_span _ (String.length a + 6))
    by (left; by apply match_double_intro).
  set (D := "``" +:+ String x (a +:+ String y "``")).
  assert (HD : forall z,
    "``" +:+ String x (a +:+ String y ("``" +:+ z)) = D +:+ z).
  { intros z. unfold D. by snorm. }
  assert (HL : String.length a + 6 = String.length D).
  { unfold D. snorm. simpl. rewrite slength_app. simpl. lia. }
  rewrite !HD, HL. by rewrite take_app_length, drop_app_length.
Qed.

Lemma match_single_elim s n :
  match_single s = Some n ->
  exists body w,
    s = String "`" (body +:+ String "`" w)
    /\ no_backtick body /\ n = String.length body + 2.
Proof.
  unfold match_single. destruct s as [|c r]; [done|].
  destruct (bt c) eqn:Hc; [|done]. apply bt_eq in Hc as ->.
  destruct (span_spec (fun c => negb (bt c)) r) as (Hr & Hall & Hrest).
  destruct (Str.span _ r) as [body rest]. simpl in Hr, Hall, Hrest.
  destruct rest as [|c w]; [done|]. intros [= <-].
  apply negb_false_iff, bt_eq in Hrest as ->.
  exists body, w. split; [by rewrite Hr|]. split; [|done].
  unfold no_backtick. clear Hr.
  induction body as [|b body IH]; [done|]. cbn [Str.all Str.any] in *.
  apply andb_true_iff in Hall as [Hb Hall]. apply negb_true_iff in Hb.
  by rewrite Hb, IH.
Qed.

Lemma no_backtick_all s :
  no_backtick s -> Str.all (fun c => negb (bt c)) s = true.
Proof.
  unfold no_backtick. induction s as [|c s IH]; [done|]. cbn [Str.all Str.any].
  intros [Hc Hs]%orb_false_iff. by rewrite Hc, IH.
Qed.

Lemma match_single_intro body w :
  no_backtick body ->
  match_single (String "`" (body +:+ String "`" w))
  = Some (String.length body + 2).
Proof.
  intros Hb. unfold match_single.
  change (Char.eqb "`" Char.backtick) with true. cbv iota.
  by rewrite (span_app _ body (String "`" w))
    by (by apply no_backtick_all || done).
Qed.

Lemma match_single_no_backtick c s :
  no_backtick s -> match_single (String c s) = None.
Proof.
  intros Hs. unfold match_single. destruct (bt c); [|done].
  rewrite <- (sapp_empty_r s).
  by rewrite (span_app _ s "") by (by apply no_backtick_all || done).
Qed.

Lemma match_single_None c r :
  bt c = true -> match_single (String c r) = None -> no_backtick r.
Proof.
  unfold match_single. intros ->.
  destruct (span_spec (fun c => negb (bt c)) r) as (Hr & Hall & _).
  destruct (Str.span _ r) as [body rest]. simpl in Hr, Hall.
  destruct rest as [|c' w]; [|done]. intros _. rewrite Hr, sapp_empty_r.
  unfold no_backtick. clear Hr.
  induction body as [|b body IH]; [done|]. cbn [Str.all Str.any] in *.
  apply andb_true_iff in Hall as [Hb Hall]. apply negb_true_iff in Hb.
  by rewrite Hb, IH.
Qed.

Lemma match_double_second c b r :
  bt b = false -> match_double (String c (String b r)) = None.
Proof.
  intros Hb. unfold match_double. destruct r; [done|].
  by rewrite Hb, andb_false_r.
Qed.

Lemma match_double_third c1 c2 x r :
  bt x = true -> match_double (String c1 (String c2 (String x r))) = None.
Proof. intros Hx. unfold match_double. by rewrite Hx, andb_false_r. Qed.

Lemma match_double_no_closer c1 c2 x r :
  has_closer r = false ->
  match_double (String c1 (String c2 (String x r))) = None.
Proof.
  intros Hr. unfold match_double. rewrite (no_closer_close_double r Hr).
  by destruct (_ && _).
Qed.

Lemma E_single_span body v :
  no_backtick body ->
  match_double (String "`" (body +:+ String "`" v)) = None ->
  E (String "`" (body +:+ String "`" v))
  = String "`" (body +:+ String "`" (E v)).
Proof.
  intros Hb Hd.
  rewrite (E_span _ (String.length body + 2))
    by (right; split; [done|by apply match_single_intro]).
  set (D := String "`" (body +:+ "`")).
  assert (HD : forall z, String "`" (body +:+ String "`" z) = D +:+ z).
  { intros z. unfold D. by snorm. }
  assert (HL : String.length body + 2 = String.length D).
  { unfold D. simpl. rewrite slength_app. simpl. lia. }
  rewrite !HD, HL. by rewrite take_app_length, drop_app_length.
Qed.

Lemma E_entity c s : E (entity c +:+ s) = entity c +:+ E s.
Proof.
  unfold entity. destruct (Char.eqb c "<");
    rewrite ?sapp_cons, ?sapp_empty_l; by rewrite !E_plain.
Qed.

Lemma has_closer_tail c s : has_closer (String c s) = false -> has_closer s = false.
Proof. cbn [has_closer]. by intros [_ ?]%orb_false_iff. Qed.

Lemma E_head s : head_backtick (E s) = head_backtick s.
Proof. apply Escaped_head, E_escaped. Qed.

Lemma E_has_closer s : has_closer (E s) = has_closer s.
Proof. apply Escaped_has_closer, E_escaped. Qed.

(** An empty two-backtick pair in front of a text whose sanitized form
    gives no two-backtick span. *)
Lemma E_empty_pair s :
  match_double ("``" +:+ s) = None -> E ("``" +:+ s) = "``" +:+ E s.
Proof.
  intros Hd. snorm. snorm_in Hd.
  change (String "`" (String "`" s)) with (String "`" ("" +:+ String "`" s))
    in Hd |- *.
  by rewrite E_single_span.
Qed.

(** On a text of one line the sanitizer changes nothing in its own
    output. *)
Lemma E_idempotent s : single_line s -> E (E s) = E s.
Proof.
  induction s as [s IH] using string_length_ind. intros Hsl.
  destruct s as [|c r]; [done|].
  destruct (match_double (String c r)) as [n|] eqn:Hd.
  { (* a two-backtick span *)
    destruct (match_double_elim _ _ Hd)
      as (x & a & y & w & Hs & _ & Hx & Hy & Ha & Hw).
    specialize (Hw Hsl). rewrite Hs in Hsl |- *.
    rewrite E_double_span by done.
    rewrite E_double_span by (by rewrite ?E_has_closer).
    rewrite IH; [done| |].
    - rewrite Hs. snorm. simpl. rewrite slength_app. simpl. lia.
    - snorm_in Hsl. repeat (apply single_line_cons in Hsl as [_ Hsl]).
      apply single_line_app in Hsl as [_ Hsl].
      by repeat (apply single_line_cons in Hsl as [_ Hsl]). }
  destruct (match_single (String c r)) as [n|] eqn:Hs.
  { (* a one-backtick span *)
    destruct (match_single_elim _ _ Hs) as (body & w & Heq & Hb & _).
    rewrite Heq in Hd, Hsl |- *. injection Heq as -> ->.
    assert (Hw : single_line w).
    { apply single_line_cons in Hsl as [_ Hsl].
      apply single_line_app in Hsl as [_ Hsl].
      by apply single_line_cons in Hsl as [_ Hsl]. }
    assert (IHw : E (E w) = E w).
    { apply IH; [|done]. simpl. rewrite slength_app. simpl. lia. }
    rewrite E_single_span by done.
    destruct body as [|b body].
    - (* the empty pair *)
      rewrite sapp_empty_l in *.
      change (String "`" (String "`" (E w))) with ("``" +:+ E w).
      destruct w as [|x w'].
      { reflexivity. }
      destruct (bt x) eqn:Hx.
      { (* another backtick follows *)
        pose proof (E_head (String x w')) as Hh. cbn [head_backtick] in Hh.
        rewrite Hx in Hh.
        destruct (E (String x w')) as [|x2 w2] eqn:HE; [done|].
        simpl in Hh.
        rewrite E_empty_pair by (snorm; by apply match_double_third).
        by rewrite IHw. }
      assert (Hc : has_closer w' = false).
      { apply close_double_None_single_line.
        - by apply single_line_cons in Hw as [_ Hw].
        - unfold match_double in Hd. rewrite Hx in Hd. simpl in Hd.
          by destruct (close_double w'). }
      destruct (is_angle x) eqn:Hang.
      + (* [<] or [>] behind the pair *)
        rewrite E_angle in IHw |- * by done.
        destruct (Str.starts_with "``" w') eqn:Hst.
        * (* which a second pair follows *)
          unfold Str.starts_with in Hst.
          destruct (Str.strip_prefix "``" w') as [v|] eqn:Hv; [|done].
          apply strip_prefix_Some in Hv as ->.
          assert (Hcv : has_closer v = false).
          { snorm_in Hc. by do 2 apply has_closer_tail in Hc. }
          assert (Hv : single_line v).
          { apply single_line_cons in Hw as [_ Hw].
            by apply single_line_app in Hw as [_ Hw]. }
          assert (IHv : E (E v) = E v).
          { apply IH; [|done]. simpl. rewrite slength_app. simpl. lia. }
          assert (Hdv : match_double ("``" +:+ v) = None).
          { snorm. destruct v as [|v0 v']; [done|].
            apply match_double_no_closer. by apply has_closer_tail in Hcv. }
          rewrite (E_empty_pair v) by done.
          assert (Hent : exists a y,
            entity x = String "&" (a +:+ String y "")
            /\ single_line a /\ bt y = false).
          { unfold entity. destruct (Char.eqb x "<");
              [by exists "lt", ";"%char|by exists "gt", ";"%char]. }
          destruct Hent as (a & y & -> & Hla & Hy).
          assert (Hform : forall z,
            "``" +:+ String "&" (a +:+ String y "") +:+ "``" +:+ z
            = "``" +:+ String "&" (a +:+ String y ("``" +:+ z))).
          { intros z. by snorm. }
          rewrite !Hform.
          rewrite E_double_span by (by rewrite ?E_has_closer).
          by rewrite IHv.
        * (* and no second pair *)
          rewrite E_empty_pair.
          -- by rewrite IHw.
          -- destruct (entity_head x (E w')) as [t' Ht']. rewrite Ht'.
             snorm. apply match_double_no_closer.
             assert (H : has_closer (entity x +:+ E w') = false).
             { rewrite has_closer_entity, E_has_closer, Hc.
               rewrite (Escaped_starts_two _ _ (E_escaped w')), Hst. done. }
             rewrite Ht' in H. by apply has_closer_tail in H.
      + (* any other character behind the pair *)
        rewrite E_plain in IHw |- * by done.
        rewrite E_empty_pair.
        * by rewrite IHw.
        * snorm. apply match_double_no_closer. by rewrite E_has_closer.
    - (* a span with content *)
      assert (Hb0 : bt b = false).
      { unfold no_backtick in Hb. cbn [Str.any] in Hb.
        by apply orb_false_iff in Hb as [Hb _]. }
      rewrite E_single_span; [by rewrite IHw|done|].
      rewrite sapp_cons. by apply match_double_second. }
  assert (Hr : single_line r) by (by apply single_line_cons in Hsl as [_ ?]).
  assert (IHr : E (E r) = E r) by (apply IH; [simpl; lia|done]).
  destruct (is_angle c) eqn:Hang.
  { rewrite E_angle by done. by rewrite E_entity, IHr. }
  rewrite (E_keep c r) by done.
  destruct (bt c) eqn:Hc.
  - (* a backtick that opens no span *)
    pose proof (match_single_None c r Hc Hs) as Hnb.
    pose proof (Escaped_no_backtick _ _ (E_escaped r) Hnb) as Hnb'.
    rewrite E_keep; [by rewrite IHr| |by apply match_single_no_backtick|done].
    destruct (E r) as [|b r'] eqn:HE; [done|].
    apply match_double_second.
    unfold no_backtick in Hnb'. cbn [Str.any] in Hnb'.
    by apply orb_false_iff in Hnb' as [? _].
  - by rewrite E_plain, IHr.
Qed.

End Sanitizer.

(** On a text without the line terminators [\n] and [\r] the sanitizer is
    idempotent.  The texts here are made of code units below 256; the
    line terminators U+2028 and U+2029 are not among them. *)
Theorem htmlEscape_idempotent_single_line (x : string) :
  single_line x -> htmlEscape (htmlEscape x) = htmlEscape x.
Proof. intros H. rewrite !htmlEscape_unfold. by apply E_idempotent. Qed.

Lemma htmlEscape_idempotent_single_line_witness :
  single_line "use ``<`` and `<b>` in <code>, ``x`` > ``y``"
  /\ htmlEscape (htmlEscape "use ``<`` and `<b>` in <code>, ``x`` > ``y``")
     = htmlEscape "use ``<`` and `<b>` in <code>, ``x`` > ``y``".
Proof.
  split; [reflexivity|].
  apply htmlEscape_idempotent_single_line. reflexivity.
Defined.

(** C7 fails in the code, on a text of two lines: a two-backtick span
    needs two characters of content, so the first pass does not take
    [``<``] for a code span and escapes its [<]; the second pass takes
    [``&lt;``] for a code span and so reaches the [<] of the second line,
    which the first pass had inside a span. *)
Lemma htmlEscape_not_idempotent :
  let x := "``<``" +:+ Str.nl +:+ "<``" in
  htmlEscape x = "``&lt;``" +:+ Str.nl +:+ "<``"
  /\ htmlEscape (htmlEscape x) = "``&lt;``" +:+ Str.nl +:+ "&lt;``"
  /\ htmlEscape (htmlEscape x) <> htmlEscape x.
Proof.
  intros x. split; [by vm_compute|]. split; [by vm_compute|].
  vm_compute. discriminate.
Qed.

(** * Further properties *)

(** ** Trimming *)

Section TrimFacts.

Implicit Types (s t : string) (c : ascii).

Lemma list_of_app s t :
  list_ascii_of_string (s +:+ t)
  = list_ascii_of_string s ++ list_ascii_of_string t.
Proof. induction s as [|c s IH]; [done|]. rewrite sapp_cons. simpl. by rewrite IH. Qed.

Lemma string_of_app (l1 l2 : list ascii) :
  string_of_list_ascii (l1 ++ l2)
  = string_of_list_ascii l1 +:+ string_of_list_ascii l2.
Proof.
  induction l1 as [|c l1 IH]; [done|]. simpl. by rewrite IH, sapp_cons.
Qed.

Lemma rev_app s t : Str.rev (s +:+ t) = Str.rev t +:+ Str.rev s.
Proof. unfold Str.rev. by rewrite list_of_app, rev_app_distr, string_of_app. Qed.

Lemma rev_involutive s : Str.rev (Str.rev s) = s.
Proof.
  unfold Str.rev.
  by rewrite list_ascii_of_string_of_list_ascii, List.rev_involutive,
       string_of_list_ascii_of_string.
Qed.

Lemma rev_cons c s : Str.rev (String c s) = Str.rev s +:+ String c "".
Proof. change (String c s) with (String c "" +:+ s). by rewrite rev_app. Qed.

Lemma rev_empty_iff s : Str.rev s = "" <-> s = "".
Proof.
  split; [|by intros ->]. intros H.
  apply (f_equal Str.rev) in H. by rewrite rev_involutive in H.
Qed.

(** [trim_start] takes a run of white space off the front. *)
Lemma trim_start_split s :
  exists sp,
    s = sp +:+ Str.trim_start s /\ Str.all Char.is_space sp = true
    /\ no_lead (Str.trim_start s).
Proof.
  induction s as [|c s (sp & Hs & Hsp & Hl)].
  - by exists "".
  - cbn [Str.trim_start]. destruct (Char.is_space c) eqn:Hc.
    + exists (String c sp). rewrite sapp_cons, <- Hs. cbn [Str.all].
      by rewrite Hc, Hsp.
    + by exists "".
Qed.

Lemma trim_start_no_lead s : no_lead s -> Str.trim_start s = s.
Proof. destruct s as [|c s]; [done|]. simpl. by intros ->. Qed.

Lemma trim_end_no_trail s : no_trail s -> Str.trim_end s = s.
Proof.
  unfold no_trail, Str.trim_end. intros H.
  by rewrite trim_start_no_lead, rev_involutive.
Qed.

Lemma trim_end_trailing s : no_trail (Str.trim_end s).
Proof.
  unfold no_trail, Str.trim_end. rewrite rev_involutive.
  by destruct (trim_start_split (Str.rev s)) as (sp & _ & _ & H).
Qed.

Lemma all_space_rev sp :
  Str.all Char.is_space sp = true -> Str.all Char.is_space (Str.rev sp) = true.
Proof.
  induction sp as [|c sp IH]; [done|]. cbn [Str.all].
  intros [Hc Hsp]%andb_true_iff. rewrite rev_cons, all_app, IH by done.
  cbn [Str.all]. by rewrite Hc.
Qed.

(** [trim_end] keeps a first character that is no white space. *)
Lemma trim_end_head c s :
  Char.is_space c = false ->
  exists t, Str.trim_end (String c s) = String c t.
Proof.
  intros Hc. unfold Str.trim_end.
  destruct (trim_start_split (Str.rev (String c s))) as (sp & Hs & Hsp & _).
  apply (f_equal Str.rev) in Hs. rewrite rev_involutive, rev_app in Hs.
  destruct (Str.rev (Str.trim_start (Str.rev (String c s)))) as [|d t].
  - rewrite sapp_empty_l in Hs. apply all_space_rev in Hsp.
    rewrite <- Hs in Hsp. cbn [Str.all] in Hsp. by rewrite Hc in Hsp.
  - rewrite sapp_cons in Hs. injection Hs as -> _. by exists t.
Qed.

Lemma trim_end_leading s : no_lead s -> no_lead (Str.trim_end s).
Proof.
  destruct s as [|c s]; [done|]. simpl. intros Hc.
  by destruct (trim_end_head c s Hc) as [t ->].
Qed.

Lemma trim_leading s : no_lead (Str.trim s).
Proof.
  unfold Str.trim. apply trim_end_leading.
  by destruct (trim_start_split s) as (sp & _ & _ & H).
Qed.

Lemma trim_trailing s : no_trail (Str.trim s).
Proof. apply trim_end_trailing. Qed.

Lemma trim_fixed s : no_lead s -> no_trail s -> Str.trim s = s.
Proof.
  intros Hl Ht. unfold Str.trim.
  by rewrite trim_start_no_lead, trim_end_no_trail.
Qed.

Lemma trim_idempotent s : Str.trim (Str.trim s) = Str.trim s.
Proof. apply trim_fixed; [apply trim_leading|apply trim_trailing]. Qed.

Lemma no_trail_app s t : t <> "" -> no_trail t -> no_trail (s +:+ t).
Proof.
  unfold no_trail. intros Hne Ht. rewrite rev_app.
  destruct (Str.rev t) as [|c r] eqn:Hr.
  - destruct Hne. by apply rev_empty_iff.
  - by rewrite sapp_cons.
Qed.

Lemma no_lead_app s t : s <> "" -> no_lead s -> no_lead (s +:+ t).
Proof. destruct s as [|c s]; [done|]. intros _ H. by rewrite sapp_cons. Qed.

Lemma trim_end_space s : Str.trim_end (s +:+ " ") = Str.trim_end s.
Proof. unfold Str.trim_end. by rewrite rev_app. Qed.

End TrimFacts.

(** ** The sanitizer: what it changes and what it leaves *)

Lemma Escaped_length (s t : string) :
  Escaped s t -> String.length s <= String.length t.
Proof.
  induction 1 as [|c s t H IH|c s t Hc H IH]; [done|simpl; lia|].
  rewrite slength_app. unfold entity.
  destruct (Char.eqb c "<"); simpl; lia.
Qed.

(** The output of [htmlEscape] is its input with some of the [<] replaced
    by [&lt;] and some of the [>] by [&gt;]: no other character is changed,
    added, dropped or moved, and the text never gets shorter. *)
Theorem htmlEscape_only_replaces_angles (message : string) :
  Escaped message (htmlEscape message)
  /\ String.length message <= String.length (htmlEscape message).
Proof.
  rewrite htmlEscape_unfold. pose proof (E_escaped message) as H.
  split; [done|by apply Escaped_length].
Qed.

Lemma Escaped_no_angle (s t : string) :
  Escaped s t -> Str.any is_angle s = false -> t = s.
Proof.
  induction 1 as [|c s t H IH|c s t Hc H IH]; [done| |]; cbn [Str.any].
  - intros [_ Hs]%orb_false_iff. by rewrite IH.
  - by rewrite Hc.
Qed.

(** A text without [<] and [>] is returned as it is, whatever backticks it
    holds. *)
Theorem htmlEscape_without_angles (message : string) :
  Str.any is_angle message = false -> htmlEscape message = message.
Proof.
  intros H. apply (Escaped_no_angle message); [|done].
  rewrite htmlEscape_unfold. apply E_escaped.
Qed.

Lemma htmlEscape_without_angles_witness :
  htmlEscape "use `npm ci` && ``make`` for a & b" =
  "use `npm ci` && ``make`` for a & b".
Proof. apply htmlEscape_without_angles. reflexivity. Defined.

Lemma escape_all_no_angle (s : string) :
  Str.any is_angle (escape_all s) = false.
Proof.
  induction s as [|c s IH]; [done|]. cbn [escape_all].
  destruct (is_angle c) eqn:Hc.
  - rewrite any_app, IH. unfold entity. by destruct (Char.eqb c "<").
  - cbn [Str.any]. by rewrite Hc, IH.
Qed.

(** In a text without backtick every [<] and every [>] is escaped, so the
    output holds neither character. *)
Theorem htmlEscape_without_backticks (message : string) :
  no_backtick message ->
  htmlEscape message = escape_all message
  /\ Str.any is_angle (htmlEscape message) = false.
Proof.
  intros Hb.
  assert (H : htmlEscape message = escape_all message).
  { rewrite htmlEscape_unfold. unfold no_backtick in Hb.
    induction message as [|c s IH]; [done|].
    cbn [Str.any] in Hb. apply orb_false_iff in Hb as [Hc Hs].
    cbn [escape_all]. destruct (is_angle c) eqn:Ha.
    - by rewrite E_angle, IH.
    - by rewrite E_plain, IH. }
  split; [done|]. rewrite H. apply escape_all_no_angle.
Qed.

Lemma htmlEscape_without_backticks_witness :
  htmlEscape "render <picture> as <img>" = "render &lt;picture&gt; as &lt;img&gt;"
  /\ Str.any is_angle (htmlEscape "render <picture> as <img>") = false.
Proof.
  destruct (htmlEscape_without_backticks "render <picture> as <img>")
    as [H1 H2]; [reflexivity|].
  split; [by rewrite H1|done].
Defined.

(** ** The issue-link rewriter on texts without a key *)

Lemma is_key_dash (prefixes : option (list string)) (key : string) :
  is_key prefixes key -> Str.any (Char.eqb "-"%char) key = true.
Proof.
  intros (p & (ds & -> & _) & _). rewrite !any_app.
  change (Str.any (Char.eqb "-") "-") with true. by rewrite orb_true_r.
Qed.

Lemma Linkified_no_dash (prefixes : option (list string)) (url : string)
    (st : bool) (s t : string) :
  Linkified prefixes url st s t ->
  Str.any (Char.eqb "-"%char) s = false -> t = s.
Proof.
  induction 1 as [st|st c s t H IH|key s t Hk H IH|st c key s t Hc Hk H IH].
  - done.
  - cbn [Str.any]. intros [_ Hs]%orb_false_iff. by rewrite IH.
  - rewrite any_app, (is_key_dash _ _ Hk). done.
  - cbn [Str.any]. rewrite any_app, (is_key_dash _ _ Hk).
    by rewrite orb_true_r.
Qed.

(** A subject without a dash holds no key: the rewriter returns it as it
    is, for every prefix list and tracker URL. *)
Theorem linkify_without_dash (prefixes : option (list string))
    (url subject : string) :
  Str.any (Char.eqb "-"%char) subject = false ->
  linkify prefixes url subject = subject.
Proof.
  intros H. apply (Linkified_no_dash prefixes url true); [|done].
  apply replace_from_linkified.
Qed.

Lemma linkify_without_dash_witness :
  linkify None "https://t/" "bump ABC123 to v2 (see ABC 45)"
  = "bump ABC123 to v2 (see ABC 45)".
Proof. apply linkify_without_dash. reflexivity. Defined.

(** ** The Others block *)

(** A bullet of the Others block: with a hash it is the subject followed
    by the link to the commit, whose text is the first seven characters of
    the hash; without a hash there is no link and the white space at the
    end is removed. *)
Theorem others_bullet_format (ctx : Context) (c : ChangelogCommit) :
  others_bullet ctx c =
    if Str.is_empty (hash c) then Str.trim_end ("* " +:+ subject c)
    else "* " +:+ subject c +:+ " ([" +:+ Str.take 7 (hash c) +:+ "]("
         +:+ ctx_host ctx +:+ "/" +:+ ctx_owner ctx +:+ "/"
         +:+ ctx_repository ctx +:+ "/commit/" +:+ hash c +:+ "))".
Proof.
  unfold others_bullet. destruct (hash c) as [|a h] eqn:Hh.
  - cbn [Str.is_empty]. cbv iota. unfold Str.trim.
    rewrite trim_start_no_lead by done.
    rewrite <- !sapp_assoc. rewrite sapp_empty_r. apply trim_end_space.
  - cbn [Str.is_empty Str.take]. cbv iota. apply trim_fixed; [done|].
    rewrite <- !sapp_assoc. by apply no_trail_app.
Qed.

Lemma others_bullet_shape (ctx : Context) (c : ChangelogCommit) :
  others_bullet ctx c <> "" /\ no_lead (others_bullet ctx c)
  /\ no_trail (others_bullet ctx c).
Proof.
  unfold others_bullet. split; [|split; [apply trim_leading|apply trim_trailing]].
  unfold Str.trim. rewrite trim_start_no_lead by done.
  rewrite sapp_cons.
  by destruct (trim_end_head "*" (" " +:+ subject c +:+ " " +:+
    (if Str.is_empty (if Str.is_empty (hash c) then "" else Str.take 7 (hash c))
     then ""
     else "([" +:+ (if Str.is_empty (hash c) then "" else Str.take 7 (hash c))
          +:+ "](" +:+ ctx_host ctx +:+ "/" +:+ ctx_owner ctx +:+ "/"
          +:+ ctx_repository ctx +:+ "/commit/" +:+ hash c +:+ "))")))
    as [t ->].
Qed.

Lemma join_bullets_shape (bs : list string) :
  bs <> [] ->
  Forall (fun b => b <> "" /\ no_lead b /\ no_trail b) bs ->
  Str.join Str.nl bs <> "" /\ no_trail (Str.join Str.nl bs).
Proof.
  induction bs as [|b bs IH]; [done|]. intros _ Hall.
  apply Forall_cons in Hall as [(Hne & _ & Ht) Hall].
  destruct bs as [|b' bs]; [done|].
  destruct IH as [IH1 IH2]; [done|done|].
  cbn [Str.join]. cbn [Str.join] in IH1, IH2. split.
  - by destruct b.
  - rewrite <- sapp_assoc. by apply no_trail_app.
Qed.

(** The document [buildNotes] returns has no white space at its start and
    none at its end, so no trailing newline either. *)
Theorem buildNotes_trimmed (writer : Writer) (cs : list ConventionalCommit)
    (options : BuildNotesOptions) (σ : gmap loc Note) :
  Str.trim (buildNotes writer cs options σ).1
  = (buildNotes writer cs options σ).1.
Proof.
  rewrite buildNotes_uses_context. cbv zeta.
  set (ctx := buildContext options).
  set (entries := (classify options cs σ).1).
  generalize (writer entries (classify options cs σ).2 ctx
                (changelogSections options)).
  intros out. rewrite appendOthers_block.
  destruct (List.filter is_others entries) as [|o os].
  { apply trim_idempotent. }
  assert (Hb : Str.join Str.nl (List.map (others_bullet ctx) (o :: os)) <> ""
               /\ no_trail (Str.join Str.nl
                              (List.map (others_bullet ctx) (o :: os)))).
  { apply join_bullets_shape; [done|].
    apply Forall_forall. intros b (e & <- & _)%list_elem_of_In%in_map_iff.
    apply others_bullet_shape. }
  destruct Hb as [Hb1 Hb2].
  apply trim_fixed.
  - destruct (Str.trim out) as [|a r] eqn:Ht; [done|].
    cbn [Str.is_empty]. cbv iota. rewrite !sapp_cons.
    pose proof (trim_leading out) as Hl. by rewrite Ht in Hl.
  - unfold others_block. rewrite <- !sapp_assoc. by apply no_trail_app.
Qed.

(** ** The raw-commit pass: what is skipped and what is kept *)

Lemma conventionalHeader_not_issue (s : string) :
  conventionalHeader s = true -> rawIssueHeader s = false.
Proof.
  unfold conventionalHeader. intros (ty & Hin & Hty)%existsb_exists.
  destruct (Str.strip_prefix ty s) as [r|] eqn:Hr; [|done].
  apply strip_prefix_Some in Hr as ->.
  unfold conventional_types in Hin. simpl in Hin.
  repeat (destruct Hin as [<-|Hin]; [reflexivity|]). done.
Qed.

Lemma mergeHeader_not_issue (s : string) :
  mergeHeader s = true -> rawIssueHeader s = false.
Proof.
  unfold mergeHeader.
  destruct (Str.strip_prefix "Merge" s) as [r|] eqn:Hr; [|done].
  apply strip_prefix_Some in Hr as ->. reflexivity.
Qed.

(** A raw commit whose first line is a conventional-commit header or a
    merge header is never recovered: such a line cannot start with a
    tracker key. *)
Theorem recoverRaw_skips_conventional_and_merge
    (prefixes : option (list string)) (url : option string)
    (seenShas : gset string) (raw : RawCommit) :
  let msg := Str.first_field Char.newline (raw_message raw) in
  conventionalHeader msg = true \/ mergeHeader msg = true ->
  recoverRaw prefixes url seenShas raw = None.
Proof.
  intros msg H. unfold recoverRaw.
  destruct (decide (raw_sha raw ∈ seenShas)); [done|]. fold msg.
  destruct H as [H|H].
  - by rewrite (conventionalHeader_not_issue msg H), H.
  - rewrite (mergeHeader_not_issue msg H), H. by rewrite orb_true_r.
Qed.

Lemma recoverRaw_skips_conventional_and_merge_witness :
  recoverRaw None None ∅ (mkRaw "m1" "Merge branch 'main'") = None
  /\ recoverRaw None None ∅ (mkRaw "c1" "fix(parser): handle tabs") = None.
Proof.
  split; apply recoverRaw_skips_conventional_and_merge.
  - right. reflexivity.
  - left. reflexivity.
Defined.

Lemma is_upper_not_bracket (u : ascii) :
  Char.is_upper u = true -> Char.eqb u "["%char = false.
Proof.
  intros Hu. apply char_eqb_neq. intros ->. by vm_compute in Hu.
Qed.

Lemma not_word_not_digit (c : ascii) :
  Char.is_word c = false -> Char.is_digit c = false.
Proof.
  unfold Char.is_word, Char.is_alnum.
  intros [[_ H]%orb_false_iff _]%orb_false_iff. done.
Qed.

(** A raw commit whose first line starts with a tracker key that ends at a
    word boundary is always recovered when its sha is not seen, also when
    the line holds [release-please]. *)
Theorem recoverRaw_keeps_issue_header
    (prefixes : option (list string)) (url : option string)
    (seenShas : gset string) (raw : RawCommit) (p k rest : string) :
  raw_sha raw ∉ seenShas ->
  Str.first_field Char.newline (raw_message raw) = k +:+ rest ->
  upper_prefix p -> key_of p k ->
  match rest with
  | String c _ => Char.is_word c = false
  | EmptyString => True
  end ->
  exists e,
    recoverRaw prefixes url seenShas raw = Some e
    /\ entry_type e = "others" /\ header e = k +:+ rest
    /\ hash e = raw_sha raw.
Proof.
  intros Hsha Hmsg Hp Hk Hrest. unfold recoverRaw.
  destruct (decide (raw_sha raw ∈ seenShas)); [done|]. rewrite Hmsg.
  assert (Hraw : rawIssueHeader (k +:+ rest) = true).
  { unfold rawIssueHeader.
    assert (He : eat "[" (k +:+ rest) = None).
    { destruct Hp as (u & run & -> & Hu & _).
      destruct Hk as (ds & -> & _). rewrite !sapp_cons. cbn [eat].
      by rewrite (is_upper_not_bracket u Hu). }
    rewrite He, (key_generic_intro p k rest Hp Hk).
    - rewrite drop_app_length. destruct rest as [|c r]; [done|].
      simpl. by rewrite Hrest.
    - destruct rest as [|c r]; [done|]. by apply not_word_not_digit. }
  rewrite Hraw. by eexists.
Qed.

Lemma recoverRaw_keeps_issue_header_witness :
  exists e,
    recoverRaw None None ∅ (mkRaw "z9" "ABC-7 release-please config") = Some e
    /\ entry_type e = "others"
    /\ header e = "ABC-7" +:+ " release-please config"
    /\ hash e = "z9".
Proof.
  apply (recoverRaw_keeps_issue_header None None ∅
           (mkRaw "z9" "ABC-7 release-please config") "ABC" "ABC-7"
           " release-please config").
  - apply not_elem_of_empty.
  - reflexivity.
  - by exists "A"%char, "BC".
  - by exists "7".
  - reflexivity.
Defined.

(** ** The entries of one call *)

Lemma first_field_no_sep (sep : ascii) (s : string) :
  Str.any (fun c => Char.eqb c sep) (Str.first_field sep s) = false.
Proof.
  induction s as [|c s IH]; [done|]. cbn [Str.first_field].
  destruct (Char.eqb c sep) eqn:Hc; [done|]. cbn [Str.any].
  by rewrite Hc, IH.
Qed.

Lemma recoverRaw_entry prefixes url seenShas raw e :
  recoverRaw prefixes url seenShas raw = Some e ->
  entry_of_raw seenShas [raw] e.
Proof.
  unfold recoverRaw. destruct (decide (raw_sha raw ∈ seenShas)); [done|].
  destruct (andb _ _); [done|]. intros [= <-].
  unfold entry_of_raw. cbn. repeat split.
  - apply first_field_no_sep.
  - exists raw. repeat split; [apply list_elem_of_here|done].
Qed.

Lemma entry_of_raw_mono seenShas raws raws' e :
  (forall r, r ∈ raws -> r ∈ raws') ->
  entry_of_raw seenShas raws e -> entry_of_raw seenShas raws' e.
Proof.
  intros Hsub (H1 & H2 & H3 & H4 & H5 & H6 & H7 & raw & Hin & Hrest).
  repeat split; try done. exists raw. split; [by apply Hsub|done].
Qed.

Lemma recoverRaws_entries prefixes url seenShas rs :
  Forall (entry_of_raw seenShas rs)
    (recoverRaws prefixes url seenShas (Some rs))
  /\ length (recoverRaws prefixes url seenShas (Some rs)) <= length rs.
Proof.
  cbn [recoverRaws]. induction rs as [|r rs [IH1 IH2]]; [by split|].
  cbn [omap list_omap].
  destruct (recoverRaw prefixes url seenShas r) as [e|] eqn:Hr.
  - split; [|simpl; lia]. apply Forall_cons. split.
    + apply (entry_of_raw_mono _ [r]).
      * intros x ->%list_elem_of_singleton. by left.
      * by apply recoverRaw_entry in Hr.
    + eapply Forall_impl; [exact IH1|]. intros x Hx.
      apply (entry_of_raw_mono _ rs); [|done]. intros y Hy. by right.
  - split; [|simpl; lia].
    eapply Forall_impl; [exact IH1|]. intros x Hx.
    apply (entry_of_raw_mono _ rs); [|done]. intros y Hy. by right.
Qed.

Lemma classifyCommits_entries ctx prefixes url cs st :
  Forall2 entry_of_commit cs (classifyCommits ctx prefixes url cs st).1.
Proof.
  revert st; induction cs as [|c cs IH]; intros st; [constructor|].
  cbn [classifyCommits].
  destruct (classifyCommit ctx prefixes url c st) as [e st1] eqn:Hc.
  specialize (IH st1).
  destruct (classifyCommits ctx prefixes url cs st1) as [es st2].
  cbn [fst] in *. constructor; [|done].
  change e with (e, st1).1. rewrite <- Hc. unfold classifyCommit.
  destruct (breaking_notes ctx (notes c) (store st)) as [kept σ'].
  unfold entry_of_commit. cbn. repeat split.
  destruct (jiraHeader (message c)); [by right|by left].
Qed.

(** The entries of a call are the entries of the parsed commits, one per
    commit and in their order, each with the commit's sha, header line,
    scope and references and with the commit's type or [others], followed
    by the entries of the recovered raw commits: those have the type
    [others], no notes, references, scope or footer, a header of one line,
    and the sha of a raw commit that no parsed commit has. *)
Theorem classify_entries (options : BuildNotesOptions)
    (cs : list ConventionalCommit) (σ : gmap loc Note) :
  exists parsed recovered seenShas,
    (classify options cs σ).1 = parsed ++ recovered
    /\ Forall2 entry_of_commit cs parsed
    /\ Forall (entry_of_raw seenShas (default [] (commits options))) recovered
    /\ (forall s, s ∈ seenShas <-> s <> "" /\ s ∈ List.map sha cs)
    /\ length recovered <= length (default [] (commits options)).
Proof.
  rewrite classify_fst. cbv zeta.
  set (r := classifyCommits (buildContext options)
              (trackerPrefixes (trackerList options)) (trackerUrl options)
              cs {| seen := ∅; store := σ |}).
  exists r.1, (recoverRaws (trackerPrefixes (trackerList options))
                 (trackerUrl options) (seen r.2) (commits options)),
    (seen r.2).
  split; [done|]. split; [apply classifyCommits_entries|].
  assert (Hseen : forall s, s ∈ seen r.2 <-> s <> "" /\ s ∈ List.map sha cs).
  { intros s. unfold r. rewrite classifyCommits_seen. cbn [seen].
    split; [intros [H|H]; [by apply not_elem_of_empty in H|done]|by right]. }
  destruct (commits options) as [rs|]; cbn [default].
  - destruct (recoverRaws_entries (trackerPrefixes (trackerList options))
                (trackerUrl options) (seen r.2) rs) as [H1 H2].
    split; [exact H1|]. split; [exact Hseen|exact H2].
  - cbn [recoverRaws]. split; [constructor|]. split; [exact Hseen|done].
Qed.

Lemma recoverRaw_passes prefixes url seenShas raw :
  raw_sha raw ∉ seenShas ->
  passes_raw_filter (Str.first_field Char.newline (raw_message raw)) ->
  exists e, recoverRaw prefixes url seenShas raw = Some e
            /\ entry_type e = "others"
            /\ hash e = raw_sha raw
            /\ header e = Str.first_field Char.newline (raw_message raw)
            /\ subject e =
                 rewriteSubject prefixes url
                   (htmlEscape
                      (Str.first_field Char.newline (raw_message raw))).
Proof.
  intros Hsha Hp. unfold recoverRaw.
  destruct (decide (raw_sha raw ∈ seenShas)); [done|].
  assert (H : negb (rawIssueHeader
                      (Str.first_field Char.newline (raw_message raw)))
              && (conventionalHeader
                    (Str.first_field Char.newline (raw_message raw))
                  || mergeHeader
                       (Str.first_field Char.newline (raw_message raw))
                  || skipRelease
                       (Str.first_field Char.newline (raw_message raw)))
              = false).
  { destruct Hp as [->|(-> & -> & ->)]; [done|by rewrite andb_false_r]. }
  rewrite H. by eexists.
Qed.

(** Every raw commit that passes the header tests and whose sha is empty
    or is the sha of no parsed commit has an entry: a parsed commit
    without sha does not shadow a raw commit without sha. *)
Theorem classify_recovers_unseen_raw (options : BuildNotesOptions)
    (cs : list ConventionalCommit) (σ : gmap loc Note) (raw : RawCommit) :
  raw ∈ default [] (commits options) ->
  raw_sha raw = "" \/ raw_sha raw ∉ List.map sha cs ->
  passes_raw_filter (Str.first_field Char.newline (raw_message raw)) ->
  exists e,
    e ∈ (classify options cs σ).1
    /\ entry_type e = "others" /\ hash e = raw_sha raw
    /\ header e = Str.first_field Char.newline (raw_message raw).
Proof.
  intros Hin Hsha Hp. rewrite classify_fst. cbv zeta.
  set (r := classifyCommits (buildContext options)
              (trackerPrefixes (trackerList options)) (trackerUrl options)
              cs {| seen := ∅; store := σ |}).
  assert (Hun : raw_sha raw ∉ seen r.2).
  { unfold r. rewrite classifyCommits_seen. cbn [seen].
    intros [H|[Hne H]]; [by apply not_elem_of_empty in H|].
    destruct Hsha as [Hs|Hs]; [done|done]. }
  destruct (recoverRaw_passes (trackerPrefixes (trackerList options))
              (trackerUrl options) (seen r.2) raw Hun Hp)
    as (e & He & Ht & Hh & Hd & _).
  exists e. split; [|done]. apply elem_of_app. right.
  destruct (commits options) as [rs|]; cbn [default] in Hin;
    [|by apply elem_of_nil in Hin].
  cbn [recoverRaws]. apply list_elem_of_omap. by exists raw.
Qed.

Lemma classify_recovers_unseen_raw_witness :
  exists e,
    e ∈ (classify shaless_options
           [mkCommit "" "feat: add widget" "add widget" "feat" None [] []
              false] ∅).1
    /\ entry_type e = "others" /\ hash e = ""
    /\ header e = "update the docs".
Proof.
  apply (classify_recovers_unseen_raw shaless_options
           [mkCommit "" "feat: add widget" "add widget" "feat" None [] []
              false] ∅ (mkRaw "" "update the docs")).
  - apply list_elem_of_here.
  - by left.
  - right. by repeat split.
Defined.


(** ** The footer *)

Lemma release_as_footer_ext (ls : list loc) (σ σ' : gmap loc Note) :
  (forall l, title <$> σ' !! l = title <$> σ !! l) ->
  (forall l, has_title σ "RELEASE AS" l = true -> σ' !! l = σ !! l) ->
  release_as_footer ls σ' = release_as_footer ls σ.
Proof.
  intros Ht Hx. unfold release_as_footer. f_equal.
  induction ls as [|l ls IH]; [done|]. cbn [List.filter].
  rewrite (has_title_ext σ σ' "RELEASE AS" l (Ht l)).
  destruct (has_title σ "RELEASE AS" l) eqn:Hl; [|done].
  cbn [List.map]. rewrite IH. unfold note_text. by rewrite (Hx l Hl).
Qed.

Lemma title_exclusive (σ : gmap loc Note) (l : loc) :
  has_title σ "RELEASE AS" l = true ->
  has_title σ "BREAKING CHANGE" l = false.
Proof.
  unfold has_title. destruct (σ !! l) as [n|]; [|done].
  intros ->%String.eqb_eq. reflexivity.
Qed.

(** The footer of an entry holds one line [Release-As: text] for every
    note of the commit titled [RELEASE AS], in their order, with the text
    the note had before the call: the rewriting of the breaking-change
    notes does not reach it. *)
Theorem classifyCommit_footer (ctx : Context)
    (prefixes : option (list string)) (url : option string)
    (commit : ConventionalCommit) (st : State) :
  footer (classifyCommit ctx prefixes url commit st).1
  = Str.join Str.nl
      (List.map (fun l => "Release-As: " +:+ note_text (store st) l)
         (List.filter (has_title (store st) "RELEASE AS") (notes commit))).
Proof.
  unfold classifyCommit.
  pose proof (breaking_notes_snd ctx (notes commit) (store st)) as Hs.
  destruct (breaking_notes ctx (notes commit) (store st)) as [kept σ'].
  cbn [fst footer]. cbn [snd] in Hs. subst σ'.
  fold (release_as_footer (notes commit) (store st)).
  apply release_as_footer_ext.
  - intros l. apply rewrite_all_title.
  - intros l Hl. apply rewrite_all_notin.
    intros [_ Hb]%list_elem_of_In%filter_In.
    by rewrite (title_exclusive _ _ Hl) in Hb.
Qed.

(** ** The section list of the variants with an Others section *)

(** The section list handed to the preset always holds a section of type
    [others]: the configured (or default) sections come first, unchanged
    and in their order, and [{type: 'others', section: 'Others'}] is added
    at the end only when no section of that type is among them; building
    the list again from the result changes nothing. *)
Theorem configTypes_has_others (defaults : list ChangelogSection)
    (sections : option (list ChangelogSection)) :
  let types := SectionsVariant.configTypes defaults sections in
  existsb SectionsVariant.is_others_section types = true
  /\ (types = default defaults sections
      \/ (existsb SectionsVariant.is_others_section
            (default defaults sections) = false
          /\ types = default defaults sections
                     ++ [mkSection "others" "Others" false]))
  /\ SectionsVariant.configTypes defaults (Some types) = types.
Proof.
  intros types.
  assert (Happ : existsb SectionsVariant.is_others_section
                   (default defaults sections
                    ++ [mkSection "others" "Others" false]) = true).
  { rewrite existsb_app. cbn. by rewrite orb_true_r. }
  assert (Hcases :
    (existsb SectionsVariant.is_others_section (default defaults sections)
       = true /\ types = default defaults sections)
    \/ (existsb SectionsVariant.is_others_section
          (default defaults sections) = false
        /\ types = default defaults sections
                   ++ [mkSection "others" "Others" false])).
  { subst types. unfold SectionsVariant.configTypes. cbv zeta.
    destruct (existsb SectionsVariant.is_others_section
                (default defaults sections)); [by left|by right]. }
  destruct Hcases as [[He Ht]|[He Ht]]; rewrite Ht.
  - split; [done|]. split; [by left|].
    unfold SectionsVariant.configTypes.
    change (default defaults (Some (default defaults sections)))
      with (default defaults sections). cbv zeta. by rewrite He.
  - split; [done|]. split; [by right|].
    unfold SectionsVariant.configTypes.
    change (default defaults (Some ?x)) with x. cbv zeta.
    by rewrite Happ.
Qed.

(** ** Types after normalisation *)

Lemma jiraLike_spec (s : string) :
  AugmentBuild.jiraLike s = true <-> tracker_key_shaped s.
Proof.
  unfold AugmentBuild.jiraLike, tracker_key_shaped. split.
  - destruct (key_generic s) as [k|] eqn:Hk; [|done].
    apply key_generic_elim in Hk as (p & rest & Hp & Hkey & ->).
    rewrite drop_app_length. destruct rest; [|done].
    intros _. rewrite sapp_empty_r. by exists p.
  - intros (p & Hp & Hk).
    pose proof (key_generic_intro p s "" Hp Hk I) as H.
    rewrite sapp_empty_r in H. rewrite H.
    rewrite <- (sapp_empty_r s) at 2. by rewrite drop_app_length.
Qed.

Lemma others_in_sectionTypes (sections : option (list ChangelogSection)) :
  In "others" (AugmentBuild.sectionTypes sections).
Proof.
  unfold AugmentBuild.sectionTypes, AugmentBuild.configTypes.
  assert (H : existsb SectionsVariant.is_others_section
                (SectionsVariant.configTypes AugmentBuild.defaultTypes
                   sections) = true).
  { unfold SectionsVariant.configTypes. cbv zeta.
    destruct (existsb SectionsVariant.is_others_section
                (default AugmentBuild.defaultTypes sections)) eqn:He;
      [done|].
    rewrite existsb_app. cbn. by rewrite orb_true_r. }
  apply existsb_exists in H as (t & Hin & Ht).
  apply in_map_iff. exists t. split; [|done].
  by apply String.eqb_eq in Ht.
Qed.

Lemma normalizedType_cases (types : list string) (ty : string) :
  (In ty types \/ ~ tracker_key_shaped ty) /\
    AugmentBuild.normalizedType types ty = ty
  \/ (~ In ty types /\ tracker_key_shaped ty
      /\ AugmentBuild.normalizedType types ty = "others").
Proof.
  unfold AugmentBuild.normalizedType.
  destruct (existsb (String.eqb ty) types) eqn:Hin.
  - left. split; [|done]. left.
    apply existsb_exists in Hin as (x & Hx & ->%String.eqb_eq). done.
  - destruct (AugmentBuild.jiraLike ty) eqn:Hj.
    + right. cbn. split; [|split; [by apply jiraLike_spec|done]].
      intros Hty. assert (existsb (String.eqb ty) types = true); [|congruence].
      apply existsb_exists. exists ty. split; [done|apply String.eqb_refl].
    + left. cbn. split; [|done]. right. intros H%jiraLike_spec. congruence.
Qed.

Lemma entriesOf_types ctx types cs σ :
  List.map entry_type (AugmentBuild.entriesOf ctx types cs σ).1
  = List.map (fun c => AugmentBuild.normalizedType types (type c)) cs
  /\ List.map hash (AugmentBuild.entriesOf ctx types cs σ).1
     = List.map sha cs.
Proof.
  revert σ; induction cs as [|c cs IH]; intros σ; [done|].
  cbn [AugmentBuild.entriesOf].
  destruct (AugmentBuild.entryOf ctx types c σ) as [e σ1] eqn:He.
  specialize (IH σ1).
  destruct (AugmentBuild.entriesOf ctx types cs σ1) as [es σ2].
  cbn [fst] in *. destruct IH as [IH1 IH2].
  assert (H : entry_type e = AugmentBuild.normalizedType types (type c)
              /\ hash e = sha c).
  { change e with (e, σ1).1. rewrite <- He. unfold AugmentBuild.entryOf.
    by destruct (breaking_notes ctx (notes c) σ). }
  destruct H as [H1 H2]. cbn [List.map]. by rewrite H1, H2, IH1, IH2.
Qed.

(** In the variant with [normalizedType] no entry keeps a type that is
    shaped like a tracker key ([ABC-123]) unless that type is a section of
    the section list: such a type is mapped to [others], which always is a
    section; every other type is left as it is. *)
Theorem changelogCommits_types (cs : list ConventionalCommit)
    (options : BuildNotesOptions) (σ : gmap loc Note) :
  let types := AugmentBuild.sectionTypes (changelogSections options) in
  let entries := (AugmentBuild.changelogCommits cs options σ).1 in
  In "others" types
  /\ Forall (fun e => In (entry_type e) types
                      \/ ~ tracker_key_shaped (entry_type e)) entries
  /\ Forall2 (fun c e => hash e = sha c
                         /\ (entry_type e = type c
                             \/ (tracker_key_shaped (type c)
                                 /\ ~ In (type c) types
                                 /\ entry_type e = "others")))
       (AugmentVariant.augmentedCommits cs (commits options)) entries.
Proof.
  intros types entries. subst entries. unfold AugmentBuild.changelogCommits.
  fold types.
  pose proof (others_in_sectionTypes (changelogSections options)) as Ho.
  fold types in Ho. split; [done|].
  destruct (entriesOf_types (buildContext options) types
              (AugmentVariant.augmentedCommits cs (commits options)) σ)
    as [Ht Hh].
  revert Ht Hh.
  generalize (AugmentBuild.entriesOf (buildContext options) types
                (AugmentVariant.augmentedCommits cs (commits options)) σ).1.
  generalize (AugmentVariant.augmentedCommits cs (commits options)).
  intros l. induction l as [|c l IH]; intros [|e es]; try done.
  cbn [List.map]. intros [= Hte Ht] [= Hhe Hh].
  destruct (IH es Ht Hh) as [IH1 IH2].
  destruct (normalizedType_cases types (type c))
    as [[Hc Hn]|(Hc1 & Hc2 & Hn)]; rewrite Hn in Hte.
  - split; constructor; try done.
    + by rewrite Hte.
    + split; [done|by left].
  - split; constructor; try done.
    + rewrite Hte. by left.
    + split; [done|]. right. by rewrite Hte.
Qed.

(** ** The commits added from the raw commits *)

Lemma extra_elim (cs : list ConventionalCommit) (raw : RawCommit)
    (c : ConventionalCommit) :
  AugmentVariant.extra (list_to_set (List.map sha cs)) raw = Some c ->
  extra_commit cs [raw] c.
Proof.
  unfold AugmentVariant.extra.
  destruct (decide (raw_sha raw ∈ _)) as [|Hsha]; [done|].
  set (firstLine := Str.trim (AugmentVariant.first_line (raw_message raw))).
  destruct (Str.is_empty firstLine) eqn:He; [done|].
  destruct (AugmentVariant.hasLetters firstLine) eqn:Hl; [|done].
  destruct (AugmentVariant.isConventionalHeader firstLine) eqn:Hc; [done|].
  destruct (AugmentVariant.isJiraHeader firstLine) eqn:Hj; [done|].
  cbn. intros [= <-]. unfold extra_commit. cbn.
  repeat split; try done.
  - intros H. by rewrite H in He.
  - apply trim_idempotent.
  - intros H. apply Hsha. by apply elem_of_list_to_set.
  - exists raw. repeat split. apply list_elem_of_here.
Qed.

Lemma extra_commit_mono cs raws raws' c :
  (forall r, r ∈ raws -> r ∈ raws') ->
  extra_commit cs raws c -> extra_commit cs raws' c.
Proof.
  intros Hsub H. unfold extra_commit in *.
  destruct H as (?&?&?&?&?&?&?&?&?&?&?&?& raw & Hin & Hrest).
  repeat split; try done. exists raw. split; [by apply Hsub|done].
Qed.

(** [augmentedCommits] keeps the parsed commits, in their order, and adds
    behind them commits of type [others] made from raw commits: each has
    the sha of a raw commit that no parsed commit has and, as message and
    as [bareMessage], the trimmed first line of that raw commit, which is
    not empty, holds a letter and is neither a conventional header nor a
    tracker-issue header. *)
Theorem augmentedCommits_structure (cs : list ConventionalCommit)
    (raws : option (list RawCommit)) :
  exists extras,
    AugmentVariant.augmentedCommits cs raws = cs ++ extras
    /\ Forall (extra_commit cs (default [] raws)) extras
    /\ length extras <= length (default [] raws).
Proof.
  unfold AugmentVariant.augmentedCommits.
  destruct raws as [[|r rs]|].
  - exists []. by rewrite app_nil_r.
  - exists (omap (AugmentVariant.extra (list_to_set (List.map sha cs)))
              (r :: rs)).
    split; [done|]. change (default [] (Some (r :: rs))) with (r :: rs).
    generalize (r :: rs). intros l.
    induction l as [|x l [IH1 IH2]]; [by split|]. cbn [omap list_omap].
    destruct (AugmentVariant.extra _ x) as [c|] eqn:Hx.
    + split; [|simpl; lia]. constructor.
      * apply (extra_commit_mono cs [x]); [|by apply extra_elim].
        intros y ->%list_elem_of_singleton. by left.
      * eapply Forall_impl; [exact IH1|]. intros y Hy.
        apply (extra_commit_mono cs l); [|done]. intros z Hz. by right.
    + split; [|simpl; lia].
      eapply Forall_impl; [exact IH1|]. intros y Hy.
      apply (extra_commit_mono cs l); [|done]. intros z Hz. by right.
  - exists []. by rewrite app_nil_r.
Qed.

(** ** The header pattern built from the configured prefixes *)

Lemma key_with_prefix_exact (p ds rest : string) :
  ds <> "" -> Str.all Char.is_digit ds = true ->
  match rest with
  | String c _ => Char.is_digit c = false
  | EmptyString => True
  end ->
  key_with_prefix p (p +:+ "-" +:+ ds +:+ rest) = Some (p +:+ "-" +:+ ds).
Proof.
  intros Hne Hd Hrest. unfold key_with_prefix.
  rewrite strip_prefix_app. rewrite ?sapp_cons, ?sapp_empty_l.
  change (Char.eqb "-" "-") with true. cbv iota.
  rewrite (span_app Char.is_digit ds rest) by done.
  by destruct ds.
Qed.

Lemma class_key_elim (prefixes : option (list string)) (s k : string) :
  k ∈ PrefixVariant.class_key prefixes s ->
  class_key_of prefixes k /\ exists rest, s = k +:+ rest.
Proof.
  unfold PrefixVariant.class_key, class_key_of.
  destruct prefixes as [[|q ps]|].
  - destruct (key_generic s) as [k'|] eqn:Hk; [|by intros ?%elem_of_nil].
    intros ->%list_elem_of_singleton.
    apply key_generic_elim in Hk as (p & rest & Hp & Hkey & ->).
    split; [by exists p|by exists rest].
  - intros (p & Hp & Hk)%list_elem_of_omap.
    apply key_with_prefix_elim in Hk as [Hk Hs]. split; [by exists p|done].
  - destruct (key_generic s) as [k'|] eqn:Hk; [|by intros ?%elem_of_nil].
    intros ->%list_elem_of_singleton.
    apply key_generic_elim in Hk as (p & rest & Hp & Hkey & ->).
    split; [by exists p|by exists rest].
Qed.

Lemma class_key_intro (prefixes : option (list string)) (k rest : string) :
  class_key_of prefixes k ->
  match rest with
  | String c _ => Char.is_digit c = false
  | EmptyString => True
  end ->
  k ∈ PrefixVariant.class_key prefixes (k +:+ rest).
Proof.
  unfold PrefixVariant.class_key, class_key_of. intros (p & Hk & Hp) Hrest.
  destruct prefixes as [[|q ps]|].
  - rewrite (key_generic_intro p k rest) by done. apply list_elem_of_here.
  - apply list_elem_of_omap. exists p. split; [done|].
    destruct Hk as (ds & -> & Hne & Hd). rewrite !sapp_assoc.
    by apply key_with_prefix_exact.
  - rewrite (key_generic_intro p k rest) by done. apply list_elem_of_here.
Qed.

Lemma colon_space_intro (w : ascii) (rest : string) :
  Char.is_space w = true -> colon_space (":" +:+ String w rest) = true.
Proof. intros Hw. rewrite sapp_cons. simpl. by rewrite Hw. Qed.

(** In the variant that builds [jiraHeader] from [prefixClass], a header
    is a tracker-issue header exactly when it starts with a key of the
    class, bare or in brackets, followed by a colon and a white-space
    character: with configured prefixes only their keys count. *)
Theorem prefix_jiraHeader_spec (prefixes : option (list string))
    (s : string) :
  PrefixVariant.jiraHeader prefixes s = true
  <-> exists k, class_key_of prefixes k /\ key_colon_space k s.
Proof.
  unfold PrefixVariant.jiraHeader. rewrite orb_true_iff. split.
  - intros [H|H].
    + destruct (eat "[" s) as [r|] eqn:He; [|done].
      apply eat_elim in He as ->.
      apply existsb_exists in H as (k & Hk%list_elem_of_In & H).
      apply class_key_elim in Hk as [Hk [rest ->]].
      rewrite drop_app_length in H.
      destruct (eat "]" rest) as [r'|] eqn:He; [|done].
      apply eat_elim in He as ->.
      apply colon_space_elim in H as (w & rest' & Hw & ->).
      exists k. split; [done|]. exists w, rest'. split; [done|]. right.
      by snorm.
    + apply existsb_exists in H as (k & Hk%list_elem_of_In & H).
      apply class_key_elim in Hk as [Hk [rest ->]].
      rewrite drop_app_length in H.
      apply colon_space_elim in H as (w & rest' & Hw & ->).
      exists k. split; [done|]. exists w, rest'. split; [done|]. by left.
  - intros (k & Hk & w & rest & Hw & [->| ->]).
    + right. apply existsb_exists. exists k. split.
      * apply list_elem_of_In. apply class_key_intro; [done|].
        by rewrite sapp_cons.
      * rewrite drop_app_length. by apply colon_space_intro.
    + left. rewrite (sapp_cons "[" ""), sapp_empty_l. cbn [eat].
      change (Char.eqb "[" "[") with true. cbv iota.
      apply existsb_exists. exists k.
      replace (k +:+ "]:" +:+ String w rest)
        with (k +:+ "]" +:+ ":" +:+ String w rest) by (by snorm).
      split.
      * apply list_elem_of_In. apply class_key_intro; [done|].
        by rewrite sapp_cons.
      * rewrite drop_app_length. rewrite (sapp_cons "]" ""), sapp_empty_l.
        cbn [eat]. change (Char.eqb "]" "]") with true. cbv iota.
        by apply colon_space_intro.
Qed.

(** ** The prefix list read from one string *)

Lemma split_on_nonempty (sep : ascii) (s : string) :
  PrefixVariant.split_on sep s <> [].
Proof.
  destruct s as [|c s]; [done|]. cbn [PrefixVariant.split_on].
  destruct (Char.eqb c sep); [done|].
  by destruct (PrefixVariant.split_on sep s).
Qed.

Lemma split_on_fields (sep : ascii) (s : string) :
  Forall (fun f => Str.any (fun c => Char.eqb c sep) f = false)
    (PrefixVariant.split_on sep s).
Proof.
  induction s as [|c s IH]; [by repeat constructor|].
  cbn [PrefixVariant.split_on].
  pose proof (split_on_nonempty sep s) as Hne.
  destruct (Char.eqb c sep) eqn:Hc; [by constructor|].
  destruct (PrefixVariant.split_on sep s) as [|f fs]; [done|].
  apply Forall_cons in IH as [Hf Hfs].
  constructor; [|done]. cbn [Str.any]. by rewrite Hc, Hf.
Qed.

Lemma any_trim_start (p : ascii -> bool) (s : string) :
  Str.any p s = false -> Str.any p (Str.trim_start s) = false.
Proof.
  destruct (trim_start_split s) as (sp & Hs & _). intros H.
  rewrite Hs, any_app in H. by apply orb_false_iff in H as [_ H].
Qed.

Lemma any_rev (p : ascii -> bool) (s : string) :
  Str.any p (Str.rev s) = Str.any p s.
Proof.
  induction s as [|c s IH]; [done|]. rewrite rev_cons, any_app, IH.
  cbn [Str.any]. rewrite orb_false_r. apply orb_comm.
Qed.

Lemma any_trim (p : ascii -> bool) (s : string) :
  Str.any p s = false -> Str.any p (Str.trim s) = false.
Proof.
  intros H. unfold Str.trim, Str.trim_end. rewrite any_rev.
  apply any_trim_start. rewrite any_rev. by apply any_trim_start.
Qed.

(** The prefixes read from the comma-separated [trackerList] are not
    empty, have no white space at either end and hold no comma; an absent
    or empty [trackerList] gives no prefix list. *)
Theorem trackerPrefixes_fields (trackerList : option string) :
  match PrefixVariant.trackerPrefixes trackerList with
  | Some ps =>
      truthy trackerList = true
      /\ Forall (fun p => p <> "" /\ Str.trim p = p
                          /\ Str.any (fun c => Char.eqb c ","%char) p = false)
           ps
  | None => trackerList = None \/ trackerList = Some ""
  end.
Proof.
  unfold PrefixVariant.trackerPrefixes.
  destruct (truthy trackerList) eqn:Ht.
  - split; [done|]. apply Forall_forall. intros p Hp.
    apply list_elem_of_In, filter_In in Hp as [Hp Hne].
    apply in_map_iff in Hp as (f & <- & Hf).
    pose proof (split_on_fields "," (default "" trackerList)) as Hall.
    rewrite Forall_forall in Hall.
    specialize (Hall f (proj2 (list_elem_of_In _ _) Hf)).
    split; [|split].
    + intros H. by rewrite H in Hne.
    + apply trim_idempotent.
    + by apply any_trim.
  - destruct trackerList as [[|c s]|]; [by right|done|by left].
Qed.

(** ** The tracker base URL *)

Lemma ensureSlash_cases (tracker : string) :
  (exists t, PrefixBuild.ensureSlash tracker = t +:+ "/")
  /\ (PrefixBuild.ensureSlash tracker = tracker
      \/ PrefixBuild.ensureSlash tracker = tracker +:+ "/")
  /\ ((exists t, tracker = t +:+ "/") ->
      PrefixBuild.ensureSlash tracker = tracker)
  /\ PrefixBuild.ensureSlash (PrefixBuild.ensureSlash tracker)
     = PrefixBuild.ensureSlash tracker.
Proof.
  induction tracker as [|c r (IH1 & IH2 & IH3 & IH4)].
  - split; [by exists ""|]. split; [by right|]. split; [|done].
    intros [t Ht]. by destruct t.
  - cbn [PrefixBuild.ensureSlash].
    destruct (Char.eqb c "/" && Str.is_empty r) eqn:Hc.
    + apply andb_true_iff in Hc as [->%char_eqb_eq Hr].
      destruct r; [|done].
      split; [by exists ""|]. split; [by left|]. split; [done|done].
    + destruct IH1 as [t Ht]. split; [|split; [|split]].
      * exists (String c t). by rewrite Ht, sapp_cons.
      * destruct IH2 as [->| ->]; [by left|right]. by rewrite sapp_cons.
      * intros [t' Ht']. f_equal. apply IH3.
        destruct t' as [|c' t'].
        -- rewrite sapp_empty_l in Ht'. injection Ht' as -> ->.
           by rewrite char_eqb_refl in Hc.
        -- rewrite sapp_cons in Ht'. injection Ht' as _ ->. by exists t'.
      * cbn [PrefixBuild.ensureSlash].
        destruct (PrefixBuild.ensureSlash r) as [|d r'] eqn:Hr.
        { by destruct t. }
        rewrite andb_false_r. by rewrite IH4.
Qed.

(** [ensureSlash] gives a text that ends with a slash: the text itself
    when it ends with one, the text with a slash added otherwise; applied
    again it changes nothing. *)
Theorem ensureSlash_spec (tracker t : string) :
  PrefixBuild.ensureSlash (t +:+ "/") = t +:+ "/"
  /\ (PrefixBuild.ensureSlash tracker = tracker
      \/ PrefixBuild.ensureSlash tracker = tracker +:+ "/")
  /\ (exists t', PrefixBuild.ensureSlash tracker = t' +:+ "/")
  /\ PrefixBuild.ensureSlash (PrefixBuild.ensureSlash tracker)
     = PrefixBuild.ensureSlash tracker.
Proof.
  destruct (ensureSlash_cases tracker) as (H1 & H2 & _ & H4).
  destruct (ensureSlash_cases (t +:+ "/")) as (_ & _ & H3 & _).
  split; [apply H3; by exists t|]. by split; [|split].
Qed.

(** ** The subject of a tracker header, prefix variant *)

Lemma extract_rest_elim (s rest : string) :
  PrefixBuild.extract_rest s = Some rest ->
  exists w, Char.is_space w = true /\ s = ":" +:+ String w rest
            /\ single_line rest.
Proof.
  unfold PrefixBuild.extract_rest. destruct s as [|a [|b r]]; [done|done|].
  destruct (Char.eqb a ":" && Char.is_space b
            && negb (Str.any Char.is_line_terminator r)) eqn:H; [|done].
  intros [= <-].
  apply andb_true_iff in H as [[Ha Hb]%andb_true_iff Hr].
  apply char_eqb_eq in Ha as ->. apply negb_true_iff in Hr.
  exists b. split; [done|]. split; [by rewrite sapp_cons, sapp_empty_l|done].
Qed.

Lemma extract_rest_intro (w : ascii) (rest : string) :
  Char.is_space w = true -> single_line rest ->
  PrefixBuild.extract_rest (":" +:+ String w rest) = Some rest.
Proof.
  intros Hw Hr. rewrite sapp_cons, sapp_empty_l.
  unfold PrefixBuild.extract_rest.
  change (Char.eqb ":" ":") with true. rewrite Hw, Hr. done.
Qed.

Lemma extract_tail_elim (after rest : string) :
  PrefixBuild.extract_tail after = Some rest ->
  exists cb w,
    (cb = "" \/ cb = "]") /\ Char.is_space w = true
    /\ after = cb +:+ ":" +:+ String w rest /\ single_line rest.
Proof.
  unfold PrefixBuild.extract_tail.
  assert (Hbare : PrefixBuild.extract_rest after = Some rest ->
    exists cb w, (cb = "" \/ cb = "]") /\ Char.is_space w = true
      /\ after = cb +:+ ":" +:+ String w rest /\ single_line rest).
  { intros (w & Hw & -> & Hr)%extract_rest_elim.
    exists "", w. rewrite sapp_empty_l. by repeat split; [left|..]. }
  destruct (eat "]" after) as [t|] eqn:He; [|done].
  destruct (PrefixBuild.extract_rest t) as [r|] eqn:Ht; [|done].
  intros [= ->]. apply eat_elim in He as ->.
  apply extract_rest_elim in Ht as (w & Hw & -> & Hr).
  exists "]", w. split; [by right|]. split; [done|]. split; [|done].
  by snorm.
Qed.

Lemma extract_first_elim (keys : list string) (r k rest : string) :
  PrefixBuild.extract_first keys r = Some (k, rest) ->
  k ∈ keys
  /\ PrefixBuild.extract_tail (Str.drop (String.length k) r) = Some rest.
Proof.
  induction keys as [|k' ks IH]; [done|]. cbn [PrefixBuild.extract_first].
  destruct (PrefixBuild.extract_tail (Str.drop (String.length k') r))
    as [rest'|] eqn:Ht.
  - intros [= <- <-]. split; [apply list_elem_of_here|done].
  - intros [Hk H]%IH. split; [by apply list_elem_of_further|done].
Qed.

Lemma extract_first_intro (keys : list string) (r k : string) :
  k ∈ keys ->
  is_Some (PrefixBuild.extract_tail (Str.drop (String.length k) r)) ->
  is_Some (PrefixBuild.extract_first keys r).
Proof.
  induction keys as [|k' ks IH]; [by intros ?%elem_of_nil|].
  intros Hk Ht. cbn [PrefixBuild.extract_first].
  destruct (PrefixBuild.extract_tail (Str.drop (String.length k') r))
    as [rest'|] eqn:Ht'; [done|].
  apply elem_of_cons in Hk as [->|Hk]; [|by apply IH].
  rewrite Ht' in Ht. by destruct Ht.
Qed.

Lemma jiraKeyExtract_elim (prefixes : option (list string))
    (s k rest : string) :
  PrefixBuild.jiraKeyExtract prefixes s = Some (k, rest) ->
  class_key_of prefixes k /\ single_line rest
  /\ exists ob cb w,
       (ob = "" \/ ob = "[") /\ (cb = "" \/ cb = "]")
       /\ Char.is_space w = true
       /\ s = ob +:+ k +:+ cb +:+ ":" +:+ String w rest.
Proof.
  unfold PrefixBuild.jiraKeyExtract.
  assert (Hfirst : forall ob r, (ob = "" \/ ob = "[") -> s = ob +:+ r ->
    PrefixBuild.extract_first (PrefixVariant.class_key prefixes r) r
      = Some (k, rest) ->
    class_key_of prefixes k /\ single_line rest
    /\ exists ob cb w,
         (ob = "" \/ ob = "[") /\ (cb = "" \/ cb = "]")
         /\ Char.is_space w = true
         /\ s = ob +:+ k +:+ cb +:+ ":" +:+ String w rest).
  { intros ob r Hob -> [Hk Ht]%extract_first_elim.
    apply class_key_elim in Hk as [Hk [rest0 ->]].
    rewrite drop_app_length in Ht.
    apply extract_tail_elim in Ht as (cb & w & Hcb & Hw & -> & Hr).
    split; [done|]. split; [done|]. by exists ob, cb, w. }
  destruct (eat "[" s) as [r|] eqn:He.
  - apply eat_elim in He as Hs.
    destruct (PrefixBuild.extract_first (PrefixVariant.class_key prefixes r) r)
      as [x|] eqn:Hx.
    + intros [= ->]. apply (Hfirst "[" r); [by right| |done].
      by rewrite Hs, sapp_cons, sapp_empty_l.
    + apply (Hfirst "" s); [by left|by rewrite sapp_empty_l].
  - apply (Hfirst "" s); [by left|by rewrite sapp_empty_l].
Qed.

Lemma jiraKeyExtract_complete (prefixes : option (list string))
    (s : string) :
  PrefixVariant.jiraHeader prefixes s = true -> single_line s ->
  is_Some (PrefixBuild.jiraKeyExtract prefixes s).
Proof.
  unfold PrefixVariant.jiraHeader, PrefixBuild.jiraKeyExtract.
  intros H Hs. apply orb_true_iff in H as [H|H].
  - destruct (eat "[" s) as [r|] eqn:He; [|done].
    apply eat_elim in He as Hr.
    apply existsb_exists in H as (k & Hk%list_elem_of_In & H).
    assert (Hx : is_Some (PrefixBuild.extract_first
                            (PrefixVariant.class_key prefixes r) r)).
    { apply (extract_first_intro _ _ k); [done|].
      destruct (eat "]" (Str.drop (String.length k) r)) as [r'|] eqn:He';
        [|done].
      apply colon_space_elim in H as (w & rest & Hw & ->).
      unfold PrefixBuild.extract_tail. rewrite He'.
      rewrite extract_rest_intro; [done|done|].
      apply class_key_elim in Hk as [_ [rest0 Hk]].
      rewrite Hk, drop_app_length in He'. apply eat_elim in He'.
      rewrite Hr, Hk, He' in Hs.
      apply single_line_cons in Hs as [_ Hs].
      apply single_line_app in Hs as [_ Hs].
      apply single_line_cons in Hs as [_ Hs].
      rewrite sapp_cons, sapp_empty_l in Hs.
      apply single_line_cons in Hs as [_ Hs].
      by apply single_line_cons in Hs as [_ Hs]. }
    by destruct Hx as [x ->].
  - apply existsb_exists in H as (k & Hk%list_elem_of_In & H).
    assert (Hx : is_Some (PrefixBuild.extract_first
                            (PrefixVariant.class_key prefixes s) s)).
    { apply (extract_first_intro _ _ k); [done|].
      apply colon_space_elim in H as (w & rest & Hw & H).
      assert (Hrest : PrefixBuild.extract_rest
                        (Str.drop (String.length k) s) = Some rest).
      { rewrite H. apply extract_rest_intro; [done|].
        apply class_key_elim in Hk as [_ [rest0 Hk]].
        rewrite Hk, drop_app_length in H. rewrite Hk, H in Hs.
        apply single_line_app in Hs as [_ Hs].
        rewrite sapp_cons, sapp_empty_l in Hs.
        apply single_line_cons in Hs as [_ Hs].
        by apply single_line_cons in Hs as [_ Hs]. }
      unfold PrefixBuild.extract_tail.
      destruct (eat "]" (Str.drop (String.length k) s)) as [t|]; [|by rewrite Hrest].
      destruct (PrefixBuild.extract_rest t); [done|by rewrite Hrest]. }
    destruct (eat "[" s) as [r|]; [|done].
    by destruct (PrefixBuild.extract_first
                   (PrefixVariant.class_key prefixes r) r).
Qed.

(** In the prefix variant, a one-line tracker header with [trackerUrl]
    configured gets the subject [[KEY](<url>/KEY): <rest>]: the key of the
    class the header starts with, linked below the tracker URL with
    exactly one slash added when the URL does not end with one, and the
    sanitised text behind the colon and the white-space character. *)
Theorem subjectOf_tracker_link (prefixes : option (list string))
    (url : string) (commit : ConventionalCommit) :
  PrefixVariant.jiraHeader prefixes (message commit) = true ->
  single_line (message commit) ->
  url <> "" ->
  exists k rest,
    class_key_of prefixes k
    /\ (exists ob cb w,
          (ob = "" \/ ob = "[") /\ (cb = "" \/ cb = "]")
          /\ Char.is_space w = true
          /\ message commit = ob +:+ k +:+ cb +:+ ":" +:+ String w rest)
    /\ PrefixBuild.subjectOf prefixes (Some url) commit
       = "[" +:+ k +:+ "](" +:+ PrefixBuild.ensureSlash url +:+ k +:+ "): "
         +:+ htmlEscape rest.
Proof.
  intros Hj Hs Hu. unfold PrefixBuild.subjectOf. cbv zeta. rewrite Hj.
  destruct (jiraKeyExtract_complete prefixes (message commit) Hj Hs)
    as [[k rest] Hx].
  rewrite Hx. apply jiraKeyExtract_elim in Hx as (Hk & _ & Hdec).
  exists k, rest. split; [done|]. split; [done|].
  by destruct url.
Qed.

Lemma subjectOf_tracker_link_witness :
  exists k rest,
    class_key_of (Some ["ABC"]) k
    /\ (exists ob cb w,
          (ob = "" \/ ob = "[") /\ (cb = "" \/ cb = "]")
          /\ Char.is_space w = true
          /\ message tracker_commit
             = ob +:+ k +:+ cb +:+ ":" +:+ String w rest)
    /\ PrefixBuild.subjectOf (Some ["ABC"]) (Some "https://t.example/browse")
         tracker_commit
       = "[" +:+ k +:+ "]("
         +:+ PrefixBuild.ensureSlash "https://t.example/browse" +:+ k
         +:+ "): " +:+ htmlEscape rest.
Proof.
  apply (subjectOf_tracker_link (Some ["ABC"]) "https://t.example/browse"
           tracker_commit); [by vm_compute|by vm_compute|done].
Defined.

(** ** The fallback with the early return *)

Lemma contains_empty (p : string -> bool) :
  p "" = false -> contains p "" = false.
Proof. intros H. unfold contains. simpl. by rewrite H. Qed.

(** The variant with the early return gives the writer's output back
    unchanged when it holds a section heading or a bullet behind a line
    break, and does what the fallback of the main file does otherwise; the
    tests of the length of the output change nothing. *)
Theorem fallback_early_return (ctx : Context) (rendered : string)
    (changelogCommits : list ChangelogCommit) :
  PrefixBuild.fallback ctx rendered changelogCommits
  = if PrefixBuild.hasSectionsOrBullets rendered then rendered
    else appendOthers ctx rendered changelogCommits.
Proof.
  unfold PrefixBuild.fallback, appendOthers. cbv zeta.
  destruct rendered as [|c r].
  - replace (PrefixBuild.hasSectionsOrBullets "") with false by done.
    done.
  - cbn [Str.is_empty negb andb].
    destruct (PrefixBuild.hasSectionsOrBullets (String c r)); done.
Qed.

(** ** The tracker extension and the plain variant *)

(** Without [trackerUrl], parsed commits whose message is no tracker
    header get from the main file the entries the variant without tracker
    options gives them, and the notes are rewritten the same way: the
    tracker extension changes nothing for them. *)
Theorem classifyCommits_plain (ctx : Context)
    (prefixes : option (list string)) (url : option string)
    (cs : list ConventionalCommit) (st : State) :
  truthy url = false ->
  Forall (fun c => jiraHeader (message c) = false) cs ->
  (classifyCommits ctx prefixes url cs st).1
    = (SectionsVariant.entriesOf ctx cs (store st)).1
  /\ store (classifyCommits ctx prefixes url cs st).2
     = (SectionsVariant.entriesOf ctx cs (store st)).2.
Proof.
  intros Hu Hall. revert st.
  assert (Hsub : forall s, rewriteSubject prefixes url s = s).
  { intros s. unfold rewriteSubject. destruct url as [[|a u]|]; done. }
  induction Hall as [|c cs Hc _ IH]; intros st; [done|].
  cbn [classifyCommits SectionsVariant.entriesOf].
  unfold classifyCommit, SectionsVariant.entryOf. cbv zeta.
  rewrite Hc, Hsub.
  destruct (breaking_notes ctx (notes c) (store st)) as [kept σ1].
  set (st1 := {| seen := _; store := σ1 |}).
  specialize (IH st1). change (store st1) with σ1 in IH.
  destruct (classifyCommits ctx prefixes url cs st1) as [es st2].
  destruct (SectionsVariant.entriesOf ctx cs σ1) as [es' σ2].
  cbn [fst snd] in *. destruct IH as [-> ->]. done.
Qed.

Lemma classifyCommits_plain_witness :
  (classifyCommits plain_context None None [breaking_commit; feature_commit]
     {| seen := ∅; store := breaking_note_store |}).1
    = (SectionsVariant.entriesOf plain_context
         [breaking_commit; feature_commit] breaking_note_store).1
  /\ store (classifyCommits plain_context None None
              [breaking_commit; feature_commit]
              {| seen := ∅; store := breaking_note_store |}).2
     = (SectionsVariant.entriesOf plain_context
          [breaking_commit; feature_commit] breaking_note_store).2.
Proof.
  apply (classifyCommits_plain plain_context None None
           [breaking_commit; feature_commit]
           {| seen := ∅; store := breaking_note_store |}); [done|].
  repeat constructor.
Defined.

(** ** Notes are rewritten in place *)

Section InPlace.

Variables host0 owner0 repo0 : string.

Implicit Types (σ : gmap loc Note) (l : loc) (ls : list loc) (n : Note).

Local Abbreviation times := (rewrite_note_times host0 owner0 repo0).

Lemma rewrite_note_times_0 n : times 0 n = n.
Proof. by destruct n. Qed.

Lemma rewrite_note_times_add a b n : times a (times b n) = times (a + b) n.
Proof.
  unfold rewrite_note_times. cbn [title text]. f_equal.
  symmetry. apply Nat.iter_add.
Qed.

Lemma rewrite_note_times_fmap a b (o : option Note) :
  times a <$> (times b <$> o) = times (a + b) <$> o.
Proof. destruct o as [n|]; [|done]. simpl. by rewrite rewrite_note_times_add. Qed.

Lemma rewrite_all_count ls σ l :
  rewrite_all host0 owner0 repo0 ls σ !! l
  = times (count_occ Nat.eq_dec ls l) <$> σ !! l.
Proof.
  revert σ; induction ls as [|k ls IH]; intros σ.
  - simpl. destruct (σ !! l) as [n|]; [|done]. simpl.
    by rewrite rewrite_note_times_0.
  - change (rewrite_all host0 owner0 repo0 (k :: ls) σ)
      with (rewrite_all host0 owner0 repo0 ls
              (replaceIssueLink k host0 owner0 repo0 σ)).
    rewrite IH. unfold replaceIssueLink.
    destruct (decide (k = l)) as [->|Hne].
    + rewrite lookup_alter_eq, count_occ_cons_eq by done.
      change (fun n0 => {| title := title n0;
                           text := rewrite_issue_ref host0 owner0 repo0
                                     (text n0) |})
        with (times 1).
      rewrite rewrite_note_times_fmap. by rewrite Nat.add_1_r.
    + by rewrite lookup_alter_ne, count_occ_cons_neq by done.
Qed.

End InPlace.

Lemma count_occ_filter (p : nat -> bool) (ls : list nat) (l : nat) :
  count_occ Nat.eq_dec (List.filter p ls) l
  = if p l then count_occ Nat.eq_dec ls l else 0.
Proof.
  induction ls as [|k ls IH]; [by destruct (p l)|].
  cbn [List.filter]. destruct (p k) eqn:Hk.
  - destruct (decide (k = l)) as [->|Hne].
    + rewrite !count_occ_cons_eq by done. rewrite IH. by rewrite Hk.
    + rewrite !count_occ_cons_neq by done. apply IH.
  - rewrite IH. destruct (decide (k = l)) as [->|Hne].
    + by rewrite Hk.
    + by rewrite count_occ_cons_neq by done.
Qed.

Lemma breaking_notes_title ctx ls σ t l :
  has_title (breaking_notes ctx ls σ).2 t l = has_title σ t l.
Proof.
  apply has_title_ext. rewrite breaking_notes_snd. apply rewrite_all_title.
Qed.

Lemma classifyCommits_store_count ctx prefixes url cs st l :
  store (classifyCommits ctx prefixes url cs st).2 !! l
  = rewrite_note_times (ctx_host ctx) (ctx_owner ctx) (ctx_repository ctx)
      (rewritings cs (store st) l)
    <$> store st !! l.
Proof.
  revert st; induction cs as [|c cs IH]; intros st.
  - unfold rewritings. simpl.
    destruct (has_title (store st) "BREAKING CHANGE" l);
      destruct (store st !! l) as [n|]; simpl; try done;
      by rewrite rewrite_note_times_0.
  - cbn [classifyCommits].
    destruct (classifyCommit ctx prefixes url c st) as [e st1] eqn:Hc.
    destruct (classifyCommits ctx prefixes url cs st1) as [es st2] eqn:Hcs.
    cbn [snd]. change st2 with (es, st2).2. rewrite <- Hcs, IH.
    assert (Hst1 : store st1 = (breaking_notes ctx (notes c) (store st)).2).
    { change st1 with (e, st1).2. rewrite <- Hc. apply classifyCommit_store. }
    assert (Ht : has_title (store st1) "BREAKING CHANGE" l
                 = has_title (store st) "BREAKING CHANGE" l).
    { rewrite Hst1. apply breaking_notes_title. }
    rewrite Hst1 at 2. rewrite breaking_notes_snd, rewrite_all_count.
    rewrite rewrite_note_times_fmap. f_equal. f_equal.
    unfold rewritings. rewrite Ht, count_occ_filter.
    cbn [List.flat_map]. rewrite count_occ_app.
    destruct (has_title (store st) "BREAKING CHANGE" l);
      [apply Nat.add_comm|done].
Qed.

Lemma classifyCommits_entry_notes ctx prefixes url cs st :
  Forall2
    (fun c e =>
       entry_notes e
       = List.filter (has_title (store st) "BREAKING CHANGE") (notes c))
    cs (classifyCommits ctx prefixes url cs st).1.
Proof.
  revert st; induction cs as [|c cs IH]; intros st; [constructor|].
  cbn [classifyCommits].
  destruct (classifyCommit ctx prefixes url c st) as [e st1] eqn:Hc.
  specialize (IH st1).
  destruct (classifyCommits ctx prefixes url cs st1) as [es st2].
  cbn [fst] in *. constructor.
  - change e with (e, st1).1. rewrite <- Hc.
    by rewrite classifyCommit_notes, breaking_notes_fst.
  - eapply Forall2_impl; [exact IH|]. intros c' e' ->.
    apply List.filter_ext. intros l.
    assert (Hst1 : store st1 = (breaking_notes ctx (notes c) (store st)).2).
    { change st1 with (e, st1).2. rewrite <- Hc. apply classifyCommit_store. }
    rewrite Hst1. apply breaking_notes_title.
Qed.

(** C9, as the code has it: a call changes nothing of its input but the
    text of notes titled [BREAKING CHANGE].  After the call every note
    object has its title, and its text with the issue-link rewriting
    applied once per occurrence of the object among the notes of the
    parsed commits when it is titled [BREAKING CHANGE], and its text as it
    was otherwise; no note object is added or removed.  The entry of a
    parsed commit holds, as its notes, those same objects: the commit's
    notes titled [BREAKING CHANGE], in their order; the entry of a
    recovered raw commit holds none. *)
Theorem buildNotes_rewrites_breaking_notes_in_place
    (writer : Writer) (cs : list ConventionalCommit)
    (options : BuildNotesOptions) (σ : gmap loc Note) :
  (forall l,
     (buildNotes writer cs options σ).2 !! l
     = rewrite_note_times (ctx_host (buildContext options)) (owner options)
         (repository options) (rewritings cs σ l)
       <$> σ !! l)
  /\ exists parsed recovered,
       (classify options cs σ).1 = parsed ++ recovered
       /\ Forall2
            (fun c e =>
               entry_notes e
               = List.filter (has_title σ "BREAKING CHANGE") (notes c))
            cs parsed
       /\ Forall (fun e => entry_notes e = []) recovered.
Proof.
  split.
  - intros l. rewrite buildNotes_snd, classify_snd.
    apply (classifyCommits_store_count (buildContext options)).
  - rewrite classify_fst. cbv zeta. eexists _, _. split; [done|]. split.
    + apply (classifyCommits_entry_notes (buildContext options) _ _ cs
               {| seen := ∅; store := σ |}).
    + destruct (commits options) as [rs|]; [|constructor].
      eapply Forall_impl; [apply recoverRaws_entries|].
      intros e He. apply He.
Qed.

(** ** Where the first issue reference is not the only one rewritten *)

Lemma find_issue_ref_unfold (s : string) :
  find_issue_ref s =
    match issue_ref_at s with
    | Some (n, after) => Some (EmptyString, n, after)
    | None =>
        match s with
        | String c s' =>
            match find_issue_ref s' with
            | Some (b, n, a) => Some (String c b, n, a)
            | None => None
            end
        | EmptyString => None
        end
    end.
Proof. by destruct s. Qed.

Lemma find_issue_ref_leftmost (before N after : string) :
  N <> "" -> Str.all Char.is_digit N = true ->
  (forall i, i < String.length before ->
     ~ starts_issue_ref
         (Str.drop i (before +:+ "(#" +:+ N +:+ ")" +:+ after))) ->
  find_issue_ref (before +:+ "(#" +:+ N +:+ ")" +:+ after)
  = Some (before, N, after).
Proof.
  intros Hne Hd. induction before as [|c b IH]; intros Hleft.
  - rewrite sapp_empty_l, find_issue_ref_unfold.
    by rewrite issue_ref_at_intro.
  - rewrite find_issue_ref_unfold.
    destruct (issue_ref_at (String c b +:+ "(#" +:+ N +:+ ")" +:+ after))
      as [[n a]|] eqn:Hat.
    + destruct (Hleft 0); [simpl; lia|].
      apply issue_ref_at_elim in Hat as (Hn & Hdn & Hs).
      cbn [Str.drop]. rewrite Hs. by exists n, a.
    + rewrite sapp_cons. rewrite IH; [done|].
      intros i Hi. specialize (Hleft (S i)). rewrite sapp_cons in Hleft.
      apply Hleft. simpl. lia.
Qed.

Lemma first_issue_linked_unique (host0 owner0 repo0 t t' : string) :
  first_issue_linked host0 owner0 repo0 t t' ->
  t' = issue_linked host0 owner0 repo0 t.
Proof.
  unfold issue_linked.
  intros [(before & N & after & Ht & Hne & Hd & Hleft & Ht')|[Hno Ht']].
  - rewrite Ht in Hleft. rewrite Ht, find_issue_ref_leftmost by done.
    by rewrite Ht'.
  - destruct (find_issue_ref t) as [[[b n] a]|] eqn:Hf; [|done].
    apply find_issue_ref_Some in Hf as (Hs & Hn & Hdn & _).
    destruct (Hno (String.length b)). rewrite Hs, drop_app_length.
    by exists n, a.
Qed.

(** C8 fails where a note object occurs twice among the notes of a commit
    and where the host holds a replacement pattern: a later [(#N)] is
    rewritten too, or the link is not the one of the claim. *)
Lemma classifyCommit_rewrites_beyond_first_issue :
  (let ce := classifyCommit plain_context None None shared_note_commit
               (mkState ∅ shared_note_store) in
   entry_notes ce.1 = [1; 1]
   /\ exists n',
        store ce.2 !! 1 = Some n'
        /\ text n' =
             "both ([#1](https://github.com/o/r/issues/1)) and ([#2](https://github.com/o/r/issues/2))"
        /\ ~ first_issue_linked "https://github.com" "o" "r"
               "both (#1) and (#2)" (text n'))
  /\ (let ce := classifyCommit pattern_host_context None None breaking_commit
                  (mkState ∅ breaking_note_store) in
      entry_notes ce.1 = [1]
      /\ exists n',
           store ce.2 !! 1 = Some n'
           /\ text n' =
                "old API removed ([#42](https://h(#42)/o/r/issues/42)), see (#43)"
           /\ ~ first_issue_linked "https://h$&" "o" "r"
                  "old API removed (#42), see (#43)" (text n')).
Proof.
  split; intros ce; (split; [reflexivity|]).
  - exists (mkNote "BREAKING CHANGE"
      "both ([#1](https://github.com/o/r/issues/1)) and ([#2](https://github.com/o/r/issues/2))").
    split; [reflexivity|]. split; [reflexivity|].
    intros H%first_issue_linked_unique. vm_compute in H. discriminate H.
  - exists (mkNote "BREAKING CHANGE"
      "old API removed ([#42](https://h(#42)/o/r/issues/42)), see (#43)").
    split; [reflexivity|]. split; [reflexivity|].
    intros H%first_issue_linked_unique. vm_compute in H. discriminate H.
Qed.

(** ** An Others entry the writer has rendered is appended again *)

Lemma join_elem (A : Type) (f : A -> string) (sep : string) (x : A)
    (xs : list A) :
  x ∈ xs -> exists a b, Str.join sep (List.map f xs) = a +:+ f x +:+ b.
Proof.
  induction xs as [|y ys IH]; [by intros ?%elem_of_nil|].
  intros [->|Hx]%elem_of_cons.
  - destruct ys as [|z zs].
    + exists "", "". by rewrite sapp_empty_l, sapp_empty_r.
    + exists "", (sep +:+ Str.join sep (List.map f (z :: zs))).
      by rewrite sapp_empty_l.
  - destruct (IH Hx) as (a & b & Hab). destruct ys as [|z zs].
    + by apply elem_of_nil in Hx.
    + exists (f y +:+ sep +:+ a), b.
      change (Str.join sep (List.map f (y :: z :: zs)))
        with (f y +:+ sep +:+ Str.join sep (List.map f (z :: zs))).
      rewrite Hab. by rewrite !sapp_assoc.
Qed.

Lemma others_bullet_hashed (ctx : Context) (e : ChangelogCommit) :
  hash e <> "" ->
  exists link, others_bullet ctx e = "* " +:+ subject e +:+ link.
Proof.
  intros Hh. unfold others_bullet. destruct (hash e) as [|a h]; [done|].
  cbn [Str.is_empty Str.take]. cbv iota.
  eexists (" " +:+ _). rewrite trim_fixed; [done|done|].
  rewrite <- !sapp_assoc. by apply no_trail_app.
Qed.

(** C1 fails in the code: the fallback assembler appends the Others block
    whatever the writer has returned.  An entry of type [others] with a
    hash whose subject the writer has rendered has that subject twice in
    the returned document: once where the writer has put it, and once more
    in a bullet of the appended block. *)
Theorem buildNotes_appends_rendered_others_again
    (writer : Writer) (cs : list ConventionalCommit)
    (options : BuildNotesOptions) (σ : gmap loc Note)
    (e : ChangelogCommit) (a b : string) :
  let ctx := buildContext options in
  let entries := (classify options cs σ).1 in
  let rendered :=
    Str.trim (writer entries (classify options cs σ).2 ctx
                (changelogSections options)) in
  e ∈ entries -> entry_type e = "others" ->
  hash e <> "" -> subject e <> "" ->
  rendered = a +:+ subject e +:+ b ->
  exists x y,
    (buildNotes writer cs options σ).1
    = a +:+ subject e +:+ b +:+ Str.nl +:+ Str.nl
      +:+ "### Others" +:+ Str.nl +:+ Str.nl
      +:+ x +:+ "* " +:+ subject e +:+ y.
Proof.
  intros ctx entries rendered He Ht Hh Hs Hr.
  rewrite buildNotes_uses_context. cbv zeta. rewrite appendOthers_block.
  fold ctx. fold entries. fold rendered.
  assert (Ho : e ∈ List.filter is_others entries).
  { apply list_elem_of_In, filter_In. split; [by apply list_elem_of_In|].
    unfold is_others. by rewrite Ht. }
  destruct (List.filter is_others entries) as [|o os] eqn:Hf;
    [by apply elem_of_nil in Ho|].
  destruct (join_elem _ (others_bullet ctx) Str.nl e (o :: os) Ho)
    as (x & y & Hj).
  destruct (others_bullet_hashed ctx e Hh) as [link Hb].
  assert (Hne : Str.is_empty rendered = false).
  { rewrite Hr. destruct a; [|done]. rewrite sapp_empty_l.
    by destruct (subject e). }
  rewrite Hne. unfold others_block. rewrite Hj, Hb, Hr.
  exists x, (link +:+ y). by rewrite !sapp_assoc.
Qed.

Lemma buildNotes_appends_rendered_others_again_witness :
  exists x y,
    (buildNotes Renderer.render [tracker_commit] others_section_options ∅).1
    = ("### Others" +:+ Str.nl +:+ Str.nl +:+ "* ")
      +:+ "ABC-1: fix parser"
      +:+ " ([abc1234](https://github.com/o/r/commit/abc1234def))"
      +:+ Str.nl +:+ Str.nl
      +:+ "### Others" +:+ Str.nl +:+ Str.nl
      +:+ x +:+ "* " +:+ "ABC-1: fix parser" +:+ y.
Proof.
  apply (buildNotes_appends_rendered_others_again Renderer.render
           [tracker_commit] others_section_options ∅
           (mkEntry "" "ABC-1: fix parser" "others" None [] [] [] None None
              "ABC-1: fix parser" "" "abc1234def")
           ("### Others" +:+ Str.nl +:+ Str.nl +:+ "* ")
           " ([abc1234](https://github.com/o/r/commit/abc1234def))").
  - vm_compute. apply list_elem_of_here.
  - reflexivity.
  - discriminate.
  - discriminate.
  - vm_compute. reflexivity.
Defined.
